(** * Multiscale label reconciliation: [MultiscaleGenerator.multiscale_match]

    A shallow embedding of [src/research_tools/generator/multiscale.py]
    (class [MultiscaleGenerator]) and the properties of its matcher.

    Floating-point numbers are modelled by rationals; the numpy value
    equality [==] on them is [Qeq_bool].  numpy arrays and Python
    dictionaries live in a store of objects addressed by references, so
    that in-place row assignment and the copies made by [np.delete] are
    visible in the model. *)

From Stdlib Require Import List ZArith QArith Qminmax Bool Arith Lia Sorted.
Import ListNotations.

Set Implicit Arguments.

(** ** Outcomes of a Python computation *)

Inductive exn : Type :=
| AssertionError
| KeyError
| IndexError
| TypeError
| ValueError.

Inductive outcome (A : Type) : Type :=
| Ok (a : A)
| Raise (e : exn)
| Diverge.

Arguments Ok {A} a.
Arguments Raise {A} e.
Arguments Diverge {A}.

Definition obind {A B} (m : outcome A) (f : A -> outcome B) : outcome B :=
  match m with
  | Ok a => f a
  | Raise e => Raise e
  | Diverge => Diverge
  end.

Declare Scope py_scope.
Delimit Scope py_scope with py.
Notation "x <- m ;; k" := (obind m (fun x => k))
  (at level 61, m at next level, right associativity) : py_scope.
Notation "' p <- m ;; k" := (obind m (fun p => k))
  (at level 61, p pattern, m at next level, right associativity) : py_scope.
Local Open Scope py_scope.

(** ** Boxes and flattened rows *)

(** A row [xmin, ymin, xmax, ymax] of an [N x 4] array. *)
Record Box : Type := mkBox { xmin : Q; ymin : Q; xmax : Q; ymax : Q }.

(** [np.all(a == b)] on two boxes. *)
Definition box_eqb (a b : Box) : bool :=
  Qeq_bool (xmin a) (xmin b) && Qeq_bool (ymin a) (ymin b) &&
  Qeq_bool (xmax a) (xmax b) && Qeq_bool (ymax a) (ymax b).

(** A row [*bbox, class_id, occurance] of a flattened [N x 6] array. *)
Record FlatItem : Type :=
  mkItem { item_bbox : Box; item_class : Z; item_occ : nat }.

(** [np.all(item == target_item)] on two flattened rows. *)
Definition item_eqb (a b : FlatItem) : bool :=
  box_eqb (item_bbox a) (item_bbox b) &&
  Z.eqb (item_class a) (item_class b) &&
  Nat.eqb (item_occ a) (item_occ b).

(** An entry of [self.annotation_map[image_name]]: a COCO category id and
    a box [x, y, w, h]. *)
Record Annotation : Type :=
  mkAnnotation { category_id : Z; bbox : Q * Q * Q * Q }.

(** Modelled from the spec: [iou_np] of [generator/util.py] is not part of
    the sources at hand.  Section 4.1 describes it as the standard
    intersection over union of two axis-aligned boxes, 0 when they do not
    overlap. *)
Definition box_area (a : Box) : Q := (xmax a - xmin a) * (ymax a - ymin a).

Definition iou (a b : Box) : Q :=
  let w := Qmax 0 (Qmin (xmax a) (xmax b) - Qmax (xmin a) (xmin b)) in
  let h := Qmax 0 (Qmin (ymax a) (ymax b) - Qmax (ymin a) (ymin b)) in
  let inter := w * h in
  inter / (box_area a + box_area b - inter).

(** Modelled from the spec: [xywh2xyminmax] of [generator/util.py] is not
    part of the sources at hand.  Section 4.1: it converts
    [(x, y, width, height)] to [(xmin, ymin, xmax, ymax)]. *)
Definition to_min_max (b : Q * Q * Q * Q) : Box :=
  let '(x, y, w, h) := b in mkBox x y (x + w) (y + h).

(** ** numpy and builtin helpers *)

(** [v > t] and [v >= t] on floats. *)
Definition Qgt_bool (v t : Q) : bool := negb (Qle_bool v t).
Definition Qge_bool (v t : Q) : bool := Qle_bool t v.

(** The scan [for idx, x in enumerate(l): if p(x): ...; break]. *)
Fixpoint find_index {A} (p : A -> bool) (l : list A) : option nat :=
  match l with
  | [] => None
  | x :: t => if p x then Some 0%nat else option_map S (find_index p t)
  end.

(** [np.delete(arr, idx, axis=0)]: a copy without row [idx]. *)
Fixpoint np_delete {A} (l : list A) (idx : nat) : outcome (list A) :=
  match l, idx with
  | [], _ => Raise IndexError
  | _ :: t, O => Ok t
  | x :: t, S i => t' <- np_delete t i ;; Ok (x :: t')
  end.

(** [arr[idx] = v] on an existing array. *)
Fixpoint setitem {A} (l : list A) (idx : nat) (v : A) : outcome (list A) :=
  match l, idx with
  | [], _ => Raise IndexError
  | _ :: t, O => Ok (v :: t)
  | x :: t, S i => t' <- setitem t i v ;; Ok (x :: t')
  end.

(** [np.argmax]: the first position of the greatest value. *)
Fixpoint argmax_from {A} (ltb : A -> A -> bool)
    (best : A) (besti i : nat) (l : list A) : nat :=
  match l with
  | [] => besti
  | v :: t => if ltb best v then argmax_from ltb v i (S i) t
              else argmax_from ltb best besti (S i) t
  end.

Definition np_argmax {A} (ltb : A -> A -> bool) (l : list A) : outcome nat :=
  match l with
  | [] => Raise ValueError
  | v :: t => Ok (argmax_from ltb v 0 1 t)
  end.

(** [sorted(l)] and [np.sort] by insertion. *)
Fixpoint insert_sorted {A} (leb : A -> A -> bool) (x : A) (l : list A) : list A :=
  match l with
  | [] => [x]
  | y :: t => if leb x y then x :: y :: t else y :: insert_sorted leb x t
  end.

Definition sorted {A} (leb : A -> A -> bool) (l : list A) : list A :=
  fold_right (insert_sorted leb) [] l.

(** [np.unique(l)]: the sorted distinct values. *)
Fixpoint insert_unique (x : Z) (l : list Z) : list Z :=
  match l with
  | [] => [x]
  | y :: t => if Z.ltb x y then x :: y :: t
              else if Z.eqb x y then y :: t
              else y :: insert_unique x t
  end.

Definition np_unique (l : list Z) : list Z := fold_right insert_unique [] l.

Definition count_class (c : Z) (l : list Z) : nat :=
  length (filter (Z.eqb c) l).

(** [np.where(mask)] and the selection [arr[np.where(mask)]]. *)
Fixpoint np_where_from (i : nat) (mask : list bool) : list nat :=
  match mask with
  | [] => []
  | b :: t => if b then i :: np_where_from (S i) t else np_where_from (S i) t
  end.

Definition np_where (mask : list bool) : list nat := np_where_from 0 mask.

Fixpoint take_rows {A} (arr : list A) (idxs : list nat) : outcome (list A) :=
  match idxs with
  | [] => Ok []
  | i :: t =>
      match nth_error arr i with
      | None => Raise IndexError
      | Some x => r <- take_rows arr t ;; Ok (x :: r)
      end
  end.

(** Python dictionaries with integer keys, in insertion order. *)
Definition dict (V : Type) : Type := list (Z * V).

Fixpoint dict_get {V} (d : dict V) (k : Z) : option V :=
  match d with
  | [] => None
  | (k', v) :: t => if Z.eqb k k' then Some v else dict_get t k
  end.

Fixpoint dict_set {V} (d : dict V) (k : Z) (v : V) : dict V :=
  match d with
  | [] => [(k, v)]
  | (k', v') :: t => if Z.eqb k k' then (k', v) :: t else (k', v') :: dict_set t k v
  end.

Definition dict_keys {V} (d : dict V) : list Z := map fst d.

Definition dict_getitem {V} (d : dict V) (k : Z) : outcome V :=
  match dict_get d k with
  | Some v => Ok v
  | None => Raise KeyError
  end.

(** [if k not in d: d[k] = []] followed by [d[k].append(v)]. *)
Definition dict_append {V} (d : dict (list V)) (k : Z) (v : V) : dict (list V) :=
  match dict_get d k with
  | Some l => dict_set d k (l ++ [v])
  | None => dict_set d k [v]
  end.

(** ** The store *)

Definition ref : Type := nat.

Inductive pyobj : Type :=
| NdBoxes (rows : list Box)                        (* float array, N x 4 *)
| NdInts (xs : list Z)                             (* int array, N *)
| NdFloats (xs : list Q)                           (* float array, N *)
| NdItems (rows : list FlatItem)                   (* float array, N x 6 *)
| PyDict (kv : dict ref)                           (* scale -> array *)
| PyAnnotations (kv : dict (list Annotation)).     (* image id -> items *)

Definition heap : Type := list pyobj.

(** Computations that read and write the store. *)
Definition Py (A : Type) : Type := heap -> outcome (A * heap).

Definition ret {A} (a : A) : Py A := fun h => Ok (a, h).

Definition bind {A B} (m : Py A) (f : A -> Py B) : Py B :=
  fun h => match m h with
           | Ok (a, h') => f a h'
           | Raise e => Raise e
           | Diverge => Diverge
           end.

Definition lift {A} (m : outcome A) : Py A :=
  fun h => match m with
           | Ok a => Ok (a, h)
           | Raise e => Raise e
           | Diverge => Diverge
           end.

Declare Scope store_scope.
Delimit Scope store_scope with store.
Notation "x <- m ;; k" := (bind m (fun x => k))
  (at level 61, m at next level, right associativity) : store_scope.
Notation "' p <- m ;; k" := (bind m (fun p => k))
  (at level 61, p pattern, m at next level, right associativity) : store_scope.

(** A new object, placed after all existing ones. *)
Definition alloc (o : pyobj) : Py ref :=
  fun h => Ok (length h, h ++ [o]).

Definition deref (r : ref) : Py pyobj :=
  fun h => match nth_error h r with
           | Some o => Ok (o, h)
           | None => Raise TypeError
           end.

Definition load_boxes (r : ref) : Py (list Box) :=
  (o <- deref r ;;
   match o with NdBoxes rows => ret rows | _ => lift (Raise TypeError) end)%store.

Definition load_ints (r : ref) : Py (list Z) :=
  (o <- deref r ;;
   match o with NdInts xs => ret xs | _ => lift (Raise TypeError) end)%store.

Definition load_floats (r : ref) : Py (list Q) :=
  (o <- deref r ;;
   match o with NdFloats xs => ret xs | _ => lift (Raise TypeError) end)%store.

Definition load_items (r : ref) : Py (list FlatItem) :=
  (o <- deref r ;;
   match o with NdItems rows => ret rows | _ => lift (Raise TypeError) end)%store.

Definition load_dict (r : ref) : Py (dict ref) :=
  (o <- deref r ;;
   match o with PyDict kv => ret kv | _ => lift (Raise TypeError) end)%store.

Definition load_annotations (r : ref) : Py (dict (list Annotation)) :=
  (o <- deref r ;;
   match o with PyAnnotations kv => ret kv | _ => lift (Raise TypeError) end)%store.

(** Overwrite the object at [r]. *)
Fixpoint heap_set (h : heap) (r : ref) (o : pyobj) : heap :=
  match h, r with
  | [], _ => []
  | _ :: t, O => o :: t
  | x :: t, S r' => x :: heap_set t r' o
  end.

(** [arr[idx] = row] in place, on the array that [r] refers to. *)
Definition store_item (r : ref) (idx : nat) (row : FlatItem) : Py unit :=
  fun h => match nth_error h r with
           | Some (NdItems rows) =>
               match setitem rows idx row with
               | Ok rows' => Ok (tt, heap_set h r (NdItems rows'))
               | Raise e => Raise e
               | Diverge => Diverge
               end
           | _ => Raise TypeError
           end.

(** ** [MultiscaleGenerator] *)

(** The fields of [self] that the matcher reads.  [rematch_thresh] is a
    count: the slice [[:rematch_thresh]] takes that many values. *)
Record MultiscaleGenerator : Type := mkGenerator {
  scales : list Z;
  conf_thresh : Q;
  iou_thresh : Q;
  rematch_thresh : nat;
  annotation_map : ref
}.

Definition infer_table : Type := dict (dict (list Box)).
Definition class_tables : Type := (list (Box * nat) * list Box * list Box)%type.
Definition tables : Type :=
  (dict (list Box) * dict (list Box) * dict (list Box))%type.

Definition enumerate {A} (l : list A) : list (nat * A) :=
  combine (seq 0 (length l)) l.

(** [unique_class_ids[np.argmax(unique_class_counts)]]. *)
Definition dominant_class (all_classes : list Z) : outcome Z :=
  let unique_class_ids := np_unique all_classes in
  let unique_class_counts :=
    map (fun c => count_class c all_classes) unique_class_ids in
  i <- np_argmax Nat.ltb unique_class_counts ;;
  match nth_error unique_class_ids i with
  | Some c => Ok c
  | None => Raise IndexError
  end.

Section Matcher.

(** The helpers imported from [generator/util.py] are parameters. *)
Variable iou_np : Box -> Box -> Q.
Variable xywh2xyminmax : Q * Q * Q * Q -> Box.
Variable cocoid2classid : Z -> Z.

Variable self : MultiscaleGenerator.

(** *** Lines 199-211: ground truth of the image, per class *)

Definition load_gt (image_name : Z) : Py (list Z * list Box) :=
  (m <- load_annotations (annotation_map self) ;;
   let o_items :=
     match dict_get m image_name with Some l => l | None => [] end in
   ret (map (fun item => cocoid2classid (category_id item)) o_items,
        map (fun item => xywh2xyminmax (bbox item)) o_items))%store.

Fixpoint gt_by_class (o_cls : list Z) (o_bboxes : list Box)
    (classes : list Z) (gt_objects : dict (list Box))
    : outcome (dict (list Box)) :=
  match classes with
  | [] => Ok gt_objects
  | class_id :: rest =>
      rows <- take_rows o_bboxes (np_where (map (fun c => Z.eqb c class_id) o_cls)) ;;
      gt_by_class o_cls o_bboxes rest (dict_set gt_objects class_id rows)
  end.

(** *** Lines 213-230: detections above [conf_thresh], per class and scale *)

Fixpoint assign_classes (scale : Z) (bboxes : list Box) (cls : list Z)
    (classes : list Z) (infer_objects : infer_table) : outcome infer_table :=
  match classes with
  | [] => Ok infer_objects
  | class_id :: rest =>
      let infer_objects :=
        match dict_get infer_objects class_id with
        | Some _ => infer_objects
        | None => dict_set infer_objects class_id []
        end in
      rows <- take_rows bboxes (np_where (map (fun c => Z.eqb c class_id) cls)) ;;
      per_scale <- dict_getitem infer_objects class_id ;;
      assign_classes scale bboxes cls rest
        (dict_set infer_objects class_id (dict_set per_scale scale rows))
  end.

(** Lines 222-225: the rows whose score is above [conf_thresh]. *)
Definition above_conf (bboxes : list Box) (cls : list Z) (scores : list Q)
    : outcome (list Box * list Z) :=
  let scoremap :=
    np_where (map (fun s => Qgt_bool s (conf_thresh self)) scores) in
  bboxes <- take_rows bboxes scoremap ;;
  cls <- take_rows cls scoremap ;;
  Ok (bboxes, cls).

Fixpoint collect_infer_objects (bboxes_scales cls_scales scores_scales : ref)
    (todo : list Z) (infer_objects : infer_table) : Py infer_table :=
  match todo with
  | [] => ret infer_objects
  | scale :: rest =>
      (bd <- load_dict bboxes_scales ;;
       rb <- lift (dict_getitem bd scale) ;;
       bboxes <- load_boxes rb ;;
       cd <- load_dict cls_scales ;;
       rc <- lift (dict_getitem cd scale) ;;
       cls <- load_ints rc ;;
       sd <- load_dict scores_scales ;;
       rs <- lift (dict_getitem sd scale) ;;
       scores <- load_floats rs ;;
       match bboxes with
       | [] =>
           (* np.all(bboxes == None) holds of an array without elements *)
           collect_infer_objects bboxes_scales cls_scales scores_scales
             rest infer_objects
       | _ :: _ =>
           '(bboxes, cls) <- lift (above_conf bboxes cls scores) ;;
           infer_objects <-
             lift (assign_classes scale bboxes cls
                     (sorted Z.leb (np_unique cls)) infer_objects) ;;
           collect_infer_objects bboxes_scales cls_scales scores_scales
             rest infer_objects
       end)%store
  end.

(** *** Lines 236-238: the classes to visit *)

Fixpoint concat_cls (cls_scales : ref) (todo : list Z) : Py (list Z) :=
  match todo with
  | [] => ret []
  | scale :: rest =>
      (cd <- load_dict cls_scales ;;
       rc <- lift (dict_getitem cd scale) ;;
       cls <- load_ints rc ;;
       more <- concat_cls cls_scales rest ;;
       ret (cls ++ more))%store
  end.

(** *** Lines 264-302: ground truth against detections, one class *)

Fixpoint match_scales (gt_bbox_single : Box) (keys : list Z)
    (infer_bboxes_scales : dict (list Box)) (entry : list (list Box))
    (over_iou_found : bool)
    : outcome (dict (list Box) * list (list Box) * bool) :=
  match keys with
  | [] => Ok (infer_bboxes_scales, entry, over_iou_found)
  | scale :: rest =>
      boxes <- dict_getitem infer_bboxes_scales scale ;;
      match boxes with
      | [] => match_scales gt_bbox_single rest infer_bboxes_scales entry
                over_iou_found
      | _ :: _ =>
          let ious := map (fun infer_bbox_single =>
                             iou_np gt_bbox_single infer_bbox_single) boxes in
          maxiou_idx <- np_argmax (fun a b => Qgt_bool b a) ious ;;
          match nth_error ious maxiou_idx with
          | None => Raise IndexError
          | Some v =>
              if Qge_bool v (iou_thresh self) then
                boxes' <- np_delete boxes maxiou_idx ;;
                match_scales gt_bbox_single rest
                  (dict_set infer_bboxes_scales scale boxes')
                  (entry ++ [boxes]) true
              else
                match_scales gt_bbox_single rest infer_bboxes_scales entry
                  over_iou_found
          end
      end
  end.

Fixpoint match_gt (todo : list Box) (infer_bboxes_scales : dict (list Box))
    (match_table : list (list (list Box))) (gt_only_bbox_table : list Box)
    : outcome (dict (list Box) * list (list (list Box)) * list Box) :=
  match todo with
  | [] => Ok (infer_bboxes_scales, match_table, gt_only_bbox_table)
  | gt_bbox_single :: rest =>
      '(infer_bboxes_scales, entry, over_iou_found) <-
        match_scales gt_bbox_single
          (sorted Z.leb (dict_keys infer_bboxes_scales))
          infer_bboxes_scales [] false ;;
      gt_only_bbox_table <-
        (if over_iou_found then
           match find_index (fun gt_new_bbox_single =>
                               box_eqb gt_new_bbox_single gt_bbox_single)
                   gt_only_bbox_table with
           | None => Raise AssertionError
           | Some gt_newptr_idx => np_delete gt_only_bbox_table gt_newptr_idx
           end
         else Ok gt_only_bbox_table) ;;
      match_gt rest infer_bboxes_scales (match_table ++ [entry])
        gt_only_bbox_table
  end.

(** [infer_only_bbox_table.extend(infer_bboxes_scales[scale])] over the
    scales in ascending order. *)
Fixpoint extend_scales (keys : list Z) (infer_bboxes_scales : dict (list Box))
    (infer_only_bbox_table : list Box) : outcome (list Box) :=
  match keys with
  | [] => Ok infer_only_bbox_table
  | scale :: rest =>
      boxes <- dict_getitem infer_bboxes_scales scale ;;
      extend_scales rest infer_bboxes_scales (infer_only_bbox_table ++ boxes)
  end.

(** *** Lines 307-335: the leftover rematcher *)

(** The boxes flagged by [iou_table >= iou_thresh]. *)
Definition thresh_over (infer_only_bbox_table : list Box) (iou_table : list Q)
    : list Box :=
  map fst (filter (fun p => Qge_bool (snd p) (iou_thresh self))
             (combine infer_only_bbox_table iou_table)).

(** Each flagged box removes the first row equal to it. *)
Fixpoint remove_boxes (thresh_over_bboxes : list Box)
    (infer_only_bbox_table : list Box) : outcome (list Box) :=
  match thresh_over_bboxes with
  | [] => Ok infer_only_bbox_table
  | thresh_over_bbox :: rest =>
      match find_index (fun dstbbox => box_eqb dstbbox thresh_over_bbox)
              infer_only_bbox_table with
      | Some idx =>
          t <- np_delete infer_only_bbox_table idx ;;
          remove_boxes rest t
      | None => remove_boxes rest infer_only_bbox_table
      end
  end.

(** [np.all(iou_table[iou_argsort][::-1][:rematch_thresh] >= iou_thresh)]. *)
Definition top_all_over (iou_table : list Q) : bool :=
  forallb (fun v => Qge_bool v (iou_thresh self))
    (firstn (rematch_thresh self) (rev (sorted Qle_bool iou_table))).

Fixpoint rematch_loop (fuel : nat) (srcbbox_idx : nat)
    (infer_only_bbox_table infer_only_extras : list Box)
    : outcome (list Box * list Box) :=
  match fuel with
  | O => Diverge
  | S fuel' =>
      match nth_error infer_only_bbox_table srcbbox_idx with
      | None => Ok (infer_only_bbox_table, infer_only_extras)
      | Some srcbbox =>
          let iou_table :=
            map (fun dstbbox => iou_np srcbbox dstbbox)
              infer_only_bbox_table in
          if top_all_over iou_table then
            t <- remove_boxes (thresh_over infer_only_bbox_table iou_table)
                   infer_only_bbox_table ;;
            rematch_loop fuel' srcbbox_idx t (infer_only_extras ++ [srcbbox])
          else
            rematch_loop fuel' (S srcbbox_idx) infer_only_bbox_table
              infer_only_extras
      end
  end.

(** The loop runs its body at most once per box of the table it starts
    from, unless a round removes nothing; then it never ends. *)
Definition rematch (infer_only_bbox_table : list Box)
    : outcome (list Box * list Box) :=
  rematch_loop (S (length infer_only_bbox_table)) 0 infer_only_bbox_table [].

(** *** Lines 337-345: the matched entries of one class *)

Definition match_table_target (gt_bboxes : list Box)
    (match_table : list (list (list Box))) (infer_only_extras : list Box)
    : list (Box * nat) :=
  map (fun p => (fst p, length (snd p)))
    (filter (fun p => Nat.ltb 0 (length (snd p)))
       (combine gt_bboxes match_table))
  ++ map (fun item => (item, 1%nat)) infer_only_extras.

(** *** Lines 239-335: one class, up to the leftover rematcher.  The
    result is [gt_bboxes], [match_table], [gt_only_bbox_table],
    [infer_only_bbox_table] and [infer_only_extras]; [gt_bboxes] is read
    afterwards only at the entries of [match_table] that are not empty. *)
Definition class_parts : Type :=
  (list Box * list (list (list Box)) * list Box * list Box * list Box)%type.

Definition match_class_parts (class_id : Z) (gt_objects : dict (list Box))
    (infer_objects : infer_table) : outcome class_parts :=
  '(gt_bboxes, match_table, gt_only_bbox_table, infer_only_bbox_table) <-
    match dict_get infer_objects class_id with
    | None =>
        match dict_get gt_objects class_id with
        | Some gts => Ok (gts, map (fun _ => []) gts, gts, [])
        | None => Ok ([], [], [], [])
        end
    | Some infer_bboxes_scales =>
        match dict_get gt_objects class_id with
        | None =>
            t <- extend_scales (sorted Z.leb (dict_keys infer_bboxes_scales))
                   infer_bboxes_scales [] ;;
            Ok ([], [], [], t)
        | Some gt_bboxes =>
            '(infer_bboxes_scales, match_table, gt_only_bbox_table) <-
              match_gt gt_bboxes infer_bboxes_scales [] gt_bboxes ;;
            t <- extend_scales (sorted Z.leb (dict_keys infer_bboxes_scales))
                   infer_bboxes_scales [] ;;
            Ok (gt_bboxes, match_table, gt_only_bbox_table, t)
        end
    end ;;
  '(infer_only_bbox_table, infer_only_extras) <- rematch infer_only_bbox_table ;;
  Ok (gt_bboxes, match_table, gt_only_bbox_table, infer_only_bbox_table,
      infer_only_extras).

(** *** Lines 239-345: one class.  The result is [match_table_target],
    [gt_only_bbox_table] and [infer_only_bbox_table]. *)
Definition match_class (class_id : Z) (gt_objects : dict (list Box))
    (infer_objects : infer_table) : outcome class_tables :=
  '(gt_bboxes, match_table, gt_only_bbox_table, infer_only_bbox_table,
    infer_only_extras) <- match_class_parts class_id gt_objects infer_objects ;;
  Ok (match_table_target gt_bboxes match_table infer_only_extras,
      gt_only_bbox_table, infer_only_bbox_table).

(** *** Lines 236-351: all classes *)

Definition all_tables : Type :=
  (dict (list (Box * nat)) * dict (list Box) * dict (list Box))%type.

Fixpoint match_classes (classes : list Z) (gt_objects : dict (list Box))
    (infer_objects : infer_table) (acc : all_tables) : outcome all_tables :=
  match classes with
  | [] => Ok acc
  | class_id :: rest =>
      '(target, gt_only_bbox_table, infer_only_bbox_table) <-
        match_class class_id gt_objects infer_objects ;;
      let '(match_table_all, gt_only_bbox_table_all, infer_only_bbox_table_all) :=
        acc in
      match_classes rest gt_objects infer_objects
        (match target with
         | [] => match_table_all
         | _ :: _ => dict_set match_table_all class_id target
         end,
         match gt_only_bbox_table with
         | [] => gt_only_bbox_table_all
         | _ :: _ => dict_set gt_only_bbox_table_all class_id gt_only_bbox_table
         end,
         match infer_only_bbox_table with
         | [] => infer_only_bbox_table_all
         | _ :: _ =>
             dict_set infer_only_bbox_table_all class_id infer_only_bbox_table
         end)
  end.

(** *** Lines 357-370: flattening, classes ascending *)

Fixpoint flatten {V} (row : Z -> V -> FlatItem) (keys : list Z)
    (d : dict (list V)) : outcome (list FlatItem) :=
  match keys with
  | [] => Ok []
  | class_id :: rest =>
      l <- dict_getitem d class_id ;;
      more <- flatten row rest d ;;
      Ok (map (row class_id) l ++ more)
  end.

Definition flatten_matched (d : dict (list (Box * nat))) : outcome (list FlatItem) :=
  flatten (fun class_id p => mkItem (fst p) class_id (snd p))
    (sorted Z.leb (dict_keys d)) d.

Definition flatten_boxes (d : dict (list Box)) : outcome (list FlatItem) :=
  flatten (fun class_id b => mkItem b class_id 1)
    (sorted Z.leb (dict_keys d)) d.

(** *** Lines 372-432: the conflict resolver *)

(** Each scanned row removes the first row equal to it from
    [flatten_items]; every [np.delete] makes a new array. *)
Fixpoint delete_rows (flatten_items : ref) (iou_over_items : list FlatItem)
    : Py ref :=
  match iou_over_items with
  | [] => ret flatten_items
  | item :: rest =>
      (rows <- load_items flatten_items ;;
       match find_index (fun target_item => item_eqb item target_item) rows with
       | None => lift (Raise AssertionError)
       | Some idx =>
           rows' <- lift (np_delete rows idx) ;;
           r <- alloc (NdItems rows') ;;
           delete_rows r rest
       end)%store
  end.

(** [sanitize_bboxes]; [class_id], [bbox_origin] and [matched_item_idx]
    are the variables of the enclosing function that it reads. *)
Definition sanitize_bboxes (class_id : Z) (bbox_origin : Box)
    (matched_item_idx : nat)
    (flatten_matched_items flatten_items : ref)
    (iou_over_items : list FlatItem) : Py ref :=
  (let all_classes :=
     class_id ::
     flat_map (fun it => repeat (item_class it) (item_occ it)) iou_over_items in
   dorminant_class_id <- lift (dominant_class all_classes) ;;
   flatten_items <- delete_rows flatten_items iou_over_items ;;
   _ <- store_item flatten_matched_items matched_item_idx
          (mkItem bbox_origin dorminant_class_id 1) ;;
   ret flatten_items)%store.

(** The [for] loops over the rows of a flattened array unpack every row
    into [bbox_target], [class_id] and [class_occurances]: they assign
    the variable [class_id] of the enclosing function at every row. *)
Definition rebind_class_id (class_id : Z) (rows : list FlatItem) : Z :=
  fold_left (fun _ row => item_class row) rows class_id.

Definition inner_iou_table (bbox_origin : Box) (rows : list FlatItem)
    : list (nat * Q) :=
  flat_map (fun p =>
              if box_eqb bbox_origin (item_bbox (snd p)) then []
              else [(fst p, iou_np bbox_origin (item_bbox (snd p)))])
    (enumerate rows).

Definition outer_iou_table (bbox_origin : Box) (rows : list FlatItem)
    : list (nat * Q) :=
  map (fun p => (fst p, iou_np bbox_origin (item_bbox (snd p))))
    (enumerate rows).

(** [[rows[idx] for idx, iou in iou_table if iou > self.iou_thresh]]. *)
Definition select_over (rows : list FlatItem) (iou_table : list (nat * Q))
    : outcome (list FlatItem) :=
  take_rows rows
    (map fst (filter (fun p => Qgt_bool (snd p) (iou_thresh self)) iou_table)).

(** Lines 406-414, the inner match: the rows of [flatten_matched_items]
    with another box than [bbox_origin].  The result is the value that
    the loop leaves in [class_id] and the array that
    [flatten_matched_items] names afterwards. *)
Definition inner_match (class_id : Z) (bbox_origin : Box)
    (matched_item_idx : nat) (rows : list FlatItem)
    (flatten_matched_items : ref) : Py (Z * ref) :=
  (let iou_table := inner_iou_table bbox_origin rows in
   let class_id := rebind_class_id class_id rows in
   iou_over_items <- lift (select_over rows iou_table) ;;
   flatten_matched_items <-
     match iou_over_items with
     | [] => ret flatten_matched_items
     | _ :: _ =>
         sanitize_bboxes class_id bbox_origin matched_item_idx
           flatten_matched_items flatten_matched_items iou_over_items
     end ;;
   ret (class_id, flatten_matched_items))%store.

(** Lines 416-422 and 424-430, the two outer matches: the same steps
    against [flatten_gt_only_items], then [flatten_infer_only_items]. *)
Definition outer_match (class_id : Z) (bbox_origin : Box)
    (matched_item_idx : nat) (flatten_matched_items flatten_items : ref)
    : Py (Z * ref) :=
  (rows <- load_items flatten_items ;;
   let iou_table := outer_iou_table bbox_origin rows in
   let class_id := rebind_class_id class_id rows in
   iou_over_items <- lift (select_over rows iou_table) ;;
   flatten_items <-
     match iou_over_items with
     | [] => ret flatten_items
     | _ :: _ =>
         sanitize_bboxes class_id bbox_origin matched_item_idx
           flatten_matched_items flatten_items iou_over_items
     end ;;
   ret (class_id, flatten_items))%store.

(** One round of the [while] loop, at the row [current] under the
    cursor; [rows] is the array [flatten_matched_items] refers to. *)
Definition resolve_round (matched_item_idx : nat) (current : FlatItem)
    (rows : list FlatItem)
    (flatten_matched_items flatten_gt_only_items flatten_infer_only_items : ref)
    : Py (ref * ref * ref) :=
  (let bbox_origin := item_bbox current in
   let class_id := item_class current in
   '(class_id, flatten_matched_items) <-
     inner_match class_id bbox_origin matched_item_idx rows
       flatten_matched_items ;;
   '(class_id, flatten_gt_only_items) <-
     outer_match class_id bbox_origin matched_item_idx
       flatten_matched_items flatten_gt_only_items ;;
   '(class_id, flatten_infer_only_items) <-
     outer_match class_id bbox_origin matched_item_idx
       flatten_matched_items flatten_infer_only_items ;;
   ret (flatten_matched_items, flatten_gt_only_items,
        flatten_infer_only_items))%store.

Fixpoint resolve_loop (fuel : nat) (matched_item_idx : nat)
    (flatten_matched_items flatten_gt_only_items flatten_infer_only_items : ref)
    : Py (ref * ref * ref) :=
  match fuel with
  | O => lift Diverge
  | S fuel' =>
      (rows <- load_items flatten_matched_items ;;
       match nth_error rows matched_item_idx with
       | None =>
           ret (flatten_matched_items, flatten_gt_only_items,
                flatten_infer_only_items)
       | Some current =>
           '(fm, fg, fi) <-
             resolve_round matched_item_idx current rows
               flatten_matched_items flatten_gt_only_items
               flatten_infer_only_items ;;
           resolve_loop fuel' (S matched_item_idx) fm fg fi
       end)%store
  end.

(** The three flattened arrays are made, the loop runs on them, and the
    arrays it ends with are read back.  The cursor moves one row at every
    round and no row is ever added, so the loop is over within as many
    rounds as [flatten_matched_items] has rows at the start. *)
Definition conflict_resolver
    (matched gt_only infer_only : list FlatItem)
    : Py (list FlatItem * list FlatItem * list FlatItem) :=
  (flatten_matched_items <- alloc (NdItems matched) ;;
   flatten_gt_only_items <- alloc (NdItems gt_only) ;;
   flatten_infer_only_items <- alloc (NdItems infer_only) ;;
   '(fm, fg, fi) <-
     resolve_loop (S (length matched)) 0 flatten_matched_items
       flatten_gt_only_items flatten_infer_only_items ;;
   m <- load_items fm ;;
   g <- load_items fg ;;
   i <- load_items fi ;;
   ret (m, g, i))%store.

(** *** Lines 434-457: back to class-indexed tables *)

Definition regroup (rows : list FlatItem) : dict (list Box) :=
  fold_left (fun d row => dict_append d (item_class row) (item_bbox row))
    rows [].

(** *** Lines 236-370: phases 4.2 and 4.3 for every class, flattened *)

Definition flat_lists : Type :=
  (list FlatItem * list FlatItem * list FlatItem)%type.

Definition per_class_phases (o_cls : list Z) (o_bboxes : list Box)
    (infer_objects : infer_table) (all_cls : list Z) : outcome all_tables :=
  gt_objects <-
    gt_by_class o_cls o_bboxes (sorted Z.leb (np_unique o_cls)) [] ;;
  match_classes (sorted Z.leb (np_unique (all_cls ++ o_cls)))
    gt_objects infer_objects ([], [], []).

Definition flatten_tables (t : all_tables) : outcome flat_lists :=
  let '(match_table_all, gt_only_bbox_table_all, infer_only_bbox_table_all) :=
    t in
  m <- flatten_matched match_table_all ;;
  g <- flatten_boxes gt_only_bbox_table_all ;;
  i <- flatten_boxes infer_only_bbox_table_all ;;
  Ok (m, g, i).

(** *** [multiscale_match] *)

(** Lines 199-238: what the matcher reads.  The result is [o_cls],
    [o_bboxes], [infer_objects] and the class ids of all scales. *)
Definition read_inputs (image_name : Z)
    (bboxes_scales cls_scales scores_scales : ref)
    : Py (list Z * list Box * infer_table * list Z) :=
  ('(o_cls, o_bboxes) <- load_gt image_name ;;
   infer_objects <-
     collect_infer_objects bboxes_scales cls_scales scores_scales
       (scales self) [] ;;
   all_cls <- concat_cls cls_scales (scales self) ;;
   ret (o_cls, o_bboxes, infer_objects, all_cls))%store.

Definition multiscale_match (image_name : Z)
    (bboxes_scales cls_scales scores_scales : ref) : Py tables :=
  ('(o_cls, o_bboxes, infer_objects, all_cls) <-
     read_inputs image_name bboxes_scales cls_scales scores_scales ;;
   t <- lift (per_class_phases o_cls o_bboxes infer_objects all_cls) ;;
   '(m, g, i) <- lift (flatten_tables t) ;;
   '(m, g, i) <- conflict_resolver m g i ;;
   ret (regroup m, regroup g, regroup i))%store.

End Matcher.

(** ** [generate_dataset], lines 154-169: one reconciliation per image *)

Section Driver.

Variable self : MultiscaleGenerator.

(** The method bound to [self.multiscale_match]. *)
Variable matcher : Z -> ref -> ref -> ref -> Py tables.

(** [{scale: per_scale[scale][image_id] for scale in self.scales
      if image_id in per_scale[scale]}]. *)
Fixpoint scales_of_image (per_scale : dict (dict ref)) (image_id : Z)
    (todo : list Z) (acc : dict ref) : outcome (dict ref) :=
  match todo with
  | [] => Ok acc
  | scale :: rest =>
      per_image <- dict_getitem per_scale scale ;;
      match dict_get per_image image_id with
      | Some r => scales_of_image per_scale image_id rest (dict_set acc scale r)
      | None => scales_of_image per_scale image_id rest acc
      end
  end.

(** [for batch_idx in range(len(boxes_allscale))]. *)
Fixpoint match_repeatedly (n : nat) (image_id : Z)
    (boxes_allscale clses_allscale scores_allscale : ref)
    (results : list (Z * dict (list Box)))
    : Py (list (Z * dict (list Box))) :=
  match n with
  | O => ret results
  | S n' =>
      ('(matched_objects, _, _) <-
         matcher image_id boxes_allscale clses_allscale scores_allscale ;;
       match_repeatedly n' image_id boxes_allscale clses_allscale
         scores_allscale (results ++ [(image_id, matched_objects)]))%store
  end.

Fixpoint match_images (boxes_scales clses_scales scores_scales : dict (dict ref))
    (todo : list Z) (results : list (Z * dict (list Box)))
    : Py (list (Z * dict (list Box))) :=
  match todo with
  | [] => ret results
  | image_id :: rest =>
      (b <- lift (scales_of_image boxes_scales image_id (scales self) []) ;;
       c <- lift (scales_of_image clses_scales image_id (scales self) []) ;;
       s <- lift (scales_of_image scores_scales image_id (scales self) []) ;;
       boxes_allscale <- alloc (PyDict b) ;;
       clses_allscale <- alloc (PyDict c) ;;
       scores_allscale <- alloc (PyDict s) ;;
       results <-
         match_repeatedly (length b) image_id boxes_allscale clses_allscale
           scores_allscale results ;;
       match_images boxes_scales clses_scales scores_scales rest results)%store
  end.

(** The list [results] that the annotations are written from. *)
Definition generate_dataset_with
    (boxes_scales clses_scales scores_scales : dict (dict ref))
    (image_names : list Z) : Py (list (Z * dict (list Box))) :=
  match_images boxes_scales clses_scales scores_scales
    (sorted Z.leb image_names) [].

End Driver.

Definition generate_dataset (iou_np : Box -> Box -> Q)
    (xywh2xyminmax : Q * Q * Q * Q -> Box) (cocoid2classid : Z -> Z)
    (self : MultiscaleGenerator) :=
  generate_dataset_with self
    (multiscale_match iou_np xywh2xyminmax cocoid2classid self).

(** ** The conflict resolver on the contents of the arrays

    What [resolve_loop] does to the rows of the three arrays, without the
    store.  The row that [sanitize_bboxes] writes after an inner match
    goes to the array that [np.delete] has just copied from, which nothing
    reads again; the rows written after an outer match go to the array
    the cursor runs over. *)

Section ResolverValues.

Variable iou_np : Box -> Box -> Q.
Variable self : MultiscaleGenerator.

(** A row overlaps [bbox_origin] beyond the threshold. *)
Definition over_thresh (bbox_origin : Box) (row : FlatItem) : bool :=
  Qgt_bool (iou_np bbox_origin (item_bbox row)) (iou_thresh self).

(** The rows that the inner match collects: another box, beyond the
    threshold. *)
Definition inner_over (bbox_origin : Box) (row : FlatItem) : bool :=
  negb (box_eqb bbox_origin (item_bbox row)) && over_thresh bbox_origin row.

(** The rows before the cursor are settled: nothing left in the three
    arrays overlaps them beyond the threshold, rows with the very same
    box apart. *)
Definition settled (done rest gt_only infer_only : list FlatItem) : Prop :=
  Forall (fun d =>
            Forall (fun x => inner_over (item_bbox d) x = false) (done ++ rest)
            /\ Forall (fun x => over_thresh (item_bbox d) x = false)
                 (gt_only ++ infer_only)) done.

Fixpoint remove_rows (iou_over_items rows : list FlatItem)
    : outcome (list FlatItem) :=
  match iou_over_items with
  | [] => Ok rows
  | item :: rest =>
      match find_index (fun target_item => item_eqb item target_item) rows with
      | None => Raise AssertionError
      | Some idx =>
          rows' <- np_delete rows idx ;;
          remove_rows rest rows'
      end
  end.

(** The row to write and the rows left in the scanned array. *)
Definition sanitize_values (class_id : Z) (bbox_origin : Box)
    (iou_over_items rows : list FlatItem)
    : outcome (FlatItem * list FlatItem) :=
  dorminant_class_id <-
    dominant_class
      (class_id ::
       flat_map (fun it => repeat (item_class it) (item_occ it))
         iou_over_items) ;;
  rows' <- remove_rows iou_over_items rows ;;
  Ok (mkItem bbox_origin dorminant_class_id 1, rows').

(** An outer match of the row under the cursor against [others]. *)
Definition outer_values (class_id : Z) (bbox_origin : Box)
    (matched_item_idx : nat) (matched others : list FlatItem)
    : outcome (list FlatItem * list FlatItem) :=
  iou_over_items <-
    select_over self others (outer_iou_table iou_np bbox_origin others) ;;
  match iou_over_items with
  | [] => Ok (matched, others)
  | _ :: _ =>
      '(row, others') <-
        sanitize_values class_id bbox_origin iou_over_items others ;;
      matched' <- setitem matched matched_item_idx row ;;
      Ok (matched', others')
  end.

(** An inner match; the row written is lost with the array it is
    written to. *)
Definition inner_values (class_id : Z) (bbox_origin : Box)
    (matched_item_idx : nat) (matched : list FlatItem)
    : outcome (list FlatItem) :=
  iou_over_items <-
    select_over self matched (inner_iou_table iou_np bbox_origin matched) ;;
  match iou_over_items with
  | [] => Ok matched
  | _ :: _ =>
      '(row, matched') <-
        sanitize_values class_id bbox_origin iou_over_items matched ;;
      _ <- setitem matched matched_item_idx row ;;
      Ok matched'
  end.

Definition round_values (matched_item_idx : nat) (current : FlatItem)
    (matched gt_only infer_only : list FlatItem) : outcome flat_lists :=
  let bbox_origin := item_bbox current in
  let class_id := rebind_class_id (item_class current) matched in
  matched1 <- inner_values class_id bbox_origin matched_item_idx matched ;;
  let class_id := rebind_class_id class_id gt_only in
  '(matched2, gt_only') <-
    outer_values class_id bbox_origin matched_item_idx matched1 gt_only ;;
  let class_id := rebind_class_id class_id infer_only in
  '(matched3, infer_only') <-
    outer_values class_id bbox_origin matched_item_idx matched2 infer_only ;;
  Ok (matched3, gt_only', infer_only').

Fixpoint resolve_values (fuel : nat) (matched_item_idx : nat)
    (matched gt_only infer_only : list FlatItem) : outcome flat_lists :=
  match fuel with
  | O => Diverge
  | S fuel' =>
      match nth_error matched matched_item_idx with
      | None => Ok (matched, gt_only, infer_only)
      | Some current =>
          '(m, g, i) <-
            round_values matched_item_idx current matched gt_only infer_only ;;
          resolve_values fuel' (S matched_item_idx) m g i
      end
  end.

Definition resolver_values (matched gt_only infer_only : list FlatItem)
    : outcome flat_lists :=
  resolve_values (S (length matched)) 0 matched gt_only infer_only.

End ResolverValues.

(** ** The matcher on what it has read *)

Definition reconcile (iou_np : Box -> Box -> Q) (self : MultiscaleGenerator)
    (inputs : list Z * list Box * infer_table * list Z) : outcome tables :=
  let '(o_cls, o_bboxes, infer_objects, all_cls) := inputs in
  t <- per_class_phases iou_np self o_cls o_bboxes infer_objects all_cls ;;
  '(m, g, i) <- flatten_tables t ;;
  '(m, g, i) <- resolver_values iou_np self m g i ;;
  Ok (regroup m, regroup g, regroup i).

(** ** Reading the store *)

(** The three arrays of the resolver and what they hold. *)
Definition arrays_at (h : heap) (fm fg fi : ref)
    (matched gt_only infer_only : list FlatItem) : Prop :=
  nth_error h fm = Some (NdItems matched) /\
  nth_error h fg = Some (NdItems gt_only) /\
  nth_error h fi = Some (NdItems infer_only) /\
  fm <> fg /\ fm <> fi /\ fg <> fi.

(** [h'] has every object of [h] below [base] as it is in [h]. *)
Definition preserves (base : nat) (h h' : heap) : Prop :=
  forall r, (r < base)%nat -> nth_error h' r = nth_error h r.


(** The value of a computation, without the store it leaves. *)
Definition value_of {A} (m : outcome (A * heap)) : outcome A :=
  match m with
  | Ok (a, _) => Ok a
  | Raise e => Raise e
  | Diverge => Diverge
  end.

(** ** Counting boxes *)

(** [l'] is [l] with some of its elements deleted. *)
Inductive sublist {A : Type} : list A -> list A -> Prop :=
| sublist_nil : sublist [] []
| sublist_skip (x : A) (l' l : list A) : sublist l' l -> sublist l' (x :: l)
| sublist_keep (x : A) (l' l : list A) : sublist l' l -> sublist (x :: l') (x :: l).

(** The number of rows of [l] that are equal to [b]. *)
Definition count_box (b : Box) (l : list Box) : nat :=
  length (filter (fun x => box_eqb x b) l).

(** The boxes of a [scale -> boxes] dictionary, scales ascending. *)
Definition pool_of (d : dict (list Box)) : list Box :=
  flat_map (fun k => match dict_get d k with Some l => l | None => [] end)
    (sorted Z.leb (dict_keys d)).

(** The detections of a class that [infer_objects] holds, and the ground
    truth boxes of a class that [gt_objects] holds. *)
Definition detections_of (infer_objects : infer_table) (class_id : Z) : list Box :=
  match dict_get infer_objects class_id with
  | Some d => pool_of d
  | None => []
  end.

Definition gt_boxes_of (gt_objects : dict (list Box)) (class_id : Z) : list Box :=
  match dict_get gt_objects class_id with
  | Some l => l
  | None => []
  end.

(** The entries of [match_table] that some scale has matched. *)
Definition count_matched (match_table : list (list (list Box))) : nat :=
  length (filter (fun e => Nat.ltb 0 (length e)) match_table).

(** [d'] has the keys of [d], and under each key some of the boxes that
    [d] has there. *)
Definition dict_sub (d' d : dict (list Box)) : Prop :=
  dict_keys d' = dict_keys d /\
  forall k,
    match dict_get d' k, dict_get d k with
    | Some l', Some l => sublist l' l
    | None, None => True
    | _, _ => False
    end.

(** The objects that a call of [multiscale_match] can read in the store
    [h]: the annotation map, the three dictionaries and the arrays that
    these name. *)
Definition inputs_of (self : MultiscaleGenerator)
    (bboxes_scales cls_scales scores_scales : ref) (h : heap) (r : ref) : Prop :=
  r = annotation_map self \/ r = bboxes_scales \/ r = cls_scales
  \/ r = scores_scales
  \/ exists d scale,
       (nth_error h bboxes_scales = Some (PyDict d)
        \/ nth_error h cls_scales = Some (PyDict d)
        \/ nth_error h scores_scales = Some (PyDict d))
       /\ dict_get d scale = Some r.

(** [m] only reads, and reads the same in [h1] and [h2]. *)
Definition same_read {A} (m : Py A) (h1 h2 : heap) : Prop :=
  match m h1 with
  | Ok (a, h) => h = h1 /\ m h2 = Ok (a, h2)
  | Raise e => m h2 = Raise e
  | Diverge => m h2 = Diverge
  end.

(** ** Predicates of the statements, and example inputs *)

(** No two rows at different positions overlap beyond [thresh]. *)
Definition pairwise_disjoint (iou_np : Box -> Box -> Q) (thresh : Q)
    (rows : list FlatItem) : Prop :=
  forall i j a b,
    i <> j -> nth_error rows i = Some a -> nth_error rows j = Some b ->
    iou_np (item_bbox a) (item_bbox b) <= thresh.

(** Scales 320 and 640, all thresholds at one half, three boxes to
    promote a cluster; the annotation map is the first object of the
    store. *)
Definition example_generator : MultiscaleGenerator :=
  mkGenerator [320%Z; 640%Z] (1 # 2) (1 # 2) 3 0%nat.

Definition three_scale_generator : MultiscaleGenerator :=
  mkGenerator [320%Z; 480%Z; 640%Z] (1 # 2) (1 # 2) 3 0%nat.

(** Scenario C: no annotation; scales 320 and 640 each report the box
    [5, 5, 15, 15] as class 2 with score 0.9.  The three dictionaries are
    the objects 7, 8 and 9. *)
Definition store_C : heap :=
  [ PyAnnotations [];
    NdBoxes [mkBox 5 5 15 15]; NdInts [2%Z]; NdFloats [9 # 10];
    NdBoxes [mkBox 5 5 15 15]; NdInts [2%Z]; NdFloats [9 # 10];
    PyDict [(320%Z, 1%nat); (640%Z, 4%nat)];
    PyDict [(320%Z, 2%nat); (640%Z, 5%nat)];
    PyDict [(320%Z, 3%nat); (640%Z, 6%nat)] ].

(** Scenario B: as Scenario C, with a third scale that reports the same
    box.  The three dictionaries are the objects 10, 11 and 12. *)
Definition store_B : heap :=
  [ PyAnnotations [];
    NdBoxes [mkBox 5 5 15 15]; NdInts [2%Z]; NdFloats [9 # 10];
    NdBoxes [mkBox 5 5 15 15]; NdInts [2%Z]; NdFloats [9 # 10];
    NdBoxes [mkBox 5 5 15 15]; NdInts [2%Z]; NdFloats [9 # 10];
    PyDict [(320%Z, 1%nat); (480%Z, 4%nat); (640%Z, 7%nat)];
    PyDict [(320%Z, 2%nat); (480%Z, 5%nat); (640%Z, 8%nat)];
    PyDict [(320%Z, 3%nat); (480%Z, 6%nat); (640%Z, 9%nat)] ].

(** One image, one scale, one detection [0, 0, 10, 10] of class 1 with
    the given score, no annotation.  The three dictionaries are the
    objects 4, 5 and 6. *)
Definition store_one_detection (score : Q) : heap :=
  [ PyAnnotations [];
    NdBoxes [mkBox 0 0 10 10]; NdInts [1%Z]; NdFloats [score];
    PyDict [(320%Z, 1%nat)];
    PyDict [(320%Z, 2%nat)];
    PyDict [(320%Z, 3%nat)] ].

Definition one_scale_generator : MultiscaleGenerator :=
  mkGenerator [320%Z] (1 # 2) (1 # 2) 3 0%nat.

(** One class with two ground-truth boxes and detections at two scales. *)
Definition example_gt_objects : dict (list Box) :=
  [(1%Z, [mkBox 0 0 10 10; mkBox 20 20 30 30])].

Definition example_infer_objects : infer_table :=
  [(1%Z, [(320%Z, [mkBox 0 0 10 10; mkBox 50 50 60 60]);
          (640%Z, [mkBox 0 0 9 9; mkBox 50 50 60 60])])].

(** One ground-truth box [1, 1, 9, 9] of category 2 and three scales
    that each report [0, 0, 10, 10] as class 1: the detections are
    promoted and the resolver then merges the ground-truth box into the
    promoted row, writing that row in place.  The three dictionaries are
    the objects 10, 11 and 12. *)
Definition store_D : heap :=
  [ PyAnnotations [(7%Z, [mkAnnotation 2 (1, 1, 8, 8)])];
    NdBoxes [mkBox 0 0 10 10]; NdInts [1%Z]; NdFloats [9 # 10];
    NdBoxes [mkBox 0 0 10 10]; NdInts [1%Z]; NdFloats [9 # 10];
    NdBoxes [mkBox 0 0 10 10]; NdInts [1%Z]; NdFloats [9 # 10];
    PyDict [(320%Z, 1%nat); (480%Z, 4%nat); (640%Z, 7%nat)];
    PyDict [(320%Z, 2%nat); (480%Z, 5%nat); (640%Z, 8%nat)];
    PyDict [(320%Z, 3%nat); (480%Z, 6%nat); (640%Z, 9%nat)] ].

(** The rows of three arrays of one scale, side by side, whose score is
    above [conf_thresh]. *)
Definition kept_rows (self : MultiscaleGenerator)
    (bboxes : list Box) (cls : list Z) (scores : list Q)
    : list (Box * Z * Q) :=
  filter (fun d => Qgt_bool (snd d) (conf_thresh self))
    (combine (combine bboxes cls) scores).

(** Scenario D: the ground-truth box [0, 0, 10, 10] of category 1, found
    at three scales, and the ground-truth box [1, 1, 9, 9] of category 2
    without detection.  The three dictionaries are the objects 10, 11
    and 12. *)
Definition store_scenario_D : heap :=
  [ PyAnnotations
      [(7%Z, [mkAnnotation 1 (0, 0, 10, 10); mkAnnotation 2 (1, 1, 8, 8)])];
    NdBoxes [mkBox 0 0 10 10]; NdInts [1%Z]; NdFloats [9 # 10];
    NdBoxes [mkBox 0 0 10 10]; NdInts [1%Z]; NdFloats [9 # 10];
    NdBoxes [mkBox 0 0 10 10]; NdInts [1%Z]; NdFloats [9 # 10];
    PyDict [(320%Z, 1%nat); (480%Z, 4%nat); (640%Z, 7%nat)];
    PyDict [(320%Z, 2%nat); (480%Z, 5%nat); (640%Z, 8%nat)];
    PyDict [(320%Z, 3%nat); (480%Z, 6%nat); (640%Z, 9%nat)] ].

(** Two overlapping ground-truth boxes of category 1 and no detection at
    either scale.  The three dictionaries are the objects 4, 5 and 6. *)
Definition store_two_gt : heap :=
  [ PyAnnotations
      [(7%Z, [mkAnnotation 1 (0, 0, 10, 10); mkAnnotation 1 (1, 1, 8, 8)])];
    NdBoxes []; NdInts []; NdFloats [];
    PyDict [(320%Z, 1%nat); (640%Z, 1%nat)];
    PyDict [(320%Z, 2%nat); (640%Z, 2%nat)];
    PyDict [(320%Z, 3%nat); (640%Z, 3%nat)] ].

(** ** Tables, and what the statements say of them *)

(** A table as lines 346-351 build it: one entry per class, none empty. *)
Definition proper_table {V} (d : dict (list V)) : Prop :=
  NoDup (dict_keys d) /\ Forall (fun kv => snd kv <> []) d.

(** The values in order of first appearance. *)
Fixpoint first_seen (l : list Z) : list Z :=
  match l with
  | [] => []
  | x :: t => x :: filter (fun y => negb (Z.eqb y x)) (first_seen t)
  end.

(** The arrays of one scale, as the three dictionaries name them in the
    store [h]. *)
Definition scale_in_store (h : heap)
    (bboxes_scales cls_scales scores_scales : ref) (scale : Z)
    (bboxes : list Box) (cls : list Z) (scores : list Q) : Prop :=
  exists bd cd sd rb rc rs,
    nth_error h bboxes_scales = Some (PyDict bd)
    /\ nth_error h cls_scales = Some (PyDict cd)
    /\ nth_error h scores_scales = Some (PyDict sd)
    /\ dict_get bd scale = Some rb
    /\ dict_get cd scale = Some rc
    /\ dict_get sd scale = Some rs
    /\ nth_error h rb = Some (NdBoxes bboxes)
    /\ nth_error h rc = Some (NdInts cls)
    /\ nth_error h rs = Some (NdFloats scores).

(** The boxes of [o_bboxes] whose class in [o_cls] is [class_id]. *)
Definition boxes_of_class (class_id : Z) (o_cls : list Z) (o_bboxes : list Box)
    : list Box :=
  map snd (filter (fun p => Z.eqb (fst p) class_id) (combine o_cls o_bboxes)).

(** Lines 348-349 for a class without detections: its ground truth
    goes to the [gt_only] table, unless there is none. *)
Definition keep_nonempty (gt_objects : dict (list Box))
    (acc : dict (list Box)) (class_id : Z) : dict (list Box) :=
  match gt_boxes_of gt_objects class_id with
  | [] => acc
  | _ :: _ => dict_set acc class_id (gt_boxes_of gt_objects class_id)
  end.

(** The boxes of [rows'] are boxes of [rows], and [rows'] is no longer. *)
Definition boxes_within (rows' rows : list FlatItem) : Prop :=
  (length rows' <= length rows)%nat
  /\ forall r, In r rows' -> exists r0, In r0 rows /\ item_bbox r = item_bbox r0.

(** Annotations of image 7 in three boxes and two classes, and one scale
    whose only detection has a score below [conf_thresh].  The three
    dictionaries are the objects 4, 5 and 6. *)
Definition store_low_score : heap :=
  [ PyAnnotations
      [(7%Z, [mkAnnotation 1 (0, 0, 10, 10); mkAnnotation 2 (1, 1, 8, 8);
              mkAnnotation 1 (20, 20, 5, 5)])];
    NdBoxes [mkBox 0 0 10 10]; NdInts [3%Z]; NdFloats [3 # 10];
    PyDict [(320%Z, 1%nat)];
    PyDict [(320%Z, 2%nat)];
    PyDict [(320%Z, 3%nat)] ].

(** As [example_generator], with one box enough for a promotion. *)
Definition one_box_generator : MultiscaleGenerator :=
  mkGenerator [320%Z; 640%Z] (1 # 2) (1 # 2) 1 0%nat.

(** [len(boxes_allscale)]: the scales of [self.scales] at which the image
    has boxes. *)
Definition scale_count (self : MultiscaleGenerator)
    (boxes_scales : dict (dict ref)) (image_id : Z) : nat :=
  match scales_of_image boxes_scales image_id (scales self) [] with
  | Ok b => length b
  | Raise _ | Diverge => 0%nat
  end.

(** ** [generate_dataset], lines 171-196: the dataset that is returned *)

(** [int(x)] on a float: the integer part, rounding towards zero. *)
Definition py_int (x : Q) : Z := Z.quot (Qnum x) (Zpos (Qden x)).

(** An entry of [self.annotations['images']]: its [id] and what else it
    holds. *)
Record ImageItem (Info : Type) : Type :=
  mkImageItem { item_id : Z; item_info : Info }.

Arguments item_id {Info} _.
Arguments item_info {Info} _.

(** [self.annotations], as far as it is read. *)
Record AnnotationFile (Info Cat : Type) : Type :=
  mkAnnotationFile { file_images : list (ImageItem Info); file_categories : Cat }.

Arguments file_images {Info Cat} _.
Arguments file_categories {Info Cat} _.

Module Coco.

(** An entry of ["annotations"], lines 180-189; [det_confidence] is a
    key of the entries that [naiive.py] and [SimpleMultiscaleGenerator]
    write, and is missing here. *)
Record annotation : Type := mk {
  area : Z;
  iscrowd : Z;
  bbox : Z * Z * Z * Z;
  category_id : Z;
  det_confidence : option Q;
  ignore : Z;
  segmentation : list Z;
  image_id : Z;
  id : Z
}.

Inductive dataset_type : Type := instances.

(** The dictionary that [generate_dataset] returns, lines 191-196. *)
Record dataset (Info Cat : Type) : Type := mkDataset {
  images : list (ImageItem Info);
  type : dataset_type;
  annotations : list annotation;
  categories : Cat
}.

Arguments images {Info Cat} _.
Arguments type {Info Cat} _.
Arguments annotations {Info Cat} _.
Arguments categories {Info Cat} _.

End Coco.

Section Organize.

(** [classid2cocoid] of [generator/util.py] is a parameter. *)
Variable classid2cocoid : Z -> Z.
Variables Info Cat : Type.

(** Lines 178-179: the four coordinates as integers, then
    [[x, y, w, h]] from the two corners. *)
Definition xyminmax2xywh (bbox : Box) : Z * Z * Z * Z :=
  let b0 := py_int (xmin bbox) in
  let b1 := py_int (ymin bbox) in
  let b2 := py_int (xmax bbox) in
  let b3 := py_int (ymax bbox) in
  (b0, b1, b2 - b0, b3 - b1)%Z.

(** Lines 180-189, with [n = len(result_annotations)]. *)
Definition annotation_of (image_id class_id : Z) (bbox : Box) (n : nat)
    : Coco.annotation :=
  let '(x, y, w, h) := xyminmax2xywh bbox in
  Coco.mk (w * h) 0 (x, y, w, h) (classid2cocoid class_id) None 0 []
    image_id (Z.of_nat n + 1).

(** Lines 177-189: the boxes of one class. *)
Definition organize_boxes (image_id class_id : Z) (class_bboxes : list Box)
    (result_annotations : list Coco.annotation) : list Coco.annotation :=
  fold_left (fun acc bbox =>
               acc ++ [annotation_of image_id class_id bbox (length acc)])
    class_bboxes result_annotations.

(** Lines 175-189: [for class_id in bboxes.keys()]. *)
Fixpoint organize_classes (image_id : Z) (bboxes : dict (list Box))
    (keys : list Z) (result_annotations : list Coco.annotation)
    : outcome (list Coco.annotation) :=
  match keys with
  | [] => Ok result_annotations
  | class_id :: rest =>
      class_bboxes <- dict_getitem bboxes class_id ;;
      organize_classes image_id bboxes rest
        (organize_boxes image_id class_id class_bboxes result_annotations)
  end.

(** Lines 173-189: [for image_id, bboxes in results]. *)
Fixpoint organize_results (results : list (Z * dict (list Box)))
    (result_annotations : list Coco.annotation)
    : outcome (list Coco.annotation) :=
  match results with
  | [] => Ok result_annotations
  | (image_id, bboxes) :: rest =>
      result_annotations <-
        organize_classes image_id bboxes (dict_keys bboxes)
          result_annotations ;;
      organize_results rest result_annotations
  end.

(** Line 172: [{ item['id']: item for item in self.annotations['images'] }]. *)
Definition images_map (images : list (ImageItem Info))
    : dict (ImageItem Info) :=
  fold_left (fun d item => dict_set d (item_id item) item) images [].

(** Line 192: [[ images_map[image_id] for image_id ... ]]. *)
Fixpoint result_images (m : dict (ImageItem Info)) (image_ids : list Z)
    : outcome (list (ImageItem Info)) :=
  match image_ids with
  | [] => Ok []
  | image_id :: rest =>
      item <- dict_getitem m image_id ;;
      more <- result_images m rest ;;
      Ok (item :: more)
  end.

(** Lines 171-196. *)
Definition organize (annotations : AnnotationFile Info Cat)
    (results : list (Z * dict (list Box)))
    : outcome (Coco.dataset Info Cat) :=
  let images_map := images_map (file_images annotations) in
  result_annotations <- organize_results results [] ;;
  images <- result_images images_map (map fst results) ;;
  Ok (Coco.mkDataset images Coco.instances result_annotations
        (file_categories annotations)).

End Organize.

(** The ids of the entries written so far are 1, 2, ... *)
Definition numbered (acc : list Coco.annotation) : Prop :=
  map Coco.id acc = map (fun n => (Z.of_nat n + 1)%Z) (seq 0 (length acc)).

(** The boxes of a table, class by class in the order of its keys. *)
Definition table_boxes (d : dict (list Box)) : list Box :=
  flat_map (fun k => match dict_get d k with Some l => l | None => [] end)
    (dict_keys d).

(** [generate_dataset] from line 154 on: the matching of every image,
    then the dataset. *)
Definition generate_dataset_output (iou_np : Box -> Box -> Q)
    (xywh2xyminmax : Q * Q * Q * Q -> Box) (cocoid2classid classid2cocoid : Z -> Z)
    (Info Cat : Type) (self : MultiscaleGenerator)
    (annotations : AnnotationFile Info Cat)
    (boxes_scales clses_scales scores_scales : dict (dict ref))
    (image_names : list Z) : Py (Coco.dataset Info Cat) :=
  (results <-
     generate_dataset iou_np xywh2xyminmax cocoid2classid self boxes_scales
       clses_scales scores_scales image_names ;;
   lift (organize classid2cocoid annotations results))%store.

(** One image, id 7, with the arrays of [store_C] at the scales 320 and
    640; and an annotation file that lists the image. *)
Definition boxes_of_store_C : dict (dict ref) :=
  [(320%Z, [(7%Z, 1%nat)]); (640%Z, [(7%Z, 4%nat)])].
Definition clses_of_store_C : dict (dict ref) :=
  [(320%Z, [(7%Z, 2%nat)]); (640%Z, [(7%Z, 5%nat)])].
Definition scores_of_store_C : dict (dict ref) :=
  [(320%Z, [(7%Z, 3%nat)]); (640%Z, [(7%Z, 6%nat)])].

Definition example_file : AnnotationFile nat nat :=
  mkAnnotationFile [mkImageItem 7 640%nat; mkImageItem 8 480%nat] 80%nat.

(** Two entries of results, of the images 7 and 8. *)
Definition example_results : list (Z * dict (list Box)) :=
  [(7%Z, [(1%Z, [mkBox 0 0 10 10; mkBox (5 # 2) (7 # 2) (21 # 2) 20]);
          (3%Z, [mkBox 1 1 9 9])]);
   (8%Z, [(1%Z, [mkBox 2 2 4 4])])].

(** Under every class of the table, only values that [P] accepts for the
    class. *)
Definition table_of {V} (P : Z -> V -> Prop) (d : dict (list V)) : Prop :=
  forall c l v, dict_get d c = Some l -> In v l -> P c v.

(** [infer_objects[class_id][scale]], when both keys are there. *)
Definition infer_lookup (infer_objects : infer_table) (class_id scale : Z)
    : option (list Box) :=
  match dict_get infer_objects class_id with
  | Some per_scale => dict_get per_scale scale
  | None => None
  end.

(** The boxes of class [class_id] among rows [(box, class, score)]. *)
Definition class_rows (class_id : Z) (rows : list (Box * Z * Q)) : list Box :=
  map (fun d => fst (fst d))
    (filter (fun d => Z.eqb (snd (fst d)) class_id) rows).

(** The arrays of a scale are there, and have one class and one score
    for every box. *)
Definition scale_well_formed (h : heap)
    (bboxes_scales cls_scales scores_scales : ref) (scale : Z) : Prop :=
  exists bboxes cls scores,
    scale_in_store h bboxes_scales cls_scales scores_scales scale
      bboxes cls scores
    /\ length bboxes = length scores /\ length cls = length scores.

(** ** [NaiiveGenerator.generate_dataset], [naiive.py] lines 50-126 *)

(** A row of an output of [postprocess]: the two corners, the
    confidences of the object and of the class, and the class. *)
Record OutputRow : Type := mkOutputRow {
  out_x1 : Q; out_y1 : Q; out_x2 : Q; out_y2 : Q;
  out_obj_conf : Q; out_class_conf : Q; out_class_pred : Q
}.

(** What one round of the [while] loop works on.  [img_info] holds the
    heights and the widths of the images, which are positive, [img_id]
    their ids; [batched_outputs] stands for
    [postprocess(self.model(img), ...)], with [None] for an image without
    detection.  [yolox] and the model are not part of the sources. *)
Record Batch : Type := mkBatch {
  img_info_0 : list positive;
  img_info_1 : list positive;
  img_id : list Z;
  batched_outputs : list (option (list OutputRow))
}.

(** Lines 84-85: [min(test_size[0] / img_info[0][batch_idx],
    test_size[1] / img_info[1][batch_idx])], sizes positive. *)
Definition resize_ratio (test_size : positive * positive)
    (height width : positive) : Q :=
  Qmin (Zpos (fst test_size) # height) (Zpos (snd test_size) # width).

(** Lines 87-91: the boxes divided by [ratio], the classes as integers
    and the scores. *)
Definition unpack_output (ratio : Q) (output : list OutputRow)
    : list Box * list Z * list Q :=
  (map (fun row => mkBox (out_x1 row / ratio) (out_y1 row / ratio)
                     (out_x2 row / ratio) (out_y2 row / ratio)) output,
   map (fun row => py_int (out_class_pred row)) output,
   map (fun row => out_obj_conf row * out_class_conf row) output).

(** [result_bboxes], [result_cls], [result_scores] and
    [result_image_names]. *)
Definition detection_lists : Type :=
  (list (list Box) * list (list Z) * list (list Q) * list Z)%type.

(** Lines 80-96, from the output at position [batch_idx] on. *)
Fixpoint collect_outputs (test_size : positive * positive) (batch : Batch)
    (batch_idx : nat) (outputs : list (option (list OutputRow)))
    (acc : detection_lists) : outcome detection_lists :=
  match outputs with
  | [] => Ok acc
  | None :: rest => collect_outputs test_size batch (S batch_idx) rest acc
  | Some output :: rest =>
      height <- match nth_error (img_info_0 batch) batch_idx with
                | Some v => Ok v
                | None => Raise IndexError
                end ;;
      width <- match nth_error (img_info_1 batch) batch_idx with
               | Some v => Ok v
               | None => Raise IndexError
               end ;;
      let '(bboxes, cls, scores) :=
        unpack_output (resize_ratio test_size height width) output in
      image_name <- match nth_error (img_id batch) batch_idx with
                    | Some v => Ok v
                    | None => Raise IndexError
                    end ;;
      let '(result_bboxes, result_cls, result_scores, result_image_names) :=
        acc in
      collect_outputs test_size batch (S batch_idx) rest
        (result_bboxes ++ [bboxes], result_cls ++ [cls],
         result_scores ++ [scores], result_image_names ++ [image_name])
  end.

(** Lines 63-98: every batch that the prefetcher gives. *)
Fixpoint collect_batches (test_size : positive * positive)
    (batches : list Batch) (acc : detection_lists) : outcome detection_lists :=
  match batches with
  | [] => Ok acc
  | batch :: rest =>
      acc <- collect_outputs test_size batch 0 (batched_outputs batch) acc ;;
      collect_batches test_size rest acc
  end.

Section OrganizeDetections.

Variable classid2cocoid : Z -> Z.
Variables Info Cat : Type.

(** Lines 107-119, with [n = len(result_annotations)]. *)
Definition detection_of (image_id : Z) (row : Box * Z * Q) (n : nat)
    : Coco.annotation :=
  let '(bbox, cls, score) := row in
  let '(x, y, w, h) := xyminmax2xywh bbox in
  Coco.mk (w * h) 0 (x, y, w, h) (classid2cocoid cls) (Some score) 0 []
    image_id (Z.of_nat n + 1).

(** Lines 103-119: the two [zip] loops. *)
Definition organize_detections (lists : detection_lists)
    : list Coco.annotation :=
  let '(result_bboxes, result_cls, result_scores, result_image_names) :=
    lists in
  fold_left
    (fun result_annotations '(bboxes, cls, scores, image_id) =>
       fold_left
         (fun acc row => acc ++ [detection_of image_id row (length acc)])
         (combine (combine bboxes cls) scores) result_annotations)
    (combine (combine (combine result_bboxes result_cls) result_scores)
       result_image_names)
    [].

(** Lines 50-126. *)
Definition naiive_generate_dataset (test_size : positive * positive)
    (annotations : AnnotationFile Info Cat) (batches : list Batch)
    : outcome (Coco.dataset Info Cat) :=
  lists <- collect_batches test_size batches ([], [], [], []) ;;
  let images_map := images_map (file_images annotations) in
  let result_annotations := organize_detections lists in
  images <- result_images images_map (snd lists) ;;
  Ok (Coco.mkDataset images Coco.instances result_annotations
        (file_categories annotations)).

End OrganizeDetections.

(** The rows of all the outputs of a batch, and the ids of its images
    that have an output. *)
Definition output_rows (batch : Batch) : list OutputRow :=
  flat_map (fun output => match output with
                          | Some rows => rows
                          | None => []
                          end) (batched_outputs batch).

Definition detected_ids (batch : Batch) : list Z :=
  map fst (filter (fun p => match snd p with Some _ => true | None => false end)
             (combine (img_id batch) (batched_outputs batch))).

(** The four lists side by side, as [zip] at line 103 reads them. *)
Definition entries_of (lists : detection_lists)
    : list (list Box * list Z * list Q * Z) :=
  let '(result_bboxes, result_cls, result_scores, result_image_names) :=
    lists in
  combine (combine (combine result_bboxes result_cls) result_scores)
    result_image_names.

(** The four lists have one entry for every image that is in them. *)
Definition aligned (lists : detection_lists) : Prop :=
  let '(result_bboxes, result_cls, result_scores, result_image_names) :=
    lists in
  length result_bboxes = length result_image_names
  /\ length result_cls = length result_image_names
  /\ length result_scores = length result_image_names.

(** The outputs that are not [None]. *)
Definition present_outputs (outputs : list (option (list OutputRow)))
    : list (list OutputRow) :=
  flat_map (fun output => match output with
                          | Some rows => [rows]
                          | None => []
                          end) outputs.

(** One batch of two images: two detections in image 7, none in
    image 8. *)
Definition example_batch : Batch :=
  mkBatch [480%positive; 480%positive] [640%positive; 640%positive]
    [7%Z; 8%Z]
    [Some [mkOutputRow 10 20 110 220 (9 # 10) (8 # 10) 3;
           mkOutputRow 0 0 50 50 (1 # 2) (1 # 2) 0];
     None].

(** ** [postprocess_before_nms], lines 460-506 *)

(** A row of [prediction]: the centre, the width and the height of a
    box, the confidence of the object and the confidences of the
    classes, of which there is at least one. *)
Record PredRow : Type := mkPredRow {
  pred_cx : Q; pred_cy : Q; pred_w : Q; pred_h : Q;
  pred_obj_conf : Q;
  pred_class_0 : Q;
  pred_classes : list Q
}.

(** Lines 461-466: the corners of the box in the place of its centre and
    size. *)
Definition box_corner (row : PredRow) : PredRow :=
  mkPredRow (pred_cx row - pred_w row / 2) (pred_cy row - pred_h row / 2)
    (pred_cx row + pred_w row / 2) (pred_cy row + pred_h row / 2)
    (pred_obj_conf row) (pred_class_0 row) (pred_classes row).

(** Lines 481-485, on a row whose box is in corners:
    [torch.max(image_pred[:, 5: 5 + num_classes], 1)] gives the greatest
    class confidence and the first position that has it. *)
Definition detection_row (num_classes : positive) (row : PredRow) : OutputRow :=
  let confs :=
    firstn (Pos.to_nat num_classes) (pred_class_0 row :: pred_classes row) in
  let class_pred :=
    argmax_from (fun a b => Qgt_bool b a) (pred_class_0 row) 0 1 (tl confs) in
  let class_conf := nth class_pred confs (pred_class_0 row) in
  mkOutputRow (pred_cx row) (pred_cy row) (pred_w row) (pred_h row)
    (pred_obj_conf row) class_conf (inject_Z (Z.of_nat class_pred)).

(** Line 483: [image_pred[:, 4] * class_conf >= conf_thre]. *)
Definition conf_mask (conf_thre : Q) (detection : OutputRow) : bool :=
  Qge_bool (out_obj_conf detection * out_class_conf detection) conf_thre.

(** Line 495: [detections[:, :4] /= ratio]. *)
Definition resize_row (ratio : Q) (detection : OutputRow) : OutputRow :=
  mkOutputRow (out_x1 detection / ratio) (out_y1 detection / ratio)
    (out_x2 detection / ratio) (out_y2 detection / ratio)
    (out_obj_conf detection) (out_class_conf detection)
    (out_class_pred detection).

Definition row_box (detection : OutputRow) : Box :=
  mkBox (out_x1 detection) (out_y1 detection) (out_x2 detection)
    (out_y2 detection).

(** [all_detections], [bboxes], [scores] and [idxs]. *)
Definition nms_inputs : Type :=
  (list (list OutputRow) * list (list Box) * list (list Q) * list (list Q))%type.

(** Lines 472-501, from the image at position [i] on.  The rows of
    [prediction] are already in corners.  With a single row the mask of
    line 483 has no dimension left after [squeeze()]: a row that passes
    comes out of [detections[conf_mask]] with one dimension more, and
    [detections[:, 4]] at line 499 is out of range. *)
Fixpoint postprocess_images (scale : positive)
    (img_info : list positive * list positive) (num_classes : positive)
    (conf_thre : Q) (class_agnostic : bool) (i : nat)
    (prediction : list (list PredRow)) (acc : nms_inputs)
    : outcome nms_inputs :=
  match prediction with
  | [] => Ok acc
  | image_pred :: rest =>
      let '(all_detections, bboxes, scores, idxs) := acc in
      let empty :=
        (all_detections, bboxes ++ [[]], scores ++ [[]],
         if class_agnostic then idxs else idxs ++ [[]]) in
      let detections :=
        filter (conf_mask conf_thre)
          (map (detection_row num_classes) image_pred) in
      match detections with
      | [] =>
          postprocess_images scale img_info num_classes conf_thre
            class_agnostic (S i) rest empty
      | _ :: _ =>
          height <- match nth_error (fst img_info) i with
                    | Some v => Ok v
                    | None => Raise IndexError
                    end ;;
          width <- match nth_error (snd img_info) i with
                   | Some v => Ok v
                   | None => Raise IndexError
                   end ;;
          match image_pred with
          | [_] => Raise IndexError
          | _ =>
              let ratio := resize_ratio (scale, scale) height width in
              let detections := map (resize_row ratio) detections in
              postprocess_images scale img_info num_classes conf_thre
                class_agnostic (S i) rest
                (all_detections ++ [detections],
                 bboxes ++ [map row_box detections],
                 scores ++ [map (fun d => out_obj_conf d * out_class_conf d)
                              detections],
                 if class_agnostic then idxs
                 else idxs ++ [map out_class_pred detections])
          end
      end
  end.

(** Lines 460-506.  With [class_agnostic] the first three lists are
    returned. *)
Definition postprocess_before_nms (prediction : list (list PredRow))
    (scale : positive) (img_info : list positive * list positive)
    (num_classes : positive) (conf_thre : Q) (class_agnostic : bool)
    : outcome nms_inputs :=
  postprocess_images scale img_info num_classes conf_thre class_agnostic 0
    (map (map box_corner) prediction) ([], [], [], []).

(** ** [SimpleMultiscaleGenerator.generate_dataset], lines 617-634 *)

(** [all_detections_scales[scale]], [bboxes_scales[scale]] and
    [scores_scales[scale]], by image id. *)
Definition scale_tables : Type :=
  (dict (list OutputRow) * dict (list Box) * dict (list Q))%type.

(** Lines 627-631, from the image at position [batch_idx] on. *)
Fixpoint gather_images (all_detections : list (list OutputRow))
    (bboxes : list (list Box)) (scores : list (list Q))
    (batch_idx : nat) (img_id : list Z) (tables : scale_tables)
    : outcome scale_tables :=
  match img_id with
  | [] => Ok tables
  | image_id :: rest =>
      b <- match nth_error bboxes batch_idx with
           | Some v => Ok v
           | None => Raise IndexError
           end ;;
      match b with
      | [] =>
          gather_images all_detections bboxes scores (S batch_idx) rest tables
      | _ :: _ =>
          d <- match nth_error all_detections batch_idx with
               | Some v => Ok v
               | None => Raise IndexError
               end ;;
          s <- match nth_error scores batch_idx with
               | Some v => Ok v
               | None => Raise IndexError
               end ;;
          let '(all_detections_scale, bboxes_scale, scores_scale) := tables in
          gather_images all_detections bboxes scores (S batch_idx) rest
            (dict_set all_detections_scale image_id d,
             dict_set bboxes_scale image_id b,
             dict_set scores_scale image_id s)
      end
  end.

(** Lines 617-631 for one batch: [prediction] stands for
    [self.model(img)]. *)
Definition gather_batch (prediction : list (list PredRow)) (scale : positive)
    (img_info : list positive * list positive) (num_classes : positive)
    (test_conf : Q) (img_id : list Z) (tables : scale_tables)
    : outcome scale_tables :=
  '(all_detections, bboxes, scores, _) <-
    postprocess_before_nms prediction scale img_info num_classes test_conf
      true ;;
  gather_images all_detections bboxes scores 0 img_id tables.

(** The entries of a list of lists that are not empty. *)
Definition count_filled {A} (l : list (list A)) : nat :=
  length (filter (fun x => match x with [] => false | _ :: _ => true end) l).

(** A batch of two images with two rows each and one class: no row of
    the first image reaches a confidence of 1/2, both rows of the second
    do. *)
Definition example_prediction : list (list PredRow) :=
  [ [ mkPredRow 10 10 4 4 (1 # 10) (1 # 10) [];
      mkPredRow 20 20 4 4 (1 # 10) (1 # 10) [] ];
    [ mkPredRow 10 10 4 4 (9 # 10) (9 # 10) [];
      mkPredRow 20 20 4 4 (9 # 10) (9 # 10) [] ] ].

Definition example_img_info : list positive * list positive :=
  ([480; 480]%positive, [640; 640]%positive).

(** Under [scale], the two stores hold arrays whose rows with a score
    above [conf_thresh] have the same boxes and classes, in the same
    order; the other rows, and the scores, may differ. *)
Definition same_kept_rows (self : MultiscaleGenerator)
    (bboxes_scales cls_scales scores_scales : ref) (h1 h2 : heap)
    (scale : Z) : Prop :=
  exists b1 c1 s1 b2 c2 s2,
    scale_in_store h1 bboxes_scales cls_scales scores_scales scale b1 c1 s1
    /\ length b1 = length s1 /\ length c1 = length s1
    /\ scale_in_store h2 bboxes_scales cls_scales scores_scales scale b2 c2 s2
    /\ length b2 = length s2 /\ length c2 = length s2
    /\ map fst (kept_rows self b1 c1 s1) = map fst (kept_rows self b2 c2 s2).

(** The class has ground truth or detections: the test of lines 241
    and 249. *)
Definition class_has_boxes (gt_objects : dict (list Box))
    (infer_objects : infer_table) (class_id : Z) : bool :=
  match dict_get infer_objects class_id, dict_get gt_objects class_id with
  | None, None => false
  | _, _ => true
  end.

(** One ground-truth box of category 1; scale 320 reports it as class 1
    with score 0.9, and a box of class 5 with score 0.3.  The three
    dictionaries are the objects 4, 5 and 6. *)
Definition store_with_low_score : heap :=
  [ PyAnnotations [(7%Z, [mkAnnotation 1 (0, 0, 10, 10)])];
    NdBoxes [mkBox 0 0 10 10; mkBox 40 40 50 50]; NdInts [1%Z; 5%Z];
    NdFloats [9 # 10; 3 # 10];
    PyDict [(320%Z, 1%nat)];
    PyDict [(320%Z, 2%nat)];
    PyDict [(320%Z, 3%nat)] ].

(** The same without the row of score 0.3. *)
Definition store_without_low_score : heap :=
  [ PyAnnotations [(7%Z, [mkAnnotation 1 (0, 0, 10, 10)])];
    NdBoxes [mkBox 0 0 10 10]; NdInts [1%Z]; NdFloats [9 # 10];
    PyDict [(320%Z, 1%nat)];
    PyDict [(320%Z, 2%nat)];
    PyDict [(320%Z, 3%nat)] ].

(** The computation does not end with the [AssertionError] of an array
    inconsistency check. *)
Definition passes_checks {A} (m : outcome A) : Prop :=
  m <> Raise AssertionError.


(** * Properties *)

(** ** Equality of rows *)

Lemma box_eqb_refl (a : Box) : box_eqb a a = true.
Proof. unfold box_eqb. now rewrite !Qeq_bool_refl. Qed.

Lemma box_eqb_sym (a b : Box) : box_eqb a b = box_eqb b a.
Proof.
  unfold box_eqb.
  now rewrite (Qeq_bool_comm (xmin a)), (Qeq_bool_comm (ymin a)),
    (Qeq_bool_comm (xmax a)), (Qeq_bool_comm (ymax a)).
Qed.

Lemma box_eqb_trans (a b c : Box) :
  box_eqb a b = true -> box_eqb b c = true -> box_eqb a c = true.
Proof.
  unfold box_eqb. rewrite !andb_true_iff.
  intros [[[H1 H2] H3] H4] [[[K1 K2] K3] K4].
  repeat split; eapply Qeq_bool_trans; eassumption.
Qed.

(** Boxes equal to [b] are equal to the same boxes as [b]. *)
Lemma box_eqb_congr (a b c : Box) :
  box_eqb b c = true -> box_eqb a b = box_eqb a c.
Proof.
  intros H. destruct (box_eqb a c) eqn:E.
  - apply box_eqb_trans with c; [exact E | now rewrite box_eqb_sym].
  - destruct (box_eqb a b) eqn:E'; [|reflexivity].
    rewrite (box_eqb_trans _ _ _ E' H) in E. discriminate.
Qed.

Lemma item_eqb_refl (a : FlatItem) : item_eqb a a = true.
Proof.
  unfold item_eqb. now rewrite box_eqb_refl, Z.eqb_refl, Nat.eqb_refl.
Qed.

Lemma item_eqb_bbox (a b : FlatItem) :
  item_eqb a b = true -> box_eqb (item_bbox a) (item_bbox b) = true.
Proof. unfold item_eqb. rewrite !andb_true_iff. tauto. Qed.

(** ** Outcomes *)

Lemma obind_Ok {A B} (m : outcome A) (f : A -> outcome B) (b : B) :
  obind m f = Ok b -> exists a, m = Ok a /\ f a = Ok b.
Proof. destruct m; simpl; intros H; try discriminate. eauto. Qed.

(** ** Scans and deletions *)

Lemma find_index_bound {A} (p : A -> bool) (l : list A) (i : nat) :
  find_index p l = Some i -> (i < length l)%nat.
Proof.
  revert i. induction l as [|x t IH]; simpl; intros i H; [discriminate|].
  destruct (p x).
  - injection H as <-. lia.
  - destruct (find_index p t) as [j|]; simpl in H; [|discriminate].
    injection H as <-. specialize (IH j eq_refl). lia.
Qed.

Lemma np_delete_ok {A} (l : list A) (i : nat) :
  (i < length l)%nat -> exists l', np_delete l i = Ok l' /\ S (length l') = length l.
Proof.
  revert i. induction l as [|x t IH]; simpl; intros i H; [lia|].
  destruct i as [|i]; [eauto|].
  destruct (IH i) as (l' & E & L); [lia|].
  rewrite E. simpl. eexists; split; [reflexivity|]. simpl. lia.
Qed.

Lemma setitem_app {A} (pre : list A) (x v : A) (post : list A) :
  setitem (pre ++ x :: post) (length pre) v = Ok (pre ++ v :: post).
Proof. induction pre as [|y pre IH]; simpl; [reflexivity|]. now rewrite IH. Qed.

Lemma nth_error_middle {A} (pre : list A) (x : A) (post : list A) :
  nth_error (pre ++ x :: post) (length pre) = Some x.
Proof. induction pre; simpl; auto. Qed.

Lemma map_as_flat_map {A B} (g : A -> B) (l : list A) :
  map g l = flat_map (fun x => [g x]) l.
Proof. induction l; simpl; congruence. Qed.

Lemma take_rows_enumerate {A B} (f : nat * A -> list (nat * B))
    (q : nat * B -> bool) (p : A -> bool) (suf : list A) :
  (forall i x, map fst (filter q (f (i, x))) = if p x then [i] else []) ->
  forall pre : list A,
    take_rows (pre ++ suf)
      (map fst (filter q
         (flat_map f (combine (seq (length pre) (length suf)) suf))))
    = Ok (filter p suf).
Proof.
  intros Hf. induction suf as [|x suf IH]; intros pre; simpl; [reflexivity|].
  rewrite filter_app, map_app, Hf.
  specialize (IH (pre ++ [x])). rewrite <- app_assoc in IH. simpl in IH.
  rewrite length_app in IH. simpl in IH. rewrite Nat.add_1_r in IH.
  destruct (p x); simpl.
  - rewrite nth_error_middle. now rewrite IH.
  - exact IH.
Qed.

Section RowSelection.

Variable iou_np : Box -> Box -> Q.
Variable self : MultiscaleGenerator.

Lemma select_over_outer (bbox_origin : Box) (rows : list FlatItem) :
  select_over self rows (outer_iou_table iou_np bbox_origin rows)
  = Ok (filter (over_thresh iou_np self bbox_origin) rows).
Proof.
  unfold select_over, outer_iou_table, enumerate.
  rewrite map_as_flat_map.
  apply (take_rows_enumerate
           (fun p => [(fst p, iou_np bbox_origin (item_bbox (snd p)))])
           (fun p => Qgt_bool (snd p) (iou_thresh self))
           (over_thresh iou_np self bbox_origin) rows) with (pre := []).
  intros i x. unfold over_thresh. simpl.
  now destruct (Qgt_bool _ _).
Qed.

Lemma select_over_inner (bbox_origin : Box) (rows : list FlatItem) :
  select_over self rows (inner_iou_table iou_np bbox_origin rows)
  = Ok (filter (inner_over iou_np self bbox_origin) rows).
Proof.
  unfold select_over, inner_iou_table, enumerate.
  apply (take_rows_enumerate
           (fun p => if box_eqb bbox_origin (item_bbox (snd p)) then []
                     else [(fst p, iou_np bbox_origin (item_bbox (snd p)))])
           (fun p => Qgt_bool (snd p) (iou_thresh self))
           (inner_over iou_np self bbox_origin) rows) with (pre := []).
  intros i x. unfold inner_over, over_thresh. simpl.
  destruct (box_eqb _ _); simpl; [reflexivity|].
  now destruct (Qgt_bool _ _).
Qed.

End RowSelection.

(** ** The vote always has a winner *)

Lemma argmax_from_lt {A} (ltb : A -> A -> bool) (l : list A) :
  forall best besti i,
    (besti < i)%nat -> (argmax_from ltb best besti i l < i + length l)%nat.
Proof.
  induction l as [|v t IH]; simpl; intros best besti i H; [lia|].
  destruct (ltb best v).
  - specialize (IH v i (S i)). lia.
  - specialize (IH best besti (S i)). lia.
Qed.

Lemma np_argmax_ok {A} (ltb : A -> A -> bool) (v : A) (t : list A) :
  exists i, np_argmax ltb (v :: t) = Ok i /\ (i < length (v :: t))%nat.
Proof.
  simpl. eexists; split; [reflexivity|].
  pose proof (argmax_from_lt ltb t v (besti := 0) (i := 1)). lia.
Qed.

Lemma insert_unique_cons (x : Z) (l : list Z) :
  exists y t, insert_unique x l = y :: t.
Proof.
  destruct l as [|y t]; simpl; [eauto|].
  destruct (Z.ltb x y); [eauto|]. destruct (Z.eqb x y); eauto.
Qed.

Lemma dominant_class_ok (c : Z) (l : list Z) :
  exists d, dominant_class (c :: l) = Ok d.
Proof.
  unfold dominant_class. simpl np_unique.
  destruct (insert_unique_cons c (np_unique l)) as (y & t & E). rewrite E.
  simpl map.
  destruct (np_argmax_ok Nat.ltb (count_class y (c :: l))
              (map (fun c0 => count_class c0 (c :: l)) t)) as (i & Ei & Hi).
  rewrite Ei. simpl obind.
  destruct (nth_error (y :: t) i) eqn:En; [eauto|].
  apply nth_error_None in En. simpl in Hi, En. rewrite length_map in Hi. lia.
Qed.

(** ** Removing the collected rows *)

Lemma remove_rows_skip (a : FlatItem) (items : list FlatItem) :
  Forall (fun x => item_eqb x a = false) items ->
  forall rows,
    remove_rows items (a :: rows)
    = obind (remove_rows items rows) (fun r => Ok (a :: r)).
Proof.
  induction 1 as [|x rest Hx _ IH]; intros rows; simpl; [reflexivity|].
  rewrite Hx.
  destruct (find_index (fun target_item => item_eqb x target_item) rows)
    as [idx|]; simpl; [|reflexivity].
  destruct (np_delete rows idx) as [t| |]; simpl; [apply IH|reflexivity..].
Qed.

(** When the collected rows are those that satisfy a test which cannot
    tell equal rows apart, the scan finds each of them and what is left
    are the rows that fail the test. *)
Lemma remove_rows_filter (p : FlatItem -> bool) :
  (forall a b, item_eqb a b = true -> p a = p b) ->
  forall rows,
    remove_rows (filter p rows) rows = Ok (filter (fun r => negb (p r)) rows).
Proof.
  intros Hp. induction rows as [|a rows IH]; simpl; [reflexivity|].
  destruct (p a) eqn:Ea; simpl.
  - rewrite item_eqb_refl. simpl. exact IH.
  - rewrite remove_rows_skip, IH; [reflexivity|].
    apply Forall_forall. intros x Hx. apply filter_In in Hx as [_ Hx].
    destruct (item_eqb x a) eqn:E; [|reflexivity].
    apply Hp in E. congruence.
Qed.

Lemma filter_none {A} (p : A -> bool) (l : list A) :
  Forall (fun x => p x = false) l -> filter p l = [].
Proof.
  induction 1 as [|x t Hx _ IH]; simpl; [reflexivity|]. now rewrite Hx.
Qed.

Lemma filter_all {A} (p : A -> bool) (l : list A) :
  Forall (fun x => p x = true) l -> filter p l = l.
Proof.
  induction 1 as [|x t Hx _ IH]; simpl; [reflexivity|]. rewrite Hx. congruence.
Qed.

(** ** The conflict resolver on values: what it leaves *)

Section ResolverInvariant.

Variable iou_np : Box -> Box -> Q.
Variable self : MultiscaleGenerator.

(** The overlap of two boxes does not depend on their order, nor on
    anything but the values of their coordinates. *)
Hypothesis iou_np_sym : forall a b, iou_np a b == iou_np b a.
Hypothesis iou_np_ext :
  forall a b b', box_eqb b b' = true -> iou_np a b == iou_np a b'.

Local Abbreviation over := (over_thresh iou_np self).
Local Abbreviation inner := (inner_over iou_np self).

Lemma over_thresh_sym (a b : FlatItem) :
  over (item_bbox a) b = over (item_bbox b) a.
Proof.
  unfold over_thresh, Qgt_bool.
  now rewrite (iou_np_sym (item_bbox a) (item_bbox b)).
Qed.

Lemma over_thresh_ext (o : Box) (a b : FlatItem) :
  item_eqb a b = true -> over o a = over o b.
Proof.
  intros H. apply item_eqb_bbox in H.
  unfold over_thresh, Qgt_bool.
  now rewrite (iou_np_ext o _ _ H).
Qed.

Lemma inner_over_ext (o : Box) (a b : FlatItem) :
  item_eqb a b = true -> inner o a = inner o b.
Proof.
  intros H. unfold inner_over.
  rewrite (over_thresh_ext o _ _ H).
  now rewrite (box_eqb_congr o _ _ (item_eqb_bbox _ _ H)).
Qed.

Lemma inner_over_sym (a b : FlatItem) :
  inner (item_bbox a) b = inner (item_bbox b) a.
Proof.
  unfold inner_over.
  now rewrite over_thresh_sym, box_eqb_sym.
Qed.

Lemma inner_over_self (a : FlatItem) : inner (item_bbox a) a = false.
Proof.
  unfold inner_over. now rewrite box_eqb_refl.
Qed.

Lemma sanitize_values_filter (class_id : Z) (o : Box) (p : FlatItem -> bool)
    (rows : list FlatItem) :
  (forall a b, item_eqb a b = true -> p a = p b) ->
  exists d,
    sanitize_values class_id o (filter p rows) rows
    = Ok (mkItem o d 1, filter (fun r => negb (p r)) rows).
Proof.
  intros Hp. unfold sanitize_values.
  destruct (dominant_class_ok class_id
              (flat_map (fun it => repeat (item_class it) (item_occ it))
                 (filter p rows))) as (d & ->).
  simpl. rewrite (remove_rows_filter p Hp). simpl. eauto.
Qed.

(** An outer match keeps the rows that do not overlap the cursor row;
    the cursor row keeps its box. *)
Lemma outer_values_filter (class_id : Z) (pre : list FlatItem)
    (cur : FlatItem) (post others : list FlatItem) :
  exists row,
    outer_values iou_np self class_id (item_bbox cur) (length pre)
      (pre ++ cur :: post) others
    = Ok (pre ++ row :: post,
          filter (fun r => negb (over (item_bbox cur) r)) others)
    /\ item_bbox row = item_bbox cur
    /\ (filter (over (item_bbox cur)) others = [] -> row = cur).
Proof.
  unfold outer_values. rewrite select_over_outer. simpl obind.
  destruct (filter (over (item_bbox cur)) others) as [|x l] eqn:E.
  - exists cur. repeat split.
    f_equal. f_equal. symmetry. apply filter_all.
    apply Forall_forall. intros r Hr.
    destruct (over (item_bbox cur) r) eqn:Er; [|reflexivity].
    assert (In r (filter (over (item_bbox cur)) others))
      by (apply filter_In; auto).
    rewrite E in H. destruct H.
  - rewrite <- E.
    destruct (sanitize_values_filter class_id (item_bbox cur)
                (over (item_bbox cur)) others
                (over_thresh_ext (item_bbox cur))) as (d & ->).
    simpl. rewrite setitem_app. simpl.
    eexists; repeat split. intros H. rewrite H in E. discriminate.
Qed.

Lemma filter_negb_of_none {A} (p : A -> bool) (l : list A) :
  filter p l = [] -> filter (fun r => negb (p r)) l = l.
Proof.
  intros E. apply filter_all, Forall_forall. intros r Hr.
  destruct (p r) eqn:Er; [|reflexivity].
  assert (In r (filter p l)) by (apply filter_In; auto).
  rewrite E in H. destruct H.
Qed.

Lemma settled_cursor (done : list FlatItem) (cur : FlatItem)
    (todo gt_only infer_only : list FlatItem) :
  settled iou_np self done (cur :: todo) gt_only infer_only ->
  Forall (fun x => inner (item_bbox cur) x = false) done.
Proof.
  unfold settled. rewrite !Forall_forall. intros H d Hd.
  destruct (H d Hd) as [Hin _]. rewrite Forall_forall in Hin.
  rewrite inner_over_sym. apply Hin. apply in_or_app. right. now left.
Qed.

(** One round at the cursor: the rows before the cursor stay, the row
    under it keeps its box, and of the other rows those that overlap it
    are gone. *)
Lemma round_values_settled (done : list FlatItem) (cur : FlatItem)
    (todo gt_only infer_only : list FlatItem) :
  settled iou_np self done (cur :: todo) gt_only infer_only ->
  exists row,
    round_values iou_np self (length done) cur (done ++ cur :: todo)
      gt_only infer_only
    = Ok (done ++ row :: filter (fun r => negb (inner (item_bbox cur) r)) todo,
          filter (fun r => negb (over (item_bbox cur) r)) gt_only,
          filter (fun r => negb (over (item_bbox cur) r)) infer_only)
    /\ item_bbox row = item_bbox cur.
Proof.
  intros Hs. pose proof (settled_cursor Hs) as Hdone.
  unfold round_values.
  set (o := item_bbox cur).
  assert (Hkeep : filter (fun r => negb (inner o r)) (done ++ cur :: todo)
                  = done ++ cur :: filter (fun r => negb (inner o r)) todo).
  { rewrite filter_app. simpl. unfold o at 2. rewrite inner_over_self. simpl.
    f_equal. apply filter_all. revert Hdone. apply Forall_impl.
    intros a Ha. unfold o. now rewrite Ha. }
  assert (E1 : exists m1,
    inner_values iou_np self
      (rebind_class_id (item_class cur) (done ++ cur :: todo)) o
      (length done) (done ++ cur :: todo) = Ok m1
    /\ m1 = done ++ cur :: filter (fun r => negb (inner o r)) todo).
  { unfold inner_values. rewrite select_over_inner. simpl obind.
    destruct (filter (inner o) (done ++ cur :: todo)) as [|x l] eqn:E.
    - eexists; split; [reflexivity|].
      rewrite <- Hkeep. symmetry. now apply filter_negb_of_none.
    - rewrite <- E.
      destruct (sanitize_values_filter
                  (rebind_class_id (item_class cur) (done ++ cur :: todo))
                  o (inner o) (done ++ cur :: todo) (inner_over_ext o))
        as (d & ->).
      simpl. rewrite setitem_app. simpl. eexists; split; [reflexivity|].
      exact Hkeep. }
  destruct E1 as (m1 & -> & ->). simpl obind. subst o.
  destruct (outer_values_filter
              (rebind_class_id
                 (rebind_class_id (item_class cur) (done ++ cur :: todo))
                 gt_only)
              done cur
              (filter (fun r => negb (inner (item_bbox cur) r)) todo) gt_only)
    as (row1 & -> & Hb1 & _).
  simpl obind. rewrite <- Hb1.
  destruct (outer_values_filter
              (rebind_class_id
                 (rebind_class_id
                    (rebind_class_id (item_class cur) (done ++ cur :: todo))
                    gt_only) infer_only)
              done row1
              (filter (fun r => negb (inner (item_bbox row1) r)) todo)
              infer_only)
    as (row2 & -> & Hb2 & _).
  simpl. exists row2. split; [reflexivity|exact Hb2].
Qed.

Lemma settled_step (done : list FlatItem) (cur row : FlatItem)
    (todo gt_only infer_only : list FlatItem) :
  item_bbox row = item_bbox cur ->
  settled iou_np self done (cur :: todo) gt_only infer_only ->
  settled iou_np self (done ++ [row])
    (filter (fun r => negb (inner (item_bbox cur) r)) todo)
    (filter (fun r => negb (over (item_bbox cur) r)) gt_only)
    (filter (fun r => negb (over (item_bbox cur) r)) infer_only).
Proof.
  intros Hb Hs. pose proof (settled_cursor Hs) as Hcur.
  unfold settled in *. apply Forall_app. split.
  - revert Hs. apply Forall_impl. intros d [Hin Hout]. split.
    + rewrite Forall_forall in *. intros x Hx.
      apply in_app_or in Hx as [Hx|Hx].
      * apply in_app_or in Hx as [Hx|[<-|[]]].
        -- apply Hin. apply in_or_app. now left.
        -- unfold inner_over, over_thresh. rewrite Hb.
           apply (Hin cur). apply in_or_app. right. now left.
      * apply filter_In in Hx as [Hx _]. apply Hin.
        apply in_or_app. right. now right.
    + rewrite Forall_forall in *. intros x Hx. apply Hout.
      apply in_app_or in Hx as [Hx|Hx]; apply filter_In in Hx as [Hx _];
        apply in_or_app; auto.
  - constructor; [|constructor]. rewrite Hb. split.
    + rewrite Forall_forall in *. intros x Hx.
      apply in_app_or in Hx as [Hx|Hx].
      * apply in_app_or in Hx as [Hx|[<-|[]]].
        -- now apply Hcur.
        -- rewrite <- Hb. apply inner_over_self.
      * apply filter_In in Hx as [_ Hx]. now apply negb_true_iff in Hx.
    + rewrite Forall_forall. intros x Hx.
      apply in_app_or in Hx as [Hx|Hx]; apply filter_In in Hx as [_ Hx];
        now apply negb_true_iff in Hx.
Qed.

(** The loop from a settled prefix: it ends, and every row of the
    scanned array is settled. *)
Lemma resolve_values_settled (fuel : nat) :
  forall done todo gt_only infer_only,
    (length todo < fuel)%nat ->
    settled iou_np self done todo gt_only infer_only ->
    exists m g i,
      resolve_values iou_np self fuel (length done) (done ++ todo)
        gt_only infer_only = Ok (m, g, i)
      /\ settled iou_np self m [] g i.
Proof.
  induction fuel as [|fuel IH]; intros done todo g0 i0 Hf Hs; [lia|].
  simpl. destruct todo as [|cur todo].
  - rewrite app_nil_r.
    rewrite (proj2 (nth_error_None done (length done)) (Nat.le_refl _)).
    exists done, g0, i0. split; [reflexivity|exact Hs].
  - rewrite nth_error_middle.
    destruct (round_values_settled Hs) as (row & -> & Hb). simpl obind.
    pose proof (@settled_step _ _ _ _ _ _ Hb Hs) as Hs'.
    assert (Hlen : (length (filter (fun r => negb (inner (item_bbox cur) r))
                              todo) < fuel)%nat).
    { simpl in Hf. pose proof (filter_length_le
        (fun r => negb (inner (item_bbox cur) r)) todo). lia. }
    specialize (IH _ _ _ _ Hlen Hs').
    rewrite length_app, <- app_assoc in IH. simpl in IH.
    rewrite Nat.add_1_r in IH. exact IH.
Qed.

(** On arrays whose rows are all settled a round changes nothing. *)
Lemma round_values_stable (m g i : list FlatItem) (k : nat) (cur : FlatItem) :
  settled iou_np self m [] g i ->
  In cur m ->
  round_values iou_np self k cur m g i = Ok (m, g, i).
Proof.
  unfold settled. rewrite Forall_forall. intros Hs Hc.
  destruct (Hs cur Hc) as [Hin Hout].
  rewrite app_nil_r in Hin. apply Forall_app in Hout as [Hg Hi].
  unfold round_values, inner_values. rewrite select_over_inner.
  rewrite (filter_none _ Hin). simpl obind.
  unfold outer_values. rewrite select_over_outer.
  rewrite (filter_none _ Hg). simpl. rewrite select_over_outer.
  rewrite (filter_none _ Hi). reflexivity.
Qed.

Lemma resolve_values_stable (m g i : list FlatItem) :
  settled iou_np self m [] g i ->
  forall fuel k,
    (length m - k < fuel)%nat ->
    resolve_values iou_np self fuel k m g i = Ok (m, g, i).
Proof.
  intros Hs. induction fuel as [|fuel IH]; intros k Hf; [lia|].
  simpl. destruct (nth_error m k) as [cur|] eqn:E; [|reflexivity].
  rewrite (@round_values_stable m g i k cur Hs (nth_error_In _ _ E)). simpl.
  apply IH. assert (k < length m)%nat by (apply nth_error_Some; congruence).
  lia.
Qed.

(** The resolver on values ends; its result is settled and is left
    as it is by another run. *)
Lemma resolver_values_settled (matched gt_only infer_only : list FlatItem) :
  exists m g i,
    resolver_values iou_np self matched gt_only infer_only = Ok (m, g, i)
    /\ settled iou_np self m [] g i
    /\ resolver_values iou_np self m g i = Ok (m, g, i).
Proof.
  unfold resolver_values.
  destruct (@resolve_values_settled (S (length matched)) [] matched
              gt_only infer_only) as (m & g & i & E & Hs).
  - lia.
  - constructor.
  - exists m, g, i. split; [exact E|]. split; [exact Hs|].
    apply resolve_values_stable; [exact Hs|lia].
Qed.

End ResolverInvariant.

(** ** The store *)

Unset Implicit Arguments.

Lemma heap_set_length (h : heap) (r : ref) (o : pyobj) :
  length (heap_set h r o) = length h.
Proof.
  revert r. induction h as [|x t IH]; intros [|r]; simpl; auto.
Qed.

Lemma heap_set_same (h : heap) (r : ref) (o : pyobj) :
  (r < length h)%nat -> nth_error (heap_set h r o) r = Some o.
Proof.
  revert r. induction h as [|x t IH]; intros [|r]; simpl; intros H;
    try lia; auto. apply IH. lia.
Qed.

Lemma heap_set_other (h : heap) (r r' : ref) (o : pyobj) :
  r <> r' -> nth_error (heap_set h r o) r' = nth_error h r'.
Proof.
  revert r r'. induction h as [|x t IH]; intros [|r] [|r']; simpl; intros H;
    try congruence; auto.
Qed.

Lemma nth_error_lt {A} (l : list A) (r : nat) (x : A) :
  nth_error l r = Some x -> (r < length l)%nat.
Proof. intros H. apply nth_error_Some. congruence. Qed.

Lemma nth_error_grow {A} (l l' : list A) (r : nat) (x : A) :
  nth_error l r = Some x -> nth_error (l ++ l') r = Some x.
Proof.
  intros H. rewrite nth_error_app1; [exact H|]. eapply nth_error_lt; eauto.
Qed.

Lemma bind_ok {A B} (m : Py A) (f : A -> Py B) (h h' : heap) (a : A) :
  m h = Ok (a, h') -> bind m f h = f a h'.
Proof. intros H. unfold bind. now rewrite H. Qed.

Lemma bind_lift {A B} (m : outcome A) (f : A -> Py B) (h : heap) :
  bind (lift m) f h
  = match m with
    | Ok a => f a h
    | Raise e => Raise e
    | Diverge => Diverge
    end.
Proof. unfold bind, lift. now destruct m. Qed.

Lemma bind_raise {A B} (m : Py A) (f : A -> Py B) (h : heap) (e : exn) :
  m h = Raise e -> bind m f h = Raise e.
Proof. intros H. unfold bind. now rewrite H. Qed.

Lemma bind_diverge {A B} (m : Py A) (f : A -> Py B) (h : heap) :
  m h = Diverge -> bind m f h = Diverge.
Proof. intros H. unfold bind. now rewrite H. Qed.

Lemma alloc_at (o : pyobj) (h : heap) : alloc o h = Ok (length h, h ++ [o]).
Proof. reflexivity. Qed.

Lemma load_items_at (h : heap) (r : ref) (rows : list FlatItem) :
  nth_error h r = Some (NdItems rows) -> load_items r h = Ok (rows, h).
Proof. intros H. unfold load_items, bind, deref. now rewrite H. Qed.

Lemma store_item_at (h : heap) (r : ref) (rows : list FlatItem)
    (idx : nat) (row : FlatItem) :
  nth_error h r = Some (NdItems rows) ->
  store_item r idx row h
  = match setitem rows idx row with
    | Ok rows' => Ok (tt, heap_set h r (NdItems rows'))
    | Raise e => Raise e
    | Diverge => Diverge
    end.
Proof. intros H. unfold store_item. now rewrite H. Qed.

(** [delete_rows] only adds arrays to the store; the last one holds what
    [remove_rows] computes. *)
Lemma delete_rows_spec (items : list FlatItem) :
  forall (fx : ref) (h : heap) (rows : list FlatItem),
    nth_error h fx = Some (NdItems rows) ->
    match remove_rows items rows with
    | Ok rows' =>
        exists fx' l,
          delete_rows fx items h = Ok (fx', h ++ l)
          /\ nth_error (h ++ l) fx' = Some (NdItems rows')
          /\ (fx' = fx \/ (length h <= fx')%nat)
          /\ (items <> [] -> (length h <= fx')%nat)
    | Raise e => delete_rows fx items h = Raise e
    | Diverge => delete_rows fx items h = Diverge
    end.
Proof.
  induction items as [|item rest IH]; intros fx h rows Hx; simpl.
  - exists fx, []. rewrite app_nil_r. repeat split; auto. congruence.
  - rewrite (bind_ok _ _ _ _ _ (load_items_at _ _ _ Hx)).
    destruct (find_index (fun target_item => item_eqb item target_item) rows)
      as [idx|]; [|reflexivity].
    rewrite bind_lift.
    destruct (np_delete rows idx) as [rows1| |]; simpl; try reflexivity.
    rewrite (bind_ok _ _ _ _ _ (alloc_at _ _)).
    assert (H1 : nth_error (h ++ [NdItems rows1]) (length h)
                 = Some (NdItems rows1)) by apply nth_error_middle.
    specialize (IH (length h) (h ++ [NdItems rows1]) rows1 H1).
    destruct (remove_rows rest rows1) as [rows'| |]; try exact IH.
    destruct IH as (fx' & l & E & Hn & Hf & _).
    exists fx', (NdItems rows1 :: l). rewrite <- app_assoc in E, Hn.
    simpl in E, Hn. rewrite length_app in Hf. simpl in Hf.
    repeat split; auto; intros; right + idtac; lia.
Qed.

(** [sanitize_bboxes] on a store where [fm] holds [matched] and [fx] holds
    [rows]; the two may be one array. *)
Lemma sanitize_bboxes_spec (class_id : Z) (bbox_origin : Box) (k : nat)
    (fm fx : ref) (items : list FlatItem) (h : heap)
    (matched rows : list FlatItem) :
  nth_error h fm = Some (NdItems matched) ->
  nth_error h fx = Some (NdItems rows) ->
  items <> [] ->
  match sanitize_values class_id bbox_origin items rows with
  | Ok (row, rows') =>
      match setitem matched k row with
      | Ok written =>
          exists fx' l,
            sanitize_bboxes class_id bbox_origin k fm fx items h
            = Ok (fx', heap_set (h ++ l) fm (NdItems written))
            /\ nth_error (h ++ l) fx' = Some (NdItems rows')
            /\ (length h <= fx')%nat
      | Raise e =>
          sanitize_bboxes class_id bbox_origin k fm fx items h = Raise e
      | Diverge =>
          sanitize_bboxes class_id bbox_origin k fm fx items h = Diverge
      end
  | Raise e => sanitize_bboxes class_id bbox_origin k fm fx items h = Raise e
  | Diverge => sanitize_bboxes class_id bbox_origin k fm fx items h = Diverge
  end.
Proof.
  intros Hm Hx Hne. unfold sanitize_values, sanitize_bboxes.
  rewrite bind_lift.
  destruct (dominant_class _) as [d| |]; simpl; try reflexivity.
  pose proof (delete_rows_spec items fx h rows Hx) as Hd.
  destruct (remove_rows items rows) as [rows'| |]; simpl;
    [|now apply bind_raise|now apply bind_diverge].
  destruct Hd as (fx' & l & Hd & Hn & _ & Hf). specialize (Hf Hne).
  rewrite (bind_ok _ _ _ _ _ Hd).
  pose proof (store_item_at _ _ _ k (mkItem bbox_origin d 1)
                (nth_error_grow _ l _ _ Hm)) as Hs.
  destruct (setitem matched k _) as [written| |];
    [|now apply bind_raise|now apply bind_diverge].
  rewrite (bind_ok _ _ _ _ _ Hs).
  exists fx', l. repeat split; auto.
Qed.

(** ** The resolver in the store computes [resolve_values] *)

Section ResolverRefinement.

Variable iou_np : Box -> Box -> Q.
Variable self : MultiscaleGenerator.

Lemma outer_match_spec (class_id : Z) (bbox_origin : Box) (k : nat)
    (fm fx : ref) (h : heap) (matched others : list FlatItem) :
  nth_error h fm = Some (NdItems matched) ->
  nth_error h fx = Some (NdItems others) ->
  match outer_values iou_np self (rebind_class_id class_id others)
          bbox_origin k matched others with
  | Ok (matched', others') =>
      exists fx' h',
        outer_match iou_np self class_id bbox_origin k fm fx h
        = Ok ((rebind_class_id class_id others, fx'), h')
        /\ nth_error h' fm = Some (NdItems matched')
        /\ nth_error h' fx' = Some (NdItems others')
        /\ (fx' = fx \/ (length h <= fx')%nat)
        /\ (length h <= length h')%nat
        /\ (forall r, (r < length h)%nat -> r <> fm ->
                      nth_error h' r = nth_error h r)
  | Raise e => outer_match iou_np self class_id bbox_origin k fm fx h = Raise e
  | Diverge => outer_match iou_np self class_id bbox_origin k fm fx h = Diverge
  end.
Proof.
  intros Hm Hx. unfold outer_match, outer_values.
  rewrite (bind_ok _ _ _ _ _ (load_items_at _ _ _ Hx)), bind_lift.
  destruct (select_over self others _) as [over| |]; simpl; try reflexivity.
  destruct over as [|x over].
  - exists fx, h. repeat split; auto.
  - assert (Hne : x :: over <> []) by discriminate.
    pose proof (sanitize_bboxes_spec (rebind_class_id class_id others)
                  bbox_origin k fm fx (x :: over) h matched others
                  Hm Hx Hne) as Hsp.
    destruct (sanitize_values _ _ _ _) as [[row others']| |]; simpl;
      [|now apply bind_raise|now apply bind_diverge].
    destruct (setitem matched k row) as [written| |]; simpl;
      [|now apply bind_raise|now apply bind_diverge].
    destruct Hsp as (fx' & l & E & Hn & Hf).
    rewrite (bind_ok _ _ _ _ _ E).
    pose proof (nth_error_lt _ _ _ Hm) as Lm.
    exists fx', (heap_set (h ++ l) fm (NdItems written)).
    split; [reflexivity|]. split; [|split; [|split; [|split]]].
    + apply heap_set_same. rewrite length_app. lia.
    + rewrite heap_set_other; [exact Hn|lia].
    + now right.
    + rewrite heap_set_length, length_app. lia.
    + intros r Hr Hrm. rewrite heap_set_other by congruence.
      now apply nth_error_app1.
Qed.

Lemma inner_match_spec (class_id : Z) (bbox_origin : Box) (k : nat)
    (fm : ref) (h : heap) (matched : list FlatItem) :
  nth_error h fm = Some (NdItems matched) ->
  match inner_values iou_np self (rebind_class_id class_id matched)
          bbox_origin k matched with
  | Ok matched' =>
      exists fm' h',
        inner_match iou_np self class_id bbox_origin k matched fm h
        = Ok ((rebind_class_id class_id matched, fm'), h')
        /\ nth_error h' fm' = Some (NdItems matched')
        /\ (fm' = fm \/ (length h <= fm')%nat)
        /\ (length h <= length h')%nat
        /\ (forall r, (r < length h)%nat -> r <> fm ->
                      nth_error h' r = nth_error h r)
  | Raise e =>
      inner_match iou_np self class_id bbox_origin k matched fm h = Raise e
  | Diverge =>
      inner_match iou_np self class_id bbox_origin k matched fm h = Diverge
  end.
Proof.
  intros Hm. unfold inner_match, inner_values. rewrite bind_lift.
  destruct (select_over self matched _) as [over| |]; simpl; try reflexivity.
  destruct over as [|x over].
  - exists fm, h. repeat split; auto.
  - assert (Hne : x :: over <> []) by discriminate.
    pose proof (sanitize_bboxes_spec (rebind_class_id class_id matched)
                  bbox_origin k fm fm (x :: over) h matched matched
                  Hm Hm Hne) as Hsp.
    destruct (sanitize_values _ _ _ _) as [[row matched']| |]; simpl;
      [|now apply bind_raise|now apply bind_diverge].
    destruct (setitem matched k row) as [written| |]; simpl;
      [|now apply bind_raise|now apply bind_diverge].
    destruct Hsp as (fm' & l & E & Hn & Hf).
    rewrite (bind_ok _ _ _ _ _ E).
    pose proof (nth_error_lt _ _ _ Hm) as Lm.
    exists fm', (heap_set (h ++ l) fm (NdItems written)).
    split; [reflexivity|]. split; [|split; [|split]].
    + rewrite heap_set_other; [exact Hn|lia].
    + now right.
    + rewrite heap_set_length, length_app. lia.
    + intros r Hr Hrm. rewrite heap_set_other by congruence.
      now apply nth_error_app1.
Qed.

(** One round in the store, from three distinct arrays. *)
Lemma resolve_round_spec (base k : nat) (cur : FlatItem)
    (fm fg fi : ref) (h : heap) (m g i : list FlatItem) :
  arrays_at h fm fg fi m g i ->
  (base <= fm)%nat ->
  match round_values iou_np self k cur m g i with
  | Ok (m', g', i') =>
      exists fm' fg' fi' h',
        resolve_round iou_np self k cur m fm fg fi h
        = Ok ((fm', fg', fi'), h')
        /\ arrays_at h' fm' fg' fi' m' g' i'
        /\ (base <= fm')%nat
        /\ (length h <= length h')%nat
        /\ preserves base h h'
  | Raise e => resolve_round iou_np self k cur m fm fg fi h = Raise e
  | Diverge => resolve_round iou_np self k cur m fm fg fi h = Diverge
  end.
Proof.
  intros (Hm & Hg & Hi & Dmg & Dmi & Dgi) Hb.
  unfold resolve_round, round_values.
  pose proof (nth_error_lt _ _ _ Hm) as Lm.
  pose proof (nth_error_lt _ _ _ Hg) as Lg.
  pose proof (nth_error_lt _ _ _ Hi) as Li.
  (* inner match *)
  pose proof (inner_match_spec (item_class cur) (item_bbox cur) k fm h m Hm)
    as S1.
  destruct (inner_values _ _ _ _ _ _) as [m1| |]; simpl;
    [|now apply bind_raise|now apply bind_diverge].
  destruct S1 as (fm1 & h1 & E1 & Hm1 & F1 & L1 & P1).
  rewrite (bind_ok _ _ _ _ _ E1).
  assert (Hg1 : nth_error h1 fg = Some (NdItems g))
    by (rewrite P1; auto).
  assert (Hi1 : nth_error h1 fi = Some (NdItems i))
    by (rewrite P1; auto).
  assert (Dm1g : fm1 <> fg) by (destruct F1; lia).
  assert (Dm1i : fm1 <> fi) by (destruct F1; lia).
  assert (Hb1 : (base <= fm1)%nat) by (destruct F1; lia).
  (* outer match against gt_only *)
  pose proof (outer_match_spec (rebind_class_id (item_class cur) m)
                (item_bbox cur) k fm1 fg h1 m1 g Hm1 Hg1) as S2.
  destruct (outer_values _ _ _ _ _ m1 g) as [[m2 g2]| |]; simpl;
    [|now apply bind_raise|now apply bind_diverge].
  destruct S2 as (fg2 & h2 & E2 & Hm2 & Hg2 & F2 & L2 & P2).
  rewrite (bind_ok _ _ _ _ _ E2).
  assert (Hi2 : nth_error h2 fi = Some (NdItems i))
    by (rewrite P2; auto; lia).
  assert (Dg2i : fg2 <> fi) by (destruct F2; lia).
  assert (Dg2m : fg2 <> fm1).
  { destruct F2 as [->|F2]; [congruence|].
    pose proof (nth_error_lt _ _ _ Hm1). lia. }
  (* outer match against infer_only *)
  pose proof (outer_match_spec
                (rebind_class_id (rebind_class_id (item_class cur) m) g)
                (item_bbox cur) k fm1 fi h2 m2 i Hm2 Hi2) as S3.
  destruct (outer_values _ _ _ _ _ m2 i) as [[m3 i3]| |]; simpl;
    [|now apply bind_raise|now apply bind_diverge].
  destruct S3 as (fi3 & h3 & E3 & Hm3 & Hi3 & F3 & L3 & P3).
  rewrite (bind_ok _ _ _ _ _ E3).
  pose proof (nth_error_lt _ _ _ Hg2) as Lg2.
  pose proof (nth_error_lt _ _ _ Hm2) as Lm2.
  exists fm1, fg2, fi3, h3. split; [reflexivity|].
  split; [|split; [|split]].
  - unfold arrays_at. repeat split; auto.
    + rewrite P3; auto.
    + destruct F3 as [->|F3]; [congruence|lia].
    + destruct F3 as [->|F3]; [congruence|lia].
  - exact Hb1.
  - lia.
  - intros r Hr. rewrite P3, P2, P1; auto; lia.
Qed.

(** The loop in the store, from three distinct arrays. *)
Lemma resolve_loop_spec (base : nat) (fuel : nat) :
  forall (k : nat) (fm fg fi : ref) (h : heap) (m g i : list FlatItem),
    arrays_at h fm fg fi m g i ->
    (base <= fm)%nat ->
    match resolve_values iou_np self fuel k m g i with
    | Ok (m', g', i') =>
        exists fm' fg' fi' h',
          resolve_loop iou_np self fuel k fm fg fi h
          = Ok ((fm', fg', fi'), h')
          /\ arrays_at h' fm' fg' fi' m' g' i'
          /\ (length h <= length h')%nat
          /\ preserves base h h'
    | Raise e => resolve_loop iou_np self fuel k fm fg fi h = Raise e
    | Diverge => resolve_loop iou_np self fuel k fm fg fi h = Diverge
    end.
Proof.
  induction fuel as [|fuel IH]; intros k fm fg fi h m g i Ha Hb; simpl;
    [reflexivity|].
  pose proof Ha as (Hm & _).
  rewrite (bind_ok _ _ _ _ _ (load_items_at _ _ _ Hm)).
  destruct (nth_error m k) as [cur|].
  - pose proof (resolve_round_spec base k cur fm fg fi h m g i Ha Hb) as S1.
    destruct (round_values _ _ _ _ _ _ _) as [[[m1 g1] i1]| |]; simpl;
      [|now apply bind_raise|now apply bind_diverge].
    destruct S1 as (fm1 & fg1 & fi1 & h1 & E1 & Ha1 & Hb1 & L1 & P1).
    rewrite (bind_ok _ _ _ _ _ E1).
    specialize (IH (S k) fm1 fg1 fi1 h1 m1 g1 i1 Ha1 Hb1).
    destruct (resolve_values _ _ _ _ _ _ _) as [[[m2 g2] i2]| |];
      try exact IH.
    destruct IH as (fm2 & fg2 & fi2 & h2 & E2 & Ha2 & L2 & P2).
    exists fm2, fg2, fi2, h2. split; [exact E2|]. split; [exact Ha2|].
    split; [lia|]. intros r Hr. rewrite P2, P1; auto.
  - exists fm, fg, fi, h. split; [reflexivity|]. split; [exact Ha|].
    split; [lia|]. intros r Hr. reflexivity.
Qed.

(** [conflict_resolver] returns what [resolver_values] computes and
    leaves the objects of the store it started from as they were. *)
Lemma conflict_resolver_spec (m g i : list FlatItem) (h : heap) :
  match resolver_values iou_np self m g i with
  | Ok out =>
      exists h', conflict_resolver iou_np self m g i h = Ok (out, h')
                 /\ (length h <= length h')%nat
                 /\ preserves (length h) h h'
  | Raise e => conflict_resolver iou_np self m g i h = Raise e
  | Diverge => conflict_resolver iou_np self m g i h = Diverge
  end.
Proof.
  unfold conflict_resolver, resolver_values.
  rewrite (bind_ok _ _ _ _ _ (alloc_at _ _)).
  rewrite (bind_ok _ _ _ _ _ (alloc_at _ _)).
  rewrite (bind_ok _ _ _ _ _ (alloc_at _ _)).
  set (h0 := (h ++ [NdItems m]) ++ [NdItems g]) in *.
  assert (L0 : length h0 = S (S (length h)))
    by (unfold h0; rewrite !length_app; simpl; lia).
  assert (Ha : arrays_at (h0 ++ [NdItems i]) (length h)
                 (length (h ++ [NdItems m])) (length h0) m g i).
  { unfold arrays_at, h0. rewrite !length_app. simpl.
    repeat split; try lia.
    - rewrite <- !app_assoc. apply nth_error_middle.
    - rewrite <- app_assoc.
      replace (length h + 1)%nat with (length (h ++ [NdItems m]))
        by (rewrite length_app; simpl; lia).
      apply nth_error_middle.
    - replace (length h + 1 + 1)%nat
        with (length ((h ++ [NdItems m]) ++ [NdItems g]))
        by (rewrite !length_app; simpl; lia).
      apply nth_error_middle. }
  pose proof (resolve_loop_spec (length h) (S (length m)) 0 _ _ _ _ _ _ _
                Ha (Nat.le_refl _)) as Sp.
  destruct (resolve_values _ _ _ _ _ _ _) as [[[m' g'] i']| |];
    [|now apply bind_raise|now apply bind_diverge].
  destruct Sp as (fm & fg & fi & h' & E & (Hm & Hg & Hi & _) & L & P).
  rewrite (bind_ok _ _ _ _ _ E).
  rewrite (bind_ok _ _ _ _ _ (load_items_at _ _ _ Hm)).
  rewrite (bind_ok _ _ _ _ _ (load_items_at _ _ _ Hg)).
  rewrite (bind_ok _ _ _ _ _ (load_items_at _ _ _ Hi)).
  exists h'. split; [reflexivity|]. split.
  - rewrite length_app, L0 in L. simpl in L. lia.
  - intros r Hr. rewrite (P r Hr). unfold h0.
    rewrite <- !app_assoc. now apply nth_error_app1.
Qed.

End ResolverRefinement.

(** ** The overlap of section 4.1 *)

Lemma iou_sym (a b : Box) : iou a b == iou b a.
Proof.
  unfold iou, box_area.
  rewrite (Q.min_comm (xmax a)), (Q.max_comm (xmin a)),
    (Q.min_comm (ymax a)), (Q.max_comm (ymin a)).
  apply Qdiv_comp; [reflexivity|ring].
Qed.

Lemma iou_ext (a b b' : Box) : box_eqb b b' = true -> iou a b == iou a b'.
Proof.
  unfold box_eqb. rewrite !andb_true_iff, !Qeq_bool_iff.
  intros [[[H1 H2] H3] H4]. unfold iou, box_area.
  now rewrite H1, H2, H3, H4.
Qed.

(** ** Phase 4.4: what holds after the conflict resolver *)

Section Resolver.

Variable iou_np : Box -> Box -> Q.
Variable self : MultiscaleGenerator.

Hypothesis iou_np_sym : forall a b, iou_np a b == iou_np b a.
Hypothesis iou_np_ext :
  forall a b b', box_eqb b b' = true -> iou_np a b == iou_np a b'.

Lemma over_thresh_false (o : Box) (x : FlatItem) :
  over_thresh iou_np self o x = false ->
  iou_np o (item_bbox x) <= iou_thresh self.
Proof.
  unfold over_thresh, Qgt_bool. intros H.
  apply negb_false_iff in H. now apply Qle_bool_iff.
Qed.

(** C1, as amended.  The conflict resolver ends, and every row it
    leaves in [matched] overlaps no other row of [matched] with another
    box, and no row of [gt_only] or [infer_only], beyond [iou_thresh]. *)
Theorem resolver_matched_rows_disjoint
    (matched gt_only infer_only : list FlatItem) (h : heap) :
  exists m g i h',
    conflict_resolver iou_np self matched gt_only infer_only h
    = Ok ((m, g, i), h')
    /\ forall a, In a m ->
         (forall b, In b m ->
            box_eqb (item_bbox a) (item_bbox b) = true
            \/ iou_np (item_bbox a) (item_bbox b) <= iou_thresh self)
         /\ (forall b, In b (g ++ i) ->
               iou_np (item_bbox a) (item_bbox b) <= iou_thresh self).
Proof.
  destruct (@resolver_values_settled iou_np self iou_np_sym iou_np_ext
              matched gt_only infer_only) as (m & g & i & E & Hs & _).
  pose proof (conflict_resolver_spec iou_np self matched gt_only infer_only h)
    as Sp.
  rewrite E in Sp. destruct Sp as (h' & Er & _).
  exists m, g, i, h'. split; [exact Er|].
  unfold settled in Hs. rewrite Forall_forall in Hs.
  intros a Ha. destruct (Hs a Ha) as [Hin Hout].
  rewrite app_nil_r in Hin. rewrite Forall_forall in Hin, Hout. split.
  - intros b Hb. specialize (Hin b Hb). unfold inner_over in Hin.
    apply andb_false_iff in Hin as [Hin|Hin].
    + left. now apply negb_false_iff in Hin.
    + right. now apply over_thresh_false.
  - intros b Hb. apply over_thresh_false. now apply Hout.
Qed.

(** C7.  The conflict resolver ends, and run again on the three lists
    it has produced, from any store, it returns these three lists. *)
Theorem resolver_idempotent
    (matched gt_only infer_only : list FlatItem) (h : heap) :
  exists out,
    value_of (conflict_resolver iou_np self matched gt_only infer_only h)
    = Ok out
    /\ forall h2,
         value_of (conflict_resolver iou_np self
                     (fst (fst out)) (snd (fst out)) (snd out) h2)
         = Ok out.
Proof.
  destruct (@resolver_values_settled iou_np self iou_np_sym iou_np_ext
              matched gt_only infer_only) as (m & g & i & E & _ & E2).
  exists (m, g, i). split.
  - pose proof (conflict_resolver_spec iou_np self matched gt_only
                  infer_only h) as Sp.
    rewrite E in Sp. destruct Sp as (h' & -> & _). reflexivity.
  - intros h2. simpl.
    pose proof (conflict_resolver_spec iou_np self m g i h2) as Sp.
    rewrite E2 in Sp. destruct Sp as (h' & -> & _). reflexivity.
Qed.

End Resolver.

Lemma resolver_matched_rows_disjoint_witness :
  exists m g i h',
    conflict_resolver iou example_generator
      [mkItem (mkBox 0 0 10 10) 1 3; mkItem (mkBox 1 1 9 9) 2 1]
      [mkItem (mkBox 0 0 9 9) 1 1] [mkItem (mkBox 20 20 30 30) 3 1] []
    = Ok ((m, g, i), h')
    /\ forall a, In a m ->
         (forall b, In b m ->
            box_eqb (item_bbox a) (item_bbox b) = true
            \/ iou (item_bbox a) (item_bbox b) <= iou_thresh example_generator)
         /\ (forall b, In b (g ++ i) ->
               iou (item_bbox a) (item_bbox b) <= iou_thresh example_generator).
Proof.
  exact (resolver_matched_rows_disjoint iou example_generator iou_sym iou_ext
           [mkItem (mkBox 0 0 10 10) 1 3; mkItem (mkBox 1 1 9 9) 2 1]
           [mkItem (mkBox 0 0 9 9) 1 1] [mkItem (mkBox 20 20 30 30) 3 1] []).
Defined.

Lemma resolver_idempotent_witness :
  exists out,
    value_of (conflict_resolver iou example_generator
                [mkItem (mkBox 0 0 10 10) 1 3; mkItem (mkBox 1 1 9 9) 2 1]
                [mkItem (mkBox 0 0 9 9) 1 1] [mkItem (mkBox 20 20 30 30) 3 1] [])
    = Ok out
    /\ forall h2,
         value_of (conflict_resolver iou example_generator
                     (fst (fst out)) (snd (fst out)) (snd out) h2)
         = Ok out.
Proof.
  exact (resolver_idempotent iou example_generator iou_sym iou_ext
           [mkItem (mkBox 0 0 10 10) 1 3; mkItem (mkBox 1 1 9 9) 2 1]
           [mkItem (mkBox 0 0 9 9) 1 1] [mkItem (mkBox 20 20 30 30) 3 1] []).
Defined.

(** C1 as stated fails: two ground-truth boxes of one class that overlap,
    without any detection, go through phases 4.2 to 4.4 untouched and
    are both in [gt_only] at the end, with an overlap of 0.64.  And two
    matched rows with the same box, of classes 1 and 2, are both left in
    [matched]: the inner match passes over every row whose box equals the
    box under the cursor. *)
Lemma overlapping_gt_only_rows_survive :
  (exists t m g i,
      per_class_phases iou example_generator
        [1%Z; 1%Z] [mkBox 0 0 10 10; mkBox 1 1 9 9] [] [] = Ok t
      /\ flatten_tables t = Ok ([], g, [])
      /\ value_of (conflict_resolver iou example_generator [] g [] [])
         = Ok (m, g, i)
      /\ ~ pairwise_disjoint iou (iou_thresh example_generator) (m ++ g ++ i)
      /\ value_of (multiscale_match iou to_min_max (fun c => c)
                     example_generator 7%Z 4%nat 5%nat 6%nat store_two_gt)
         = Ok ([], [(1%Z, [mkBox 0 0 10 10; mkBox 1 1 9 9])], []))
  /\ (exists m,
        value_of (conflict_resolver iou example_generator
                    [mkItem (mkBox 0 0 10 10) 1 1; mkItem (mkBox 0 0 10 10) 2 1]
                    [] [] [])
        = Ok (m, [], [])
        /\ ~ pairwise_disjoint iou (iou_thresh example_generator) m).
Proof.
  split.
  - exists ([], [(1%Z, [mkBox 0 0 10 10; mkBox 1 1 9 9])], []), [],
      [mkItem (mkBox 0 0 10 10) 1 1; mkItem (mkBox 1 1 9 9) 1 1], [].
    split; [reflexivity|]. split; [reflexivity|]. split; [reflexivity|].
    split; [|vm_compute; reflexivity].
    intros H.
    specialize (H 0%nat 1%nat (mkItem (mkBox 0 0 10 10) 1 1)
                  (mkItem (mkBox 1 1 9 9) 1 1)).
    assert (C : iou (mkBox 0 0 10 10) (mkBox 1 1 9 9) <= 1 # 2)
      by (apply H; [discriminate|reflexivity|reflexivity]).
    vm_compute in C. apply C. reflexivity.
  - exists [mkItem (mkBox 0 0 10 10) 1 1; mkItem (mkBox 0 0 10 10) 2 1].
    split; [vm_compute; reflexivity|].
    intros H.
    specialize (H 0%nat 1%nat (mkItem (mkBox 0 0 10 10) 1 1)
                  (mkItem (mkBox 0 0 10 10) 2 1)).
    assert (C : iou (mkBox 0 0 10 10) (mkBox 0 0 10 10) <= 1 # 2)
      by (apply H; [discriminate|reflexivity|reflexivity]).
    vm_compute in C. apply C. reflexivity.
Qed.

(** C3, Scenario D.  The matched row of class 1 with occurrence count 3
    takes class 2 from the single overlapping [gt_only] row: the loop over
    [flatten_gt_only_items] has left the class of its last row in
    [class_id] by the time [sanitize_bboxes] reads it, so the vote is
    between 2 and 2.  [multiscale_match] on the image of the scenario
    returns the box under class 2. *)
Theorem scenario_D_matched_row_changes_class :
  value_of (conflict_resolver iou example_generator
              [mkItem (mkBox 0 0 10 10) 1 3]
              [mkItem (mkBox 1 1 9 9) 2 1] [] [])
  = Ok ([mkItem (mkBox 0 0 10 10) 2 1], [], [])
  /\ value_of (multiscale_match iou to_min_max (fun c => c)
                 three_scale_generator 7%Z 10%nat 11%nat 12%nat
                 store_scenario_D)
     = Ok ([(2%Z, [mkBox 0 0 10 10])], [], []).
Proof. split; vm_compute; reflexivity. Qed.

(** ** Phase 4.3: the leftover rematcher *)

(** C2, Scenario C.  With [rematch_thresh = 3], two coincident boxes and
    nothing else in the residual list are promoted: the slice
    [[:rematch_thresh]] of a table with two values has two values, both at
    least [iou_thresh].  Nothing stays in [infer_only], and
    [multiscale_match] returns a matched entry for class 2. *)
Theorem two_coincident_boxes_are_promoted :
  rematch iou example_generator [mkBox 5 5 15 15; mkBox 5 5 15 15]
  = Ok ([], [mkBox 5 5 15 15])
  /\ value_of (multiscale_match iou to_min_max (fun c => c) example_generator
                 7%Z 7%nat 8%nat 9%nat store_C)
     = Ok ([(2%Z, [mkBox 5 5 15 15])], [], []).
Proof. split; vm_compute; reflexivity. Qed.

(** C4 as stated fails, Scenario B: class 2 has no ground truth, three
    scales report one box each, and the box ends as a matched entry. *)
Lemma class_without_gt_is_promoted :
  value_of (load_gt to_min_max (fun c => c) three_scale_generator 7%Z store_B)
  = Ok ([], [])
  /\ value_of (multiscale_match iou to_min_max (fun c => c)
                 three_scale_generator 7%Z 10%nat 11%nat 12%nat store_B)
     = Ok ([(2%Z, [mkBox 5 5 15 15])], [], []).
Proof. split; vm_compute; reflexivity. Qed.

(** ** Sorted keys and pooled detections *)

Lemma insert_sorted_In_inv {A} (leb : A -> A -> bool) (x y : A) (l : list A) :
  In y (insert_sorted leb x l) -> y = x \/ In y l.
Proof.
  induction l as [|z l IH]; simpl; intros H.
  - destruct H as [<-|[]]. now left.
  - destruct (leb x z); simpl in H.
    + destruct H as [<-|[<-|H]]; auto.
    + destruct H as [<-|H]; auto. destruct (IH H) as [->|H']; auto.
Qed.

Lemma sorted_In_inv {A} (leb : A -> A -> bool) (y : A) (l : list A) :
  In y (sorted leb l) -> In y l.
Proof.
  induction l as [|x l IH]; simpl; intros H; [exact H|].
  apply insert_sorted_In_inv in H. destruct H as [->|H]; auto.
Qed.

Lemma dict_get_key {V} (d : dict V) (k : Z) :
  In k (dict_keys d) -> exists v, dict_get d k = Some v.
Proof.
  induction d as [|[k0 v0] d IH]; simpl; intros H; [destruct H|].
  destruct (Z.eqb_spec k k0) as [->|Hn]; [eauto|].
  destruct H as [->|H]; [congruence|auto].
Qed.

Lemma extend_scales_total (d : dict (list Box)) (keys : list Z) :
  (forall k, In k keys -> In k (dict_keys d)) ->
  forall acc,
    extend_scales keys d acc
    = Ok (acc ++ flat_map (fun k => match dict_get d k with
                                    | Some l => l
                                    | None => []
                                    end) keys).
Proof.
  induction keys as [|k keys IH]; intros Hk acc; simpl.
  - now rewrite app_nil_r.
  - unfold dict_getitem.
    destruct (dict_get_key d k (Hk k (or_introl eq_refl))) as (l & ->).
    simpl. rewrite IH by (intros k' Hk'; apply Hk; now right).
    now rewrite app_assoc.
Qed.

(** ** The promotion test of the leftover rematcher *)

Section PromotionTest.

Variable self : MultiscaleGenerator.

Local Abbreviation ge := (fun v => Qge_bool v (iou_thresh self)).

Lemma insert_sorted_Forall {A} (P : A -> Prop) (leb : A -> A -> bool)
    (x : A) (l : list A) :
  P x -> Forall P l -> Forall P (insert_sorted leb x l).
Proof.
  intros Hx Hl. induction Hl as [|y l Hy Hl IH]; simpl.
  - now constructor.
  - destruct (leb x y); repeat constructor; auto.
Qed.

Lemma insert_sorted_ascending (x : Q) (l : list Q) :
  StronglySorted Qle l ->
  StronglySorted Qle (insert_sorted Qle_bool x l).
Proof.
  induction 1 as [|y l Hs IH Hy]; simpl.
  - repeat constructor.
  - destruct (Qle_bool x y) eqn:E.
    + apply Qle_bool_iff in E. constructor; [now constructor|].
      constructor; [exact E|]. revert Hy. apply Forall_impl.
      intros z Hz. now apply Qle_trans with y.
    + constructor; [exact IH|].
      apply insert_sorted_Forall; [|exact Hy].
      apply Qlt_le_weak, Qnot_le_lt. intros Hle.
      apply Qle_bool_iff in Hle. congruence.
Qed.

Lemma sorted_ascending (l : list Q) :
  StronglySorted Qle (sorted Qle_bool l).
Proof.
  induction l; simpl; [constructor|now apply insert_sorted_ascending].
Qed.

Lemma insert_sorted_filter_length {A} (p : A -> bool) (leb : A -> A -> bool)
    (x : A) (l : list A) :
  length (filter p (insert_sorted leb x l)) = length (filter p (x :: l)).
Proof.
  induction l as [|y l IH]; simpl; [reflexivity|].
  destruct (leb x y); simpl; [reflexivity|].
  simpl in IH. destruct (p y), (p x); simpl in *; lia.
Qed.

Lemma sorted_filter_length {A} (p : A -> bool) (leb : A -> A -> bool)
    (l : list A) :
  length (filter p (sorted leb l)) = length (filter p l).
Proof.
  induction l as [|x l IH]; simpl; [reflexivity|].
  rewrite insert_sorted_filter_length. simpl.
  destruct (p x); simpl; lia.
Qed.

Lemma sorted_length {A} (leb : A -> A -> bool) (l : list A) :
  length (sorted leb l) = length l.
Proof.
  pose proof (sorted_filter_length (fun _ => true) leb l) as H.
  rewrite !filter_all in H by (apply Forall_forall; auto). exact H.
Qed.

(** An ascending table is the values below the threshold followed by the
    values that reach it. *)
Lemma ascending_split (s : list Q) :
  StronglySorted Qle s ->
  s = filter (fun v => negb (ge v)) s ++ filter ge s.
Proof.
  induction 1 as [|x s Hs IH Hx]; simpl; [reflexivity|].
  destruct (Qge_bool x (iou_thresh self)) eqn:E; simpl.
  - assert (Hall : Forall (fun v => ge v = true) s).
    { revert Hx. apply Forall_impl. intros z Hz.
      unfold Qge_bool in *. apply Qle_bool_iff. apply Qle_bool_iff in E.
      now apply Qle_trans with x. }
    rewrite (filter_all _ Hall).
    rewrite filter_none; [reflexivity|].
    revert Hall. apply Forall_impl. intros z ->. reflexivity.
  - now rewrite <- IH.
Qed.

Lemma firstn_In {A} (k : nat) (l : list A) (x : A) :
  In x (firstn k l) -> In x l.
Proof.
  revert l. induction k as [|k IH]; intros [|y l]; simpl; auto;
    try contradiction.
  intros [->|H]; auto.
Qed.

Lemma forallb_firstn_split (k : nat) (a b : list Q) :
  Forall (fun v => ge v = true) a ->
  Forall (fun v => ge v = false) b ->
  forallb ge (firstn k (a ++ b)) = true
  <-> (Nat.min k (length a + length b) <= length a)%nat.
Proof.
  intros Ha Hb. rewrite firstn_app, forallb_app.
  assert (E1 : forallb ge (firstn k a) = true).
  { apply forallb_forall. intros v Hv. rewrite Forall_forall in Ha.
    apply Ha. eapply firstn_In; eauto. }
  rewrite E1. simpl.
  destruct (k - length a)%nat as [|j] eqn:Ek.
  - simpl. split; [lia|reflexivity].
  - destruct b as [|v b]; simpl.
    + split; [lia|reflexivity].
    + inversion Hb as [|? ? Hv _]; subst. rewrite Hv. simpl.
      split; [discriminate|lia].
Qed.

(** The test at line 319 holds exactly when the boxes that overlap the
    cursor box by at least [iou_thresh] are at least [rematch_thresh], or
    are all the boxes of a table shorter than that. *)
Lemma top_all_over_iff (iou_table : list Q) :
  top_all_over self iou_table = true
  <-> (Nat.min (rematch_thresh self) (length iou_table)
       <= length (filter ge iou_table))%nat.
Proof.
  unfold top_all_over.
  pose proof (ascending_split _ (sorted_ascending iou_table)) as Hs.
  set (s := sorted Qle_bool iou_table) in *.
  assert (HA : length (filter ge s) = length (filter ge iou_table))
    by apply sorted_filter_length.
  assert (HB : (length (filter (fun v => negb (ge v)) s)
                + length (filter ge s) = length iou_table)%nat).
  { rewrite <- length_app, <- Hs. apply sorted_length. }
  replace (rev s)
    with (rev (filter ge s) ++ rev (filter (fun v => negb (ge v)) s))
    by (now rewrite <- rev_app_distr, <- Hs).
  rewrite forallb_firstn_split.
  - rewrite !length_rev. lia.
  - apply Forall_forall. intros v Hv. apply in_rev in Hv.
    now apply filter_In in Hv.
  - apply Forall_forall. intros v Hv. apply in_rev in Hv.
    apply filter_In in Hv as [_ Hv]. now apply negb_true_iff in Hv.
Qed.

End PromotionTest.

(** ** Phases 4.2 and 4.3: nothing is consumed twice *)

Lemma sublist_refl {A} (l : list A) : sublist l l.
Proof. induction l; [apply sublist_nil|apply sublist_keep; auto]. Qed.

Lemma sublist_trans {A} (l1 l2 l3 : list A) :
  sublist l1 l2 -> sublist l2 l3 -> sublist l1 l3.
Proof.
  intros H12 H23. revert l1 H12.
  induction H23 as [|x l2 l3 H IH|x l2 l3 H IH]; intros l1 H12.
  - exact H12.
  - apply sublist_skip. now apply IH.
  - inversion H12; subst.
    + apply sublist_skip. now apply IH.
    + apply sublist_keep. now apply IH.
Qed.

Lemma sublist_nil_l {A} (l : list A) : sublist [] l.
Proof. induction l; [apply sublist_nil|apply sublist_skip; auto]. Qed.

Lemma sublist_app {A} (a' a b' b : list A) :
  sublist a' a -> sublist b' b -> sublist (a' ++ b') (a ++ b).
Proof.
  intros Ha Hb. induction Ha; simpl;
    [exact Hb|apply sublist_skip; auto|apply sublist_keep; auto].
Qed.

Lemma sublist_In {A} (l' l : list A) (x : A) :
  sublist l' l -> In x l' -> In x l.
Proof.
  induction 1 as [|y l' l H IH|y l' l H IH]; simpl; intros Hx; auto.
  destruct Hx; auto.
Qed.

Lemma sublist_Forall {A} (P : A -> Prop) (l' l : list A) :
  sublist l' l -> Forall P l -> Forall P l'.
Proof.
  intros Hs Hl. rewrite Forall_forall in *. intros x Hx.
  apply Hl. eapply sublist_In; eauto.
Qed.

Lemma sublist_count (b : Box) (l' l : list Box) :
  sublist l' l -> (count_box b l' <= count_box b l)%nat.
Proof.
  unfold count_box.
  induction 1 as [|x l' l H IH|x l' l H IH]; simpl; auto;
    destruct (box_eqb x b); simpl; lia.
Qed.


Lemma find_index_nth {A} (p : A -> bool) (l : list A) (i : nat) :
  find_index p l = Some i -> exists x, nth_error l i = Some x /\ p x = true.
Proof.
  revert i. induction l as [|y t IH]; simpl; intros i H; [discriminate|].
  destruct (p y) eqn:E.
  - injection H as <-. exists y. split; [reflexivity|exact E].
  - destruct (find_index p t) as [j|]; simpl in H; [|discriminate].
    injection H as <-. apply (IH j eq_refl).
Qed.

Lemma find_index_none {A} (p : A -> bool) (l : list A) :
  find_index p l = None -> forall x, In x l -> p x = false.
Proof.
  induction l as [|y t IH]; simpl; intros H x Hx; [destruct Hx|].
  destruct (p y) eqn:E; [discriminate|].
  destruct (find_index p t); [discriminate|].
  destruct Hx as [<-|Hx]; auto.
Qed.

Lemma np_delete_sublist {A} (l : list A) :
  forall i l', np_delete l i = Ok l' ->
               sublist l' l /\ S (length l') = length l.
Proof.
  induction l as [|x t IH]; intros i l' H; simpl in H; [destruct i; discriminate|].
  destruct i as [|i].
  - injection H as <-. split; [apply sublist_skip, sublist_refl|reflexivity].
  - destruct (np_delete t i) as [t'| |] eqn:E; simpl in H; try discriminate.
    injection H as <-. destruct (IH i t' E) as [Hs Hl].
    split; [now apply sublist_keep|simpl; lia].
Qed.

Lemma np_delete_count (b : Box) (l : list Box) :
  forall i l' x,
    np_delete l i = Ok l' -> nth_error l i = Some x ->
    count_box b l
    = (count_box b l' + if box_eqb x b then 1 else 0)%nat.
Proof.
  unfold count_box.
  induction l as [|y t IH]; intros i l' x H Hx; simpl in H;
    [destruct i; discriminate|].
  destruct i as [|i]; simpl in Hx.
  - injection H as <-. injection Hx as ->. simpl.
    destruct (box_eqb x b); simpl; lia.
  - destruct (np_delete t i) as [t'| |] eqn:E; simpl in H; try discriminate.
    injection H as <-. specialize (IH i t' x E Hx). simpl.
    destruct (box_eqb y b); simpl; lia.
Qed.

Lemma count_box_zero (b : Box) (l : list Box) :
  (forall x, In x l -> box_eqb x b = false) -> count_box b l = 0%nat.
Proof.
  intros H. unfold count_box. rewrite filter_none; [reflexivity|].
  now apply Forall_forall.
Qed.

Section NoDoubleConsumption.

Variable iou_np : Box -> Box -> Q.
Variable self : MultiscaleGenerator.

Lemma thresh_over_filter (f : Box -> Q) (table : list Box) :
  thresh_over self table (map f table)
  = filter (fun b => Qge_bool (f b) (iou_thresh self)) table.
Proof.
  unfold thresh_over. induction table as [|x t IH]; simpl; [reflexivity|].
  destruct (Qge_bool (f x) (iou_thresh self)); simpl; now rewrite IH.
Qed.

(** The boxes that [remove_boxes] leaves are boxes of the table, and a
    box with an equal among the flagged ones loses a copy. *)
Lemma remove_boxes_spec (items : list Box) :
  forall t t',
    remove_boxes items t = Ok t' ->
    sublist t' t
    /\ forall b,
         (exists x, In x items /\ box_eqb x b = true) ->
         (1 <= count_box b t)%nat ->
         (count_box b t' < count_box b t)%nat.
Proof.
  induction items as [|x rest IH]; intros t t' H; simpl in H.
  - injection H as <-. split; [apply sublist_refl|].
    intros b (y & [] & _).
  - destruct (find_index (fun dstbbox => box_eqb dstbbox x) t) as [idx|] eqn:F.
    + destruct (np_delete t idx) as [t1| |] eqn:D; simpl in H; try discriminate.
      destruct (IH t1 t' H) as [Hs Hc].
      destruct (np_delete_sublist t idx t1 D) as [Hs1 _].
      split; [eapply sublist_trans; eauto|].
      intros b (y & Hy & Eyb) Hb.
      destruct (find_index_nth _ _ _ F) as (z & Hz & Ezx).
      pose proof (np_delete_count b t idx t1 z D Hz) as Hcount.
      pose proof (sublist_count b _ _ Hs) as Hle.
      destruct Hy as [->|Hy].
      * rewrite (box_eqb_trans _ _ _ Ezx Eyb) in Hcount. lia.
      * destruct (Nat.eq_dec (count_box b t1) 0) as [Z|NZ].
        -- destruct (box_eqb z b); lia.
        -- assert (count_box b t' < count_box b t1)%nat
             by (apply Hc; [eauto|lia]).
           destruct (box_eqb z b); lia.
    + destruct (IH t t' H) as [Hs Hc]. split; [exact Hs|].
      intros b (y & Hy & Eyb) Hb. destruct Hy as [->|Hy]; [|apply Hc; eauto].
      exfalso. rewrite count_box_zero in Hb; [lia|].
      intros z Hz. pose proof (find_index_none _ _ F z Hz) as Hzx.
      simpl in Hzx. destruct (box_eqb z b) eqn:Ezb; [|reflexivity].
      rewrite box_eqb_sym in Eyb.
      rewrite (box_eqb_trans _ _ _ Ezb Eyb) in Hzx. discriminate.
Qed.


(** *** The ground-truth matcher *)

Lemma dict_get_set {V} (d : dict V) (k k' : Z) (v : V) :
  dict_get (dict_set d k v) k'
  = if Z.eqb k' k then Some v else dict_get d k'.
Proof.
  induction d as [|[k0 v0] t IH]; simpl; [reflexivity|].
  destruct (Z.eqb_spec k k0) as [->|Hk]; simpl.
  - now destruct (Z.eqb k' k0).
  - rewrite IH. destruct (Z.eqb_spec k' k0) as [->|Hk'];
      [|reflexivity].
    destruct (Z.eqb_spec k0 k); congruence.
Qed.

Lemma dict_keys_set {V} (d : dict V) (k : Z) (v v' : V) :
  dict_get d k = Some v -> dict_keys (dict_set d k v') = dict_keys d.
Proof.
  induction d as [|[k0 v0] t IH]; simpl; [discriminate|].
  destruct (Z.eqb k k0); simpl; [reflexivity|].
  intros H. now rewrite IH.
Qed.

Lemma dict_sub_refl (d : dict (list Box)) : dict_sub d d.
Proof.
  split; [reflexivity|]. intros k.
  destruct (dict_get d k); [apply sublist_refl|exact I].
Qed.

Lemma dict_sub_trans (d1 d2 d3 : dict (list Box)) :
  dict_sub d1 d2 -> dict_sub d2 d3 -> dict_sub d1 d3.
Proof.
  intros [K12 H12] [K23 H23]. split; [congruence|]. intros k.
  specialize (H12 k). specialize (H23 k).
  destruct (dict_get d1 k), (dict_get d2 k), (dict_get d3 k);
    try contradiction; auto.
  eapply sublist_trans; eauto.
Qed.

Lemma dict_sub_set (d : dict (list Box)) (k : Z) (l l' : list Box) :
  dict_get d k = Some l -> sublist l' l -> dict_sub (dict_set d k l') d.
Proof.
  intros Hk Hs. split; [eapply dict_keys_set; eauto|].
  intros k'. rewrite dict_get_set.
  destruct (Z.eqb_spec k' k) as [->|Hn].
  - now rewrite Hk.
  - destruct (dict_get d k'); [apply sublist_refl|exact I].
Qed.

Lemma flat_map_sublist {A B} (f' f : A -> list B) (ks : list A) :
  (forall k, sublist (f' k) (f k)) ->
  sublist (flat_map f' ks) (flat_map f ks).
Proof.
  intros H. induction ks as [|k ks IH]; simpl;
    [apply sublist_nil|now apply sublist_app].
Qed.

Lemma pool_of_sub (d' d : dict (list Box)) :
  dict_sub d' d -> sublist (pool_of d') (pool_of d).
Proof.
  intros [K H]. unfold pool_of. rewrite K. apply flat_map_sublist.
  intros k. specialize (H k).
  destruct (dict_get d' k), (dict_get d k); try contradiction;
    [exact H|apply sublist_nil].
Qed.

Lemma extend_scales_pool (keys : list Z) (d : dict (list Box)) :
  forall acc r,
    extend_scales keys d acc = Ok r ->
    r = acc ++ flat_map (fun k => match dict_get d k with
                                  | Some l => l
                                  | None => []
                                  end) keys.
Proof.
  induction keys as [|k keys IH]; intros acc r H; simpl in H.
  - injection H as <-. simpl. now rewrite app_nil_r.
  - unfold dict_getitem in H. simpl.
    destruct (dict_get d k) as [l|]; simpl in H; [|discriminate].
    rewrite (IH _ _ H). now rewrite app_assoc.
Qed.

Lemma match_scales_spec (gt : Box) (keys : list Z) :
  forall d entry found d' entry' found',
    match_scales iou_np self gt keys d entry found = Ok (d', entry', found') ->
    dict_sub d' d
    /\ (found = Nat.ltb 0 (length entry) ->
        found' = Nat.ltb 0 (length entry')).
Proof.
  induction keys as [|scale keys IH]; intros d entry found d' entry' found' H;
    simpl in H.
  - injection H as <- <- <-. split; [apply dict_sub_refl|auto].
  - unfold dict_getitem in H.
    destruct (dict_get d scale) as [boxes|] eqn:G; simpl in H; [|discriminate].
    destruct boxes as [|b0 boxes]; [now apply IH|].
    destruct (np_argmax _ _) as [idx| |]; cbn [obind] in H; try discriminate.
    destruct (nth_error _ idx) as [v|]; [|discriminate].
    destruct (Qge_bool v (iou_thresh self)); [|now apply IH].
    destruct (np_delete (b0 :: boxes) idx) as [boxes'| |] eqn:D;
      cbn [obind] in H; try discriminate.
    destruct (IH _ _ _ _ _ _ H) as [Hs Hf].
    destruct (np_delete_sublist _ _ _ D) as [Hsub _].
    split.
    + eapply dict_sub_trans; [exact Hs|]. eapply dict_sub_set; eauto.
    + intros _. apply Hf. rewrite length_app. simpl.
      symmetry. apply Nat.ltb_lt. lia.
Qed.

Lemma count_matched_app (mt : list (list (list Box))) (entry : list (list Box)) :
  count_matched (mt ++ [entry])
  = (count_matched mt + if Nat.ltb 0 (length entry) then 1 else 0)%nat.
Proof.
  unfold count_matched. rewrite filter_app, length_app. simpl.
  now destruct (Nat.ltb 0 (length entry)).
Qed.

(** Every ground-truth box is counted once: among the matched entries
    when a scale has matched it, in [gt_only_bbox_table] otherwise. *)
Lemma match_gt_spec (todo : list Box) :
  forall d mt gonly d' mt' gonly',
    match_gt iou_np self todo d mt gonly = Ok (d', mt', gonly') ->
    dict_sub d' d
    /\ length mt' = (length mt + length todo)%nat
    /\ (count_matched mt' + length gonly'
        = count_matched mt + length gonly)%nat.
Proof.
  induction todo as [|gt todo IH]; intros d mt gonly d' mt' gonly' H;
    simpl in H.
  - injection H as <- <- <-. split; [apply dict_sub_refl|].
    simpl. split; lia.
  - destruct (match_scales _ _ _ _ _ _ _) as [[[d1 entry] found]| |] eqn:M;
      simpl in H; try discriminate.
    destruct (match_scales_spec _ _ _ _ _ _ _ _ M) as [Hs Hf].
    specialize (Hf eq_refl).
    destruct (if found then _ else _) as [gonly1| |] eqn:G; simpl in H;
      try discriminate.
    destruct (IH _ _ _ _ _ _ H) as (Hs' & Hl & Hc).
    split; [eapply dict_sub_trans; eauto|].
    rewrite length_app in Hl. simpl in Hl. split; [simpl; lia|].
    rewrite count_matched_app, <- Hf in Hc.
    destruct found.
    + destruct (find_index _ gonly) as [idx|]; [|discriminate].
      destruct (np_delete_sublist _ _ _ G) as [_ L]. lia.
    + injection G as <-. lia.
Qed.



(** *** Phases 4.2 and 4.3 return *)

Lemma box_eqb_congr_l (a b c : Box) :
  box_eqb a b = true -> box_eqb a c = box_eqb b c.
Proof.
  intros H. rewrite (box_eqb_sym a c), (box_eqb_sym b c).
  symmetry. apply box_eqb_congr. now rewrite box_eqb_sym.
Qed.

Lemma find_index_some {A} (p : A -> bool) (l : list A) (x : A) :
  In x l -> p x = true -> exists i, find_index p l = Some i.
Proof.
  induction l as [|y l IH]; simpl; intros Hx Hp; [destruct Hx|].
  destruct (p y) eqn:E; [eauto|].
  destruct Hx as [->|Hx]; [congruence|].
  destruct (IH Hx Hp) as (i & ->). simpl. eauto.
Qed.

Lemma count_box_pos (b : Box) (l : list Box) :
  (1 <= count_box b l)%nat -> exists x, In x l /\ box_eqb x b = true.
Proof.
  unfold count_box. intros H.
  destruct (filter (fun x => box_eqb x b) l) as [|x t] eqn:E; [simpl in H; lia|].
  exists x. apply (proj1 (filter_In (fun y => box_eqb y b) x l)).
  rewrite E. now left.
Qed.

Lemma find_delete_ok {A} (p : A -> bool) (l : list A) (x : A) :
  In x l -> p x = true ->
  exists i y l',
    find_index p l = Some i /\ nth_error l i = Some y /\ p y = true
    /\ np_delete l i = Ok l'.
Proof.
  intros Hx Hp. destruct (find_index_some p l x Hx Hp) as (i & Hi).
  destruct (find_index_nth p l i Hi) as (y & Hy & Hpy).
  destruct (@np_delete_ok _ l i (@find_index_bound _ p l i Hi)) as (l' & Hd & _).
  exists i, y, l'. auto.
Qed.

Lemma match_scales_total (gt : Box) (keys : list Z) :
  forall d entry found,
    (forall k, In k keys -> In k (dict_keys d)) ->
    exists r, match_scales iou_np self gt keys d entry found = Ok r.
Proof.
  induction keys as [|scale keys IH]; intros d entry found Hk; simpl; [eauto|].
  unfold dict_getitem.
  destruct (dict_get_key d scale (Hk scale (or_introl eq_refl)))
    as (boxes & G). rewrite G. cbn [obind].
  assert (Hk' : forall k, In k keys -> In k (dict_keys d))
    by (intros k Hin; apply Hk; now right).
  destruct boxes as [|b0 boxes]; [now apply IH|].
  set (bs := b0 :: boxes) in *.
  destruct (np_argmax_ok (fun a b => Qgt_bool b a) (iou_np gt b0)
              (map (fun x => iou_np gt x) boxes)) as (idx & Ei & Li).
  change (iou_np gt b0 :: map (fun x => iou_np gt x) boxes)
    with (map (fun x => iou_np gt x) bs) in Ei, Li.
  rewrite Ei. cbn [obind].
  destruct (nth_error (map (fun x => iou_np gt x) bs) idx) as [v|] eqn:En.
  2:{ apply nth_error_None in En. lia. }
  destruct (Qge_bool v (iou_thresh self)); [|now apply IH].
  rewrite length_map in Li.
  destruct (@np_delete_ok _ bs idx Li) as (bs' & -> & _). cbn [obind].
  apply IH. intros k Hin. rewrite (dict_keys_set d scale bs bs' G). auto.
Qed.

(** The scan for the matched ground-truth box finds it: the boxes still
    to come are all in [gt_only_bbox_table]. *)
Lemma match_gt_total (todo : list Box) :
  forall d mt gonly,
    (forall b, (count_box b todo <= count_box b gonly)%nat) ->
    exists r, match_gt iou_np self todo d mt gonly = Ok r.
Proof.
  induction todo as [|g todo IH]; intros d mt gonly Hc; simpl; [eauto|].
  destruct (match_scales_total g (sorted Z.leb (dict_keys d)) d [] false
              (fun k => sorted_In_inv Z.leb k (dict_keys d)))
    as ([[d1 entry] found] & ->).
  cbn [obind].
  assert (Hrest : forall b, (count_box b todo <= count_box b (g :: todo))%nat).
  { intros b. unfold count_box. simpl. destruct (box_eqb g b); simpl; lia. }
  destruct found.
  - assert (Hg : (1 <= count_box g gonly)%nat).
    { specialize (Hc g). unfold count_box in Hc at 1. simpl in Hc.
      rewrite box_eqb_refl in Hc. simpl in Hc. lia. }
    destruct (count_box_pos g gonly Hg) as (x & Hx & Ex).
    destruct (find_delete_ok (fun g' => box_eqb g' g) gonly x Hx Ex)
      as (i & z & gonly' & -> & Hz & Ez & Hd).
    rewrite Hd. cbn [obind]. apply IH. intros b.
    pose proof (np_delete_count b gonly i gonly' z Hd Hz) as Hn.
    specialize (Hc b). unfold count_box in Hc at 1. simpl in Hc.
    rewrite <- (box_eqb_congr_l z g b Ez) in Hc.
    unfold count_box in *.
    destruct (box_eqb z b); simpl in Hc; lia.
  - cbn [obind]. apply IH. intros b.
    specialize (Hc b). specialize (Hrest b). lia.
Qed.

Lemma remove_boxes_total (items : list Box) :
  forall t, exists t', remove_boxes items t = Ok t'.
Proof.
  induction items as [|x items IH]; intros t; simpl; [eauto|].
  destruct (find_index (fun dstbbox => box_eqb dstbbox x) t) as [idx|] eqn:F;
    [|apply IH].
  destruct (@np_delete_ok _ t idx (@find_index_bound _ _ t idx F)) as (t1 & -> & _).
  cbn [obind]. apply IH.
Qed.

Lemma sublist_length {A} (l' l : list A) :
  sublist l' l -> (length l' <= length l)%nat.
Proof. induction 1; simpl; lia. Qed.

Lemma sublist_shorter (b : Box) (l' l : list Box) :
  sublist l' l ->
  (count_box b l' < count_box b l)%nat ->
  (length l' < length l)%nat.
Proof.
  unfold count_box.
  induction 1 as [|x l' l H IH|x l' l H IH]; simpl; intros Hc; [lia| |].
  - pose proof (sublist_length l' l H). lia.
  - destruct (box_eqb x b); simpl in Hc; specialize (IH ltac:(lia)); lia.
Qed.



End NoDoubleConsumption.

(** ** What the matcher reads and what it leaves in the store *)

Lemma same_read_ret {A} (a : A) (h1 h2 : heap) : same_read (ret a) h1 h2.
Proof. unfold same_read, ret. auto. Qed.

Lemma same_read_lift {A} (m : outcome A) (h1 h2 : heap) :
  same_read (lift m) h1 h2.
Proof. unfold same_read, lift. destruct m; auto. Qed.

Lemma same_read_bind {A B} (m : Py A) (f : A -> Py B) (h1 h2 : heap) :
  same_read m h1 h2 ->
  (forall a, m h1 = Ok (a, h1) -> same_read (f a) h1 h2) ->
  same_read (bind m f) h1 h2.
Proof.
  unfold same_read, bind. intros Hm Hf.
  destruct (m h1) as [[a h]| |] eqn:E.
  - destruct Hm as [-> ->]. now apply Hf.
  - now rewrite Hm.
  - now rewrite Hm.
Qed.

Lemma same_read_deref (r : ref) (h1 h2 : heap) :
  nth_error h2 r = nth_error h1 r -> same_read (deref r) h1 h2.
Proof.
  unfold same_read, deref. intros ->. destruct (nth_error h1 r); auto.
Qed.

Lemma deref_inv (r : ref) (h h' : heap) (o : pyobj) :
  deref r h = Ok (o, h') -> nth_error h r = Some o.
Proof.
  unfold deref. destruct (nth_error h r); [|discriminate]. congruence.
Qed.

Lemma load_dict_inv (r : ref) (h h' : heap) (d : dict ref) :
  load_dict r h = Ok (d, h') -> nth_error h r = Some (PyDict d).
Proof.
  unfold load_dict, bind. destruct (deref r h) as [[o h0]| |] eqn:E;
    try discriminate.
  apply deref_inv in E. destruct o; unfold lift, ret; try discriminate.
  congruence.
Qed.

Lemma lift_getitem_inv (d : dict ref) (k : Z) (h h' : heap) (r : ref) :
  lift (dict_getitem d k) h = Ok (r, h') -> dict_get d k = Some r.
Proof.
  unfold lift, dict_getitem. destruct (dict_get d k); [|discriminate].
  congruence.
Qed.

Section Reads.

Variable iou_np : Box -> Box -> Q.
Variable xywh2xyminmax : Q * Q * Q * Q -> Box.
Variable cocoid2classid : Z -> Z.
Variable self : MultiscaleGenerator.
Variables bboxes_scales cls_scales scores_scales : ref.
Variables h1 h2 : heap.

Hypothesis agree :
  forall r,
    inputs_of self bboxes_scales cls_scales scores_scales h1 r ->
    nth_error h2 r = nth_error h1 r.

Lemma same_read_load (A : Type) (get : pyobj -> Py A) (r : ref) :
  inputs_of self bboxes_scales cls_scales scores_scales h1 r ->
  (forall o, same_read (get o) h1 h2) ->
  same_read (bind (deref r) get) h1 h2.
Proof.
  intros Hr Hg. apply same_read_bind; [|intros o _; apply Hg].
  apply same_read_deref. now apply agree.
Qed.

Lemma same_read_load_dict (r : ref) :
  inputs_of self bboxes_scales cls_scales scores_scales h1 r ->
  same_read (load_dict r) h1 h2.
Proof.
  intros Hr. apply same_read_load; [exact Hr|].
  intros []; first [apply same_read_ret | apply same_read_lift].
Qed.

Lemma same_read_load_boxes (r : ref) :
  inputs_of self bboxes_scales cls_scales scores_scales h1 r ->
  same_read (load_boxes r) h1 h2.
Proof.
  intros Hr. apply same_read_load; [exact Hr|].
  intros []; first [apply same_read_ret | apply same_read_lift].
Qed.

Lemma same_read_load_ints (r : ref) :
  inputs_of self bboxes_scales cls_scales scores_scales h1 r ->
  same_read (load_ints r) h1 h2.
Proof.
  intros Hr. apply same_read_load; [exact Hr|].
  intros []; first [apply same_read_ret | apply same_read_lift].
Qed.

Lemma same_read_load_floats (r : ref) :
  inputs_of self bboxes_scales cls_scales scores_scales h1 r ->
  same_read (load_floats r) h1 h2.
Proof.
  intros Hr. apply same_read_load; [exact Hr|].
  intros []; first [apply same_read_ret | apply same_read_lift].
Qed.

Lemma same_read_load_gt (image_name : Z) :
  same_read (load_gt xywh2xyminmax cocoid2classid self image_name) h1 h2.
Proof.
  unfold load_gt, load_annotations. apply same_read_bind.
  - apply same_read_load; [unfold inputs_of; tauto|].
    intros []; first [apply same_read_ret | apply same_read_lift].
  - intros m _. apply same_read_ret.
Qed.

(** An array named by one of the three dictionaries is an input. *)
Lemma named_is_input (dref : ref) (d : dict ref) (scale : Z) (r : ref)
    (h h' : heap) :
  dref = bboxes_scales \/ dref = cls_scales \/ dref = scores_scales ->
  load_dict dref h1 = Ok (d, h) ->
  lift (dict_getitem d scale) h1 = Ok (r, h') ->
  inputs_of self bboxes_scales cls_scales scores_scales h1 r.
Proof.
  intros Hd Hl Hg. apply load_dict_inv in Hl. apply lift_getitem_inv in Hg.
  unfold inputs_of. do 4 right. exists d, scale. split; [|exact Hg].
  destruct Hd as [->|[->| ->]]; auto.
Qed.

Lemma same_read_collect (todo : list Z) :
  forall infer_objects,
    same_read (collect_infer_objects self bboxes_scales cls_scales
                 scores_scales todo infer_objects) h1 h2.
Proof.
  induction todo as [|scale todo IH]; intros io; simpl;
    [apply same_read_ret|].
  apply same_read_bind; [apply same_read_load_dict; unfold inputs_of; tauto|].
  intros bd Hbd.
  apply same_read_bind; [apply same_read_lift|]. intros rb Hrb.
  apply same_read_bind.
  { apply same_read_load_boxes.
    eapply named_is_input; [|exact Hbd|exact Hrb]. auto. }
  intros bboxes _.
  apply same_read_bind; [apply same_read_load_dict; unfold inputs_of; tauto|].
  intros cd Hcd.
  apply same_read_bind; [apply same_read_lift|]. intros rc Hrc.
  apply same_read_bind.
  { apply same_read_load_ints.
    eapply named_is_input; [|exact Hcd|exact Hrc]. auto. }
  intros cls _.
  apply same_read_bind; [apply same_read_load_dict; unfold inputs_of; tauto|].
  intros sd Hsd.
  apply same_read_bind; [apply same_read_lift|]. intros rs Hrs.
  apply same_read_bind.
  { apply same_read_load_floats.
    eapply named_is_input; [|exact Hsd|exact Hrs]. auto. }
  intros scores _.
  destruct bboxes as [|b0 bboxes]; [apply IH|].
  apply same_read_bind; [apply same_read_lift|]. intros [bboxes' cls'] _.
  apply same_read_bind; [apply same_read_lift|]. intros io' _.
  apply IH.
Qed.

Lemma same_read_concat_cls (todo : list Z) :
  same_read (concat_cls cls_scales todo) h1 h2.
Proof.
  induction todo as [|scale todo IH]; simpl; [apply same_read_ret|].
  apply same_read_bind; [apply same_read_load_dict; unfold inputs_of; tauto|].
  intros cd Hcd.
  apply same_read_bind; [apply same_read_lift|]. intros rc Hrc.
  apply same_read_bind.
  { apply same_read_load_ints.
    eapply named_is_input; [|exact Hcd|exact Hrc]. auto. }
  intros cls _.
  apply same_read_bind; [exact IH|]. intros more _. apply same_read_ret.
Qed.

Lemma same_read_inputs (image_name : Z) :
  same_read (read_inputs xywh2xyminmax cocoid2classid self image_name
               bboxes_scales cls_scales scores_scales) h1 h2.
Proof.
  unfold read_inputs.
  apply same_read_bind; [apply same_read_load_gt|]. intros [o_cls o_bboxes] _.
  apply same_read_bind; [apply same_read_collect|]. intros io _.
  apply same_read_bind; [apply same_read_concat_cls|]. intros all_cls _.
  apply same_read_ret.
Qed.

End Reads.

Section Frame.

Variable iou_np : Box -> Box -> Q.
Variable xywh2xyminmax : Q * Q * Q * Q -> Box.
Variable cocoid2classid : Z -> Z.
Variable self : MultiscaleGenerator.

Local Abbreviation matcher :=
  (multiscale_match iou_np xywh2xyminmax cocoid2classid self).
Local Abbreviation reader :=
  (read_inputs xywh2xyminmax cocoid2classid self).

(** The matcher reads its inputs, computes [reconcile] on them and only
    adds objects to the store. *)
Lemma multiscale_match_spec (image_name : Z)
    (bboxes_scales cls_scales scores_scales : ref) (h : heap)
    (inputs : list Z * list Box * infer_table * list Z) :
  reader image_name bboxes_scales cls_scales scores_scales h = Ok (inputs, h) ->
  match reconcile iou_np self inputs with
  | Ok t =>
      exists h',
        matcher image_name bboxes_scales cls_scales scores_scales h = Ok (t, h')
        /\ (length h <= length h')%nat
        /\ preserves (length h) h h'
  | Raise e =>
      matcher image_name bboxes_scales cls_scales scores_scales h = Raise e
  | Diverge =>
      matcher image_name bboxes_scales cls_scales scores_scales h = Diverge
  end.
Proof.
  intros Hr. unfold multiscale_match. rewrite (bind_ok _ _ _ _ _ Hr).
  destruct inputs as [[[o_cls o_bboxes] io] all_cls]. unfold reconcile.
  rewrite bind_lift.
  destruct (per_class_phases _ _ _ _ _ _) as [t| |]; cbn [obind];
    try reflexivity.
  rewrite bind_lift.
  destruct (flatten_tables t) as [[[m g] i]| |]; cbn [obind];
    try reflexivity.
  pose proof (conflict_resolver_spec iou_np self m g i h) as Sp.
  destruct (resolver_values iou_np self m g i) as [[[m' g'] i']| |];
    cbn [obind]; [|now apply bind_raise|now apply bind_diverge].
  destruct Sp as (h' & E & L & P).
  rewrite (bind_ok _ _ _ _ _ E). exists h'. auto.
Qed.

Lemma read_inputs_same_store (image_name : Z)
    (bboxes_scales cls_scales scores_scales : ref) (h h' : heap)
    (inputs : list Z * list Box * infer_table * list Z) :
  reader image_name bboxes_scales cls_scales scores_scales h = Ok (inputs, h') ->
  h' = h.
Proof.
  intros Hr.
  pose proof (same_read_inputs xywh2xyminmax cocoid2classid self
                bboxes_scales cls_scales scores_scales h h
                (fun r _ => eq_refl) image_name) as S.
  unfold same_read in S. rewrite Hr in S. apply S.
Qed.

(** C10.  A call of [multiscale_match] that returns leaves every object
    that was in the store before the call as it was: the three
    dictionaries, the arrays they name and the annotation map among
    them.  The arrays it writes to are arrays it has made. *)
Theorem multiscale_match_preserves_inputs (image_name : Z)
    (bboxes_scales cls_scales scores_scales : ref) (h h' : heap) (t : tables) :
  matcher image_name bboxes_scales cls_scales scores_scales h = Ok (t, h') ->
  forall r, (r < length h)%nat -> nth_error h' r = nth_error h r.
Proof.
  intros Hm.
  destruct (reader image_name bboxes_scales cls_scales scores_scales h)
    as [[inputs h0]| |] eqn:Hr.
  - pose proof (read_inputs_same_store _ _ _ _ _ _ _ Hr) as ->.
    pose proof (multiscale_match_spec _ _ _ _ _ _ Hr) as Sp.
    destruct (reconcile iou_np self inputs) as [t0| |];
      try (rewrite Sp in Hm; discriminate).
    destruct Sp as (h1 & E & _ & P). rewrite E in Hm.
    injection Hm as _ <-. exact P.
  - unfold multiscale_match in Hm. rewrite (bind_raise _ _ _ _ Hr) in Hm.
    discriminate.
  - unfold multiscale_match in Hm. rewrite (bind_diverge _ _ _ Hr) in Hm.
    discriminate.
Qed.

(** C8.  Two runs of [multiscale_match] with the same generator and
    image, in two stores that hold the same annotation map, the same
    three dictionaries and the same arrays under their names, return
    the same three tables, or raise the same exception; whatever else
    the stores hold, and wherever new arrays are placed, has no part in
    the result. *)
Theorem multiscale_match_deterministic (image_name : Z)
    (bboxes_scales cls_scales scores_scales : ref) (h1 h2 : heap) :
  (forall r,
      inputs_of self bboxes_scales cls_scales scores_scales h1 r ->
      nth_error h2 r = nth_error h1 r) ->
  value_of (matcher image_name bboxes_scales cls_scales scores_scales h1)
  = value_of (matcher image_name bboxes_scales cls_scales scores_scales h2).
Proof.
  intros Ha.
  pose proof (same_read_inputs xywh2xyminmax cocoid2classid self
                bboxes_scales cls_scales scores_scales h1 h2 Ha image_name)
    as S.
  unfold same_read in S.
  destruct (reader image_name bboxes_scales cls_scales scores_scales h1)
    as [[inputs h0]| |] eqn:Hr.
  - destruct S as [-> Hr2].
    pose proof (multiscale_match_spec _ _ _ _ _ _ Hr) as Sp1.
    pose proof (multiscale_match_spec _ _ _ _ _ _ Hr2) as Sp2.
    destruct (reconcile iou_np self inputs) as [t0| |].
    + destruct Sp1 as (h1' & -> & _). destruct Sp2 as (h2' & -> & _).
      reflexivity.
    + now rewrite Sp1, Sp2.
    + now rewrite Sp1, Sp2.
  - unfold multiscale_match.
    now rewrite (bind_raise _ _ _ _ Hr), (bind_raise _ _ _ _ S).
  - unfold multiscale_match.
    now rewrite (bind_diverge _ _ _ Hr), (bind_diverge _ _ _ S).
Qed.

End Frame.

Lemma multiscale_match_preserves_inputs_witness :
  exists t h',
    multiscale_match iou to_min_max (fun c => c) three_scale_generator
      7%Z 10%nat 11%nat 12%nat store_D = Ok (t, h')
    /\ forall r, (r < length store_D)%nat ->
                 nth_error h' r = nth_error store_D r.
Proof.
  eexists. eexists. split; [vm_compute; reflexivity|].
  eapply (multiscale_match_preserves_inputs iou to_min_max (fun c => c)
            three_scale_generator 7%Z 10%nat 11%nat 12%nat store_D).
  vm_compute. reflexivity.
Defined.

Lemma multiscale_match_deterministic_witness :
  value_of (multiscale_match iou to_min_max (fun c => c) three_scale_generator
              7%Z 10%nat 11%nat 12%nat store_D)
  = value_of (multiscale_match iou to_min_max (fun c => c) three_scale_generator
                7%Z 10%nat 11%nat 12%nat
                (store_D ++ [NdInts [42%Z]; NdItems []])).
Proof.
  apply (multiscale_match_deterministic iou to_min_max (fun c => c)
           three_scale_generator 7%Z 10%nat 11%nat 12%nat store_D
           (store_D ++ [NdInts [42%Z]; NdItems []])).
  intros r Hr. apply nth_error_app1.
  destruct Hr as [->|[->|[->|[->|(d & scale & Hd & Hg)]]]];
    try (simpl; lia).
  destruct Hd as [Hd|[Hd|Hd]]; vm_compute in Hd; injection Hd as <-;
    simpl in Hg;
    repeat (match type of Hg with
            | (if ?c then _ else _) = _ => destruct c
            end;
            [injection Hg as <-; simpl; lia|]);
    discriminate.
Defined.

(** ** Lines 222-225: the confidence filter *)

Lemma take_rows_where {A} (arr : list A) :
  forall (mask : list bool) (pre : list A),
    length arr = length mask ->
    take_rows (pre ++ arr) (np_where_from (length pre) mask)
    = Ok (map fst (filter snd (combine arr mask))).
Proof.
  induction arr as [|x arr IH]; intros [|m mask] pre H; simpl in *;
    try discriminate; [reflexivity|].
  injection H as H. specialize (IH mask (pre ++ [x]) H).
  rewrite <- app_assoc, length_app in IH. simpl in IH.
  rewrite Nat.add_1_r in IH.
  destruct m; simpl.
  - rewrite nth_error_middle, IH. reflexivity.
  - exact IH.
Qed.

Lemma select_side_by_side {A B C} (f : C -> bool) (xs : list A) :
  forall (ys : list B) (zs : list C),
    length xs = length zs -> length ys = length zs ->
    map fst (filter snd (combine xs (map f zs)))
    = map (fun d => fst (fst d))
        (filter (fun d => f (snd d)) (combine (combine xs ys) zs))
    /\ map fst (filter snd (combine ys (map f zs)))
       = map (fun d => snd (fst d))
           (filter (fun d => f (snd d)) (combine (combine xs ys) zs)).
Proof.
  induction xs as [|x xs IH]; intros [|y ys] [|z zs] Hx Hy; simpl in *;
    try discriminate; [split; reflexivity|].
  injection Hx as Hx. injection Hy as Hy.
  destruct (IH ys zs Hx Hy) as [E1 E2].
  destruct (f z); simpl; rewrite E1, E2; split; reflexivity.
Qed.

(** C9 as stated fails: the same detection, alone in its image, is
    promoted to a matched entry with score 0.9 and is in no table with
    score 0.3, for [conf_thresh = 0.5]. *)
Lemma low_score_detection_is_dropped :
  value_of (multiscale_match iou to_min_max (fun c => c) one_scale_generator
              7%Z 4%nat 5%nat 6%nat (store_one_detection (9 # 10)))
  = Ok ([(1%Z, [mkBox 0 0 10 10])], [], [])
  /\ value_of (multiscale_match iou to_min_max (fun c => c) one_scale_generator
                 7%Z 4%nat 5%nat 6%nat (store_one_detection (3 # 10)))
     = Ok ([], [], []).
Proof. split; vm_compute; reflexivity. Qed.

(** ** Sorting keeps the elements *)

Lemma insert_sorted_In {A} (leb : A -> A -> bool) (x y : A) (l : list A) :
  y = x \/ In y l -> In y (insert_sorted leb x l).
Proof.
  induction l as [|z l IH]; simpl; intros H.
  - destruct H as [->|[]]. now left.
  - destruct (leb x z); simpl.
    + destruct H as [->|[->|H]]; auto.
    + destruct H as [->|[->|H]]; auto.
Qed.

Lemma sorted_In {A} (leb : A -> A -> bool) (y : A) (l : list A) :
  In y l -> In y (sorted leb l).
Proof.
  induction l as [|x l IH]; simpl; intros H; [exact H|].
  apply insert_sorted_In. destruct H as [->|H]; auto.
Qed.

(** ** A class without ground truth *)

(** C4, as amended.  For a class with detections and no ground truth the
    detections of all scales are pooled, scales ascending, and the
    leftover rematcher runs on the pool as for any other class: what it
    promotes are the matched entries, with count 1, what it leaves is
    [infer_only], and [gt_only] is empty. *)
Theorem class_without_gt_goes_through_rematch
    (iou_np : Box -> Box -> Q) (self : MultiscaleGenerator) (class_id : Z)
    (gt_objects : dict (list Box)) (infer_objects : infer_table)
    (infer_bboxes_scales : dict (list Box)) :
  dict_get gt_objects class_id = None ->
  dict_get infer_objects class_id = Some infer_bboxes_scales ->
  match_class iou_np self class_id gt_objects infer_objects
  = ('(infer_only_bbox_table, infer_only_extras) <-
       rematch iou_np self (pool_of infer_bboxes_scales) ;;
     Ok (map (fun item => (item, 1%nat)) infer_only_extras, [],
         infer_only_bbox_table)).
Proof.
  intros Hg Hi. unfold match_class, match_class_parts. rewrite Hi, Hg.
  rewrite extend_scales_total by (intros k; apply sorted_In_inv).
  cbn [obind app]. fold (pool_of infer_bboxes_scales).
  destruct (rematch iou_np self (pool_of infer_bboxes_scales))
    as [[left extras]| |]; reflexivity.
Qed.

Lemma class_without_gt_goes_through_rematch_witness :
  match_class iou three_scale_generator 2 []
    [(2%Z, [(320%Z, [mkBox 5 5 15 15]); (480%Z, [mkBox 5 5 15 15]);
            (640%Z, [mkBox 5 5 15 15])])]
  = ('(infer_only_bbox_table, infer_only_extras) <-
       rematch iou three_scale_generator
         (pool_of [(320%Z, [mkBox 5 5 15 15]); (480%Z, [mkBox 5 5 15 15]);
                   (640%Z, [mkBox 5 5 15 15])]) ;;
     Ok (map (fun item => (item, 1%nat)) infer_only_extras, [],
         infer_only_bbox_table)).
Proof.
  apply (class_without_gt_goes_through_rematch iou three_scale_generator 2 []
           [(2%Z, [(320%Z, [mkBox 5 5 15 15]); (480%Z, [mkBox 5 5 15 15]);
                   (640%Z, [mkBox 5 5 15 15])])]
           [(320%Z, [mkBox 5 5 15 15]); (480%Z, [mkBox 5 5 15 15]);
            (640%Z, [mkBox 5 5 15 15])]);
    reflexivity.
Defined.

(** An image that lacks one of the scales makes the matcher itself raise
    a [KeyError] at line 215, and the batch ends with it: image 1 has
    boxes at both scales, image 2 at scale 320 only. *)
Lemma missing_scale_ends_batch :
  value_of
    (generate_dataset iou to_min_max (fun c => c) example_generator
       [(320%Z, [(1%Z, 1%nat); (2%Z, 1%nat)]); (640%Z, [(1%Z, 1%nat)])]
       [(320%Z, [(1%Z, 2%nat); (2%Z, 2%nat)]); (640%Z, [(1%Z, 2%nat)])]
       [(320%Z, [(1%Z, 3%nat); (2%Z, 3%nat)]); (640%Z, [(1%Z, 3%nat)])]
       [1%Z; 2%Z]
       [PyAnnotations []; NdBoxes [mkBox 0 0 10 10]; NdInts [1%Z];
        NdFloats [9 # 10]])
  = Raise KeyError.
Proof. vm_compute. reflexivity. Qed.

(** ** Lines 434-457: the class-indexed tables that come back *)

Lemma dict_get_append {V} (d : dict (list V)) (k c : Z) (v : V) :
  dict_get (dict_append d k v) c
  = if Z.eqb c k
    then Some (match dict_get d k with Some l => l ++ [v] | None => [v] end)
    else dict_get d c.
Proof.
  unfold dict_append. destruct (dict_get d k); now rewrite dict_get_set.
Qed.

Lemma regroup_from (rows : list FlatItem) :
  forall (d : dict (list Box)) (c : Z),
    dict_get (fold_left (fun d row =>
                           dict_append d (item_class row) (item_bbox row))
                rows d) c
    = match dict_get d c,
            map item_bbox (filter (fun row => Z.eqb (item_class row) c) rows) with
      | Some l, sel => Some (l ++ sel)
      | None, [] => None
      | None, sel => Some sel
      end.
Proof.
  induction rows as [|row rows IH]; intros d c; simpl.
  - destruct (dict_get d c); [now rewrite app_nil_r|reflexivity].
  - rewrite IH, dict_get_append. rewrite (Z.eqb_sym (item_class row) c).
    destruct (Z.eqb_spec c (item_class row)) as [->|Hn]; simpl.
    + destruct (dict_get d (item_class row)); [now rewrite <- app_assoc|reflexivity].
    + reflexivity.
Qed.

Lemma regroup_select (rows : list FlatItem) (c : Z) :
  dict_get (regroup rows) c
  = match filter (fun row => Z.eqb (item_class row) c) rows with
    | [] => None
    | sel => Some (map item_bbox sel)
    end.
Proof.
  unfold regroup. rewrite regroup_from. simpl.
  destruct (filter _ rows); reflexivity.
Qed.

(** X1.  Lines 434-457: regrouping the flat rows by class. Under a class the
    table holds the boxes of the rows of this class, in the order of the
    rows, and a class without a row has no key. *)
Theorem regroup_by_class (rows : list FlatItem) (c : Z) :
  dict_get (regroup rows) c
  = match filter (fun row => Z.eqb (item_class row) c) rows with
    | [] => None
    | sel => Some (map item_bbox sel)
    end.
Proof.
  exact (regroup_select rows c).
Qed.

Lemma dict_get_none_keys {V} (d : dict V) (k : Z) :
  dict_get d k = None <-> ~ In k (dict_keys d).
Proof.
  induction d as [|[k0 v0] d IH]; simpl; [tauto|].
  destruct (Z.eqb_spec k k0) as [->|Hn].
  - split; [discriminate|]. intros H. exfalso. apply H. now left.
  - rewrite IH. split; [intros H [E|E]; [congruence|auto]|tauto].
Qed.

Lemma dict_keys_set_new {V} (d : dict V) (k : Z) (v : V) :
  dict_get d k = None -> dict_keys (dict_set d k v) = dict_keys d ++ [k].
Proof.
  induction d as [|[k0 v0] d IH]; simpl; [reflexivity|].
  destruct (Z.eqb k k0); [discriminate|]. intros H. simpl. now rewrite IH.
Qed.

Lemma dict_keys_append {V} (d : dict (list V)) (k : Z) (v : V) :
  dict_keys (dict_append d k v)
  = dict_keys d ++ (if existsb (Z.eqb k) (dict_keys d) then [] else [k]).
Proof.
  unfold dict_append. destruct (dict_get d k) as [l|] eqn:E.
  - rewrite (dict_keys_set d k l _ E).
    assert (In k (dict_keys d)).
    { destruct (in_dec Z.eq_dec k (dict_keys d)) as [H|H]; [exact H|].
      apply dict_get_none_keys in H. congruence. }
    replace (existsb (Z.eqb k) (dict_keys d)) with true;
      [now rewrite app_nil_r|].
    symmetry. apply existsb_exists. exists k. split; [exact H|apply Z.eqb_refl].
  - rewrite (dict_keys_set_new d k _ E).
    replace (existsb (Z.eqb k) (dict_keys d)) with false; [reflexivity|].
    symmetry. apply not_true_is_false. intros H.
    apply existsb_exists in H as (x & Hx & Ex). apply Z.eqb_eq in Ex. subst x.
    apply dict_get_none_keys in E. contradiction.
Qed.

Lemma filter_filter {A} (p q : A -> bool) (l : list A) :
  filter p (filter q l) = filter (fun x => q x && p x) l.
Proof.
  induction l as [|x l IH]; simpl; [reflexivity|].
  destruct (q x); simpl; [destruct (p x)|]; now rewrite IH.
Qed.

Lemma first_seen_filter (l : list Z) (p : Z -> bool) :
  first_seen (filter p l) = filter p (first_seen l).
Proof.
  induction l as [|x l IH]; simpl; [reflexivity|].
  destruct (p x) eqn:E; simpl.
  - rewrite IH, !filter_filter. f_equal. apply filter_ext.
    intros a. apply andb_comm.
  - rewrite IH, filter_filter. apply filter_ext_in. intros a Ha.
    destruct (Z.eqb_spec a x) as [->|Hn]; simpl.
    + now rewrite E.
    + reflexivity.
Qed.

Lemma regroup_keys_from (rows : list FlatItem) :
  forall d : dict (list Box),
    dict_keys (fold_left (fun d row =>
                            dict_append d (item_class row) (item_bbox row))
                 rows d)
    = dict_keys d
      ++ filter (fun c => negb (existsb (Z.eqb c) (dict_keys d)))
           (first_seen (map item_class rows)).
Proof.
  induction rows as [|row rows IH]; intros d; simpl.
  - now rewrite app_nil_r.
  - rewrite IH, dict_keys_append.
    set (k := item_class row). set (ks := dict_keys d).
    destruct (existsb (Z.eqb k) ks) eqn:E; simpl.
    + rewrite app_nil_r. f_equal.
      rewrite filter_filter. apply filter_ext_in. intros a Ha.
      destruct (Z.eqb_spec a k) as [->|Hn]; simpl.
      * now rewrite E.
      * reflexivity.
    + rewrite <- app_assoc. simpl. f_equal. f_equal.
      rewrite filter_filter. apply filter_ext. intros a.
      rewrite existsb_app. simpl. rewrite orb_false_r, negb_orb.
      rewrite (Z.eqb_sym a k). apply andb_comm.
Qed.

Lemma regroup_keys (rows : list FlatItem) :
  dict_keys (regroup rows) = first_seen (map item_class rows).
Proof.
  unfold regroup. rewrite regroup_keys_from. simpl.
  apply filter_all. apply Forall_forall. auto.
Qed.

(** ** Lines 357-370 and 434-457: flattening, then regrouping *)

Lemma dict_get_In {V} (d : dict V) (k : Z) (v : V) :
  dict_get d k = Some v -> In (k, v) d.
Proof.
  induction d as [|[k0 v0] d IH]; simpl; [discriminate|].
  destruct (Z.eqb_spec k k0) as [->|Hn]; intros H.
  - injection H as ->. now left.
  - right. now apply IH.
Qed.

Lemma flatten_ok {V} (row : Z -> V -> FlatItem) (d : dict (list V))
    (keys : list Z) :
  (forall k, In k keys -> In k (dict_keys d)) ->
  flatten row keys d
  = Ok (flat_map (fun k => map (row k)
                             match dict_get d k with
                             | Some l => l
                             | None => []
                             end) keys).
Proof.
  induction keys as [|k keys IH]; intros Hk; simpl; [reflexivity|].
  unfold dict_getitem.
  destruct (dict_get_key d k (Hk k (or_introl eq_refl))) as (l & ->).
  simpl. rewrite IH by (intros k' Hk'; apply Hk; now right). reflexivity.
Qed.

Lemma insert_sorted_NoDup {A} (leb : A -> A -> bool) (x : A) (l : list A) :
  ~ In x l -> NoDup l -> NoDup (insert_sorted leb x l).
Proof.
  intros Hx Hl. induction Hl as [|y l Hy Hl IH]; simpl.
  - constructor; [exact Hx|constructor].
  - destruct (leb x y).
    + constructor; [exact Hx|now constructor].
    + constructor.
      * intros H. apply insert_sorted_In_inv in H. destruct H as [->|H].
        -- apply Hx. now left.
        -- contradiction.
      * apply IH. intros H. apply Hx. now right.
Qed.

Lemma sorted_NoDup {A} (leb : A -> A -> bool) (l : list A) :
  NoDup l -> NoDup (sorted leb l).
Proof.
  induction 1 as [|x l Hx Hl IH]; simpl; [constructor|].
  apply insert_sorted_NoDup; [|exact IH].
  intros H. apply Hx. eapply sorted_In_inv; eauto.
Qed.

Lemma select_block {B} (f : Z -> list B) (c : Z) (keys : list Z) :
  NoDup keys ->
  flat_map (fun k => if Z.eqb k c then f k else []) keys
  = if existsb (Z.eqb c) keys then f c else [].
Proof.
  induction 1 as [|k keys Hk Hn IH]; simpl; [reflexivity|].
  rewrite IH, (Z.eqb_sym c k).
  destruct (Z.eqb_spec k c) as [->|Hne]; simpl; [|reflexivity].
  replace (existsb (Z.eqb c) keys) with false; [now rewrite app_nil_r|].
  symmetry. apply not_true_is_false. intros H.
  apply existsb_exists in H as (x & Hx & Ex). apply Z.eqb_eq in Ex.
  subst x. contradiction.
Qed.

Lemma first_seen_blocks (n : Z -> nat) (keys : list Z) :
  NoDup keys ->
  (forall k, In k keys -> (1 <= n k)%nat) ->
  first_seen (flat_map (fun k => repeat k (n k)) keys) = keys.
Proof.
  induction 1 as [|k keys Hk Hn IH]; intros Hpos; simpl; [reflexivity|].
  destruct (n k) as [|j] eqn:E;
    [specialize (Hpos k (or_introl eq_refl)); lia|].
  simpl. f_equal. rewrite <- first_seen_filter, filter_app.
  rewrite (filter_none (fun y => negb (Z.eqb y k)) (l := repeat k j)).
  - simpl. rewrite filter_all.
    + apply IH. intros k' Hk'. apply Hpos. now right.
    + apply Forall_forall. intros x Hx.
      apply in_flat_map in Hx as (k' & Hk' & Hx). apply repeat_spec in Hx.
      subst x. destruct (Z.eqb_spec k' k) as [->|]; [contradiction|reflexivity].
  - apply Forall_forall. intros x Hx. apply repeat_spec in Hx. subst x.
    now rewrite Z.eqb_refl.
Qed.

Lemma flatten_regroup {V} (row : Z -> V -> FlatItem) (box : V -> Box)
    (d : dict (list V)) :
  (forall k v, item_class (row k v) = k) ->
  (forall k v, item_bbox (row k v) = box v) ->
  proper_table d ->
  exists rows,
    flatten row (sorted Z.leb (dict_keys d)) d = Ok rows
    /\ (forall c, dict_get (regroup rows) c
                  = option_map (map box) (dict_get d c))
    /\ dict_keys (regroup rows) = sorted Z.leb (dict_keys d).
Proof.
  intros Hc Hb [Hnd Hne].
  set (keys := sorted Z.leb (dict_keys d)).
  set (f := fun k => match dict_get d k with Some l => l | None => [] end).
  assert (Hk : forall k, In k keys -> In k (dict_keys d))
    by (intros k; apply sorted_In_inv).
  assert (Hkn : NoDup keys) by now apply sorted_NoDup.
  exists (flat_map (fun k => map (row k) (f k)) keys).
  split; [now apply flatten_ok|]. split.
  - intros c. rewrite regroup_select.
    assert (E : filter (fun r => Z.eqb (item_class r) c)
                  (flat_map (fun k => map (row k) (f k)) keys)
                = flat_map (fun k => if Z.eqb k c then map (row k) (f k) else [])
                    keys).
    { clear - Hc. induction keys as [|k keys IH]; simpl; [reflexivity|].
      rewrite filter_app, IH. f_equal.
      destruct (Z.eqb_spec k c) as [->|Hn].
      - apply filter_all. apply Forall_forall. intros x Hx.
        apply in_map_iff in Hx as (v & <- & _). rewrite Hc. apply Z.eqb_refl.
      - apply filter_none. apply Forall_forall. intros x Hx.
        apply in_map_iff in Hx as (v & <- & _). rewrite Hc.
        now apply Z.eqb_neq. }
    rewrite E, (select_block (fun k => map (row k) (f k)) c keys Hkn).
    unfold f. destruct (dict_get d c) as [l|] eqn:G.
    + assert (Hin : In c keys).
      { apply sorted_In.
        destruct (in_dec Z.eq_dec c (dict_keys d)) as [H|H]; [exact H|].
        apply dict_get_none_keys in H. congruence. }
      replace (existsb (Z.eqb c) keys) with true.
      2:{ symmetry. apply existsb_exists. exists c.
          split; [exact Hin|apply Z.eqb_refl]. }
      rewrite Forall_forall in Hne. pose proof (Hne _ (dict_get_In _ _ _ G)) as Hl.
      simpl in Hl. destruct l as [|v l]; [congruence|]. simpl.
      rewrite map_map, !Hb. f_equal. f_equal. apply map_ext. intros a. apply Hb.
    + destruct (existsb (Z.eqb c) keys); reflexivity.
  - rewrite regroup_keys, flat_map_concat_map, concat_map, map_map.
    rewrite <- flat_map_concat_map.
    rewrite (flat_map_ext _ (fun k => repeat k (length (f k)))).
    + apply first_seen_blocks; [exact Hkn|].
      intros k Hin. apply Hk in Hin.
      destruct (dict_get_key d k Hin) as (l & G). unfold f. rewrite G.
      rewrite Forall_forall in Hne. pose proof (Hne _ (dict_get_In _ _ _ G)) as Hl.
      simpl in Hl. destruct l; [congruence|simpl; lia].
    + intros k. rewrite map_map. clear - Hc.
      induction (f k) as [|v l IH]; simpl; [reflexivity|]. now rewrite Hc, IH.
Qed.

(** X2.  Flattening the per-class tables and regrouping the rows gives the
    tables back, classes ascending; the occurrence counts are dropped. *)
Theorem flatten_then_regroup (match_table_all : dict (list (Box * nat)))
    (gt_only_bbox_table_all infer_only_bbox_table_all : dict (list Box)) :
  proper_table match_table_all ->
  proper_table gt_only_bbox_table_all ->
  proper_table infer_only_bbox_table_all ->
  exists m g i,
    flatten_tables (match_table_all, gt_only_bbox_table_all,
                    infer_only_bbox_table_all) = Ok (m, g, i)
    /\ (forall c, dict_get (regroup m) c
                  = option_map (map fst) (dict_get match_table_all c))
    /\ (forall c, dict_get (regroup g) c = dict_get gt_only_bbox_table_all c)
    /\ (forall c, dict_get (regroup i) c
                  = dict_get infer_only_bbox_table_all c)
    /\ dict_keys (regroup m) = sorted Z.leb (dict_keys match_table_all)
    /\ dict_keys (regroup g) = sorted Z.leb (dict_keys gt_only_bbox_table_all)
    /\ dict_keys (regroup i)
       = sorted Z.leb (dict_keys infer_only_bbox_table_all).
Proof.
  intros Hm Hg Hi.
  destruct (flatten_regroup (fun class_id p => mkItem (fst p) class_id (snd p))
              fst match_table_all (fun _ _ => eq_refl) (fun _ _ => eq_refl) Hm)
    as (m & Em & Gm & Km).
  destruct (flatten_regroup (fun class_id b => mkItem b class_id 1)
              (fun b => b) gt_only_bbox_table_all
              (fun _ _ => eq_refl) (fun _ _ => eq_refl) Hg)
    as (g & Eg & Gg & Kg).
  destruct (flatten_regroup (fun class_id b => mkItem b class_id 1)
              (fun b => b) infer_only_bbox_table_all
              (fun _ _ => eq_refl) (fun _ _ => eq_refl) Hi)
    as (i & Ei & Gi & Ki).
  exists m, g, i. unfold flatten_tables, flatten_matched, flatten_boxes.
  rewrite Em, Eg, Ei. simpl.
  repeat split; auto.
  - intros c. rewrite Gg. destruct (dict_get _ c); simpl; [|reflexivity].
    now rewrite map_id.
  - intros c. rewrite Gi. destruct (dict_get _ c); simpl; [|reflexivity].
    now rewrite map_id.
Qed.

Lemma flatten_then_regroup_witness :
  exists m g i,
    flatten_tables ([(2%Z, [(mkBox 5 5 15 15, 3%nat)]);
                     (1%Z, [(mkBox 0 0 10 10, 1%nat)])],
                    [(1%Z, [mkBox 1 1 9 9; mkBox 20 20 30 30])], [])
    = Ok (m, g, i)
    /\ (forall c,
          dict_get (regroup m) c
          = option_map (map fst)
              (dict_get [(2%Z, [(mkBox 5 5 15 15, 3%nat)]);
                         (1%Z, [(mkBox 0 0 10 10, 1%nat)])] c))
    /\ (forall c,
          dict_get (regroup g) c
          = dict_get [(1%Z, [mkBox 1 1 9 9; mkBox 20 20 30 30])] c)
    /\ (forall c, dict_get (regroup i) c = dict_get [] c)
    /\ dict_keys (regroup m)
       = sorted Z.leb (dict_keys [(2%Z, [(mkBox 5 5 15 15, 3%nat)]);
                                  (1%Z, [(mkBox 0 0 10 10, 1%nat)])])
    /\ dict_keys (regroup g)
       = sorted Z.leb (dict_keys [(1%Z, [mkBox 1 1 9 9; mkBox 20 20 30 30])])
    /\ dict_keys (regroup i)
       = sorted Z.leb (dict_keys ([] : dict (list Box))).
Proof.
  apply (flatten_then_regroup
           [(2%Z, [(mkBox 5 5 15 15, 3%nat)]); (1%Z, [(mkBox 0 0 10 10, 1%nat)])]
           [(1%Z, [mkBox 1 1 9 9; mkBox 20 20 30 30])] []).
  - split; [|repeat constructor; discriminate].
    repeat constructor; simpl; intuition discriminate.
  - split; [|repeat constructor; discriminate].
    repeat constructor; simpl; intuition.
  - split; constructor.
Defined.

(** ** Reading a well-formed store *)

Lemma load_dict_at (h : heap) (r : ref) (d : dict ref) :
  nth_error h r = Some (PyDict d) -> load_dict r h = Ok (d, h).
Proof. intros H. unfold load_dict, bind, deref. now rewrite H. Qed.

Lemma load_boxes_at (h : heap) (r : ref) (rows : list Box) :
  nth_error h r = Some (NdBoxes rows) -> load_boxes r h = Ok (rows, h).
Proof. intros H. unfold load_boxes, bind, deref. now rewrite H. Qed.

Lemma load_ints_at (h : heap) (r : ref) (xs : list Z) :
  nth_error h r = Some (NdInts xs) -> load_ints r h = Ok (xs, h).
Proof. intros H. unfold load_ints, bind, deref. now rewrite H. Qed.

Lemma load_floats_at (h : heap) (r : ref) (xs : list Q) :
  nth_error h r = Some (NdFloats xs) -> load_floats r h = Ok (xs, h).
Proof. intros H. unfold load_floats, bind, deref. now rewrite H. Qed.

Lemma load_annotations_at (h : heap) (r : ref) (m : dict (list Annotation)) :
  nth_error h r = Some (PyAnnotations m) -> load_annotations r h = Ok (m, h).
Proof. intros H. unfold load_annotations, bind, deref. now rewrite H. Qed.

Lemma np_where_none (mask : list bool) :
  Forall (fun b => b = false) mask ->
  forall i, np_where_from i mask = [].
Proof.
  induction 1 as [|b mask Hb _ IH]; intros i; simpl; [reflexivity|].
  rewrite Hb. apply IH.
Qed.

Section NoDetection.

Variable iou_np : Box -> Box -> Q.
Variable xywh2xyminmax : Q * Q * Q * Q -> Box.
Variable cocoid2classid : Z -> Z.
Variable self : MultiscaleGenerator.

Lemma above_conf_none (bboxes : list Box) (cls : list Z) (scores : list Q) :
  Forall (fun s => s <= conf_thresh self) scores ->
  above_conf self bboxes cls scores = Ok ([], []).
Proof.
  intros H. unfold above_conf, np_where.
  rewrite np_where_none; [reflexivity|].
  apply Forall_map. revert H. apply Forall_impl. intros s Hs.
  unfold Qgt_bool. apply negb_false_iff. now apply Qle_bool_iff.
Qed.

Lemma collect_no_detection (bboxes_scales cls_scales scores_scales : ref)
    (h : heap) (todo : list Z) (infer_objects : infer_table) :
  (forall scale, In scale todo ->
     exists bboxes cls scores,
       scale_in_store h bboxes_scales cls_scales scores_scales scale
         bboxes cls scores
       /\ Forall (fun s => s <= conf_thresh self) scores) ->
  collect_infer_objects self bboxes_scales cls_scales scores_scales todo
    infer_objects h
  = Ok (infer_objects, h).
Proof.
  induction todo as [|scale todo IH]; intros Hs; simpl; [reflexivity|].
  destruct (Hs scale (or_introl eq_refl))
    as (bboxes & cls & scores
        & (bd & cd & sd & rb & rc & rs
           & Hbd & Hcd & Hsd & Grb & Grc & Grs & Hb & Hc & Hsc) & Hlow).
  rewrite (bind_ok _ _ _ _ _ (load_dict_at _ _ _ Hbd)).
  rewrite bind_lift. unfold dict_getitem at 1. rewrite Grb.
  rewrite (bind_ok _ _ _ _ _ (load_boxes_at _ _ _ Hb)).
  rewrite (bind_ok _ _ _ _ _ (load_dict_at _ _ _ Hcd)).
  rewrite bind_lift. unfold dict_getitem at 1. rewrite Grc.
  rewrite (bind_ok _ _ _ _ _ (load_ints_at _ _ _ Hc)).
  rewrite (bind_ok _ _ _ _ _ (load_dict_at _ _ _ Hsd)).
  rewrite bind_lift. unfold dict_getitem at 1. rewrite Grs.
  rewrite (bind_ok _ _ _ _ _ (load_floats_at _ _ _ Hsc)).
  assert (Hrest : forall s, In s todo ->
            exists bboxes cls scores,
              scale_in_store h bboxes_scales cls_scales scores_scales s
                bboxes cls scores
              /\ Forall (fun s => s <= conf_thresh self) scores)
    by (intros s Hin; apply Hs; now right).
  destruct bboxes as [|b0 bboxes]; [now apply IH|].
  rewrite bind_lift, (above_conf_none _ _ _ Hlow). rewrite bind_lift. simpl.
  now apply IH.
Qed.

Lemma concat_cls_ok (bboxes_scales cls_scales scores_scales : ref)
    (h : heap) (todo : list Z) :
  (forall scale, In scale todo ->
     exists bboxes cls scores,
       scale_in_store h bboxes_scales cls_scales scores_scales scale
         bboxes cls scores) ->
  exists all_cls, concat_cls cls_scales todo h = Ok (all_cls, h).
Proof.
  induction todo as [|scale todo IH]; intros Hs; simpl; [eexists; reflexivity|].
  destruct (Hs scale (or_introl eq_refl))
    as (bboxes & cls & scores
        & (bd & cd & sd & rb & rc & rs
           & Hbd & Hcd & Hsd & Grb & Grc & Grs & Hb & Hc & Hsc)).
  rewrite (bind_ok _ _ _ _ _ (load_dict_at _ _ _ Hcd)).
  rewrite bind_lift. unfold dict_getitem at 1. rewrite Grc.
  rewrite (bind_ok _ _ _ _ _ (load_ints_at _ _ _ Hc)).
  destruct IH as (more & Em); [intros s Hin; apply Hs; now right|].
  rewrite (bind_ok _ _ _ _ _ Em). eexists. reflexivity.
Qed.

End NoDetection.

(** ** Lines 209-211 and 236-351 when no detection is above [conf_thresh] *)

Lemma insert_unique_In (x c : Z) (l : list Z) :
  In c (insert_unique x l) <-> c = x \/ In c l.
Proof.
  induction l as [|y l IH]; simpl; [intuition|].
  destruct (Z.ltb x y); simpl; [intuition|].
  destruct (Z.eqb_spec x y) as [->|Hn]; simpl; [intuition|].
  rewrite IH. intuition.
Qed.

Lemma np_unique_In (c : Z) (l : list Z) : In c (np_unique l) <-> In c l.
Proof.
  induction l as [|x l IH]; simpl; [tauto|].
  rewrite insert_unique_In, IH. intuition.
Qed.

Lemma classes_In (c : Z) (l : list Z) :
  In c (sorted Z.leb (np_unique l)) <-> In c l.
Proof.
  split; intros H.
  - apply np_unique_In. eapply sorted_In_inv; eauto.
  - apply sorted_In. now apply np_unique_In.
Qed.

Lemma boxes_of_class_where (class_id : Z) (o_cls : list Z) :
  forall o_bboxes : list Box,
    length o_cls = length o_bboxes ->
    map fst (filter snd (combine o_bboxes
                           (map (fun c => Z.eqb c class_id) o_cls)))
    = boxes_of_class class_id o_cls o_bboxes.
Proof.
  unfold boxes_of_class.
  induction o_cls as [|c o_cls IH]; intros [|b o_bboxes] H; simpl in *;
    try discriminate; [reflexivity|].
  injection H as H. destruct (Z.eqb c class_id); simpl; now rewrite IH.
Qed.

Lemma boxes_of_class_nil (class_id : Z) (o_cls : list Z) (o_bboxes : list Box) :
  ~ In class_id o_cls -> boxes_of_class class_id o_cls o_bboxes = [].
Proof.
  intros H. unfold boxes_of_class. rewrite filter_none; [reflexivity|].
  apply Forall_forall. intros [c b] Hp. apply in_combine_l in Hp. simpl.
  apply Z.eqb_neq. intros ->. contradiction.
Qed.

Lemma boxes_of_class_cons (class_id : Z) (o_cls : list Z) :
  forall o_bboxes : list Box,
    length o_cls = length o_bboxes ->
    In class_id o_cls -> boxes_of_class class_id o_cls o_bboxes <> [].
Proof.
  unfold boxes_of_class.
  induction o_cls as [|c o_cls IH]; intros [|b o_bboxes] H Hin; simpl in *;
    try discriminate; [destruct Hin|].
  injection H as H. destruct (Z.eqb_spec c class_id) as [->|Hn]; simpl;
    [discriminate|].
  destruct Hin as [->|Hin]; [congruence|]. now apply IH.
Qed.

Lemma gt_by_class_ok (o_cls : list Z) (o_bboxes : list Box) :
  length o_cls = length o_bboxes ->
  forall classes gt_objects,
    gt_by_class o_cls o_bboxes classes gt_objects
    = Ok (fold_left (fun d c => dict_set d c (boxes_of_class c o_cls o_bboxes))
            classes gt_objects).
Proof.
  intros H. induction classes as [|c classes IH]; intros d; simpl;
    [reflexivity|].
  unfold np_where.
  pose proof (take_rows_where o_bboxes (map (fun c0 => Z.eqb c0 c) o_cls) [])
    as T.
  simpl in T. rewrite T by (rewrite length_map; auto).
  simpl. rewrite (boxes_of_class_where c o_cls o_bboxes H). apply IH.
Qed.

Lemma gt_objects_get (f : Z -> list Box) (classes : list Z) :
  forall (d : dict (list Box)) (c : Z),
    dict_get (fold_left (fun d c => dict_set d c (f c)) classes d) c
    = if existsb (Z.eqb c) classes then Some (f c) else dict_get d c.
Proof.
  induction classes as [|k classes IH]; intros d c; simpl; [reflexivity|].
  rewrite IH, dict_get_set.
  destruct (Z.eqb_spec c k) as [->|Hn]; simpl.
  - now destruct (existsb (Z.eqb k) classes).
  - reflexivity.
Qed.

Lemma existsb_eqb_In (c : Z) (l : list Z) :
  existsb (Z.eqb c) l = true <-> In c l.
Proof.
  rewrite existsb_exists. split.
  - intros (x & Hx & E). apply Z.eqb_eq in E. now subst.
  - intros H. exists c. split; [exact H|apply Z.eqb_refl].
Qed.

(** The ground truth per class, as lines 209-211 leave it. *)
Lemma gt_boxes_of_gt_objects (o_cls : list Z) (o_bboxes : list Box) (c : Z) :
  gt_boxes_of
    (fold_left (fun d c => dict_set d c (boxes_of_class c o_cls o_bboxes))
       (sorted Z.leb (np_unique o_cls)) []) c
  = boxes_of_class c o_cls o_bboxes.
Proof.
  unfold gt_boxes_of. rewrite gt_objects_get.
  destruct (existsb (Z.eqb c) (sorted Z.leb (np_unique o_cls))) eqn:E;
    [reflexivity|].
  simpl. symmetry. apply boxes_of_class_nil. intros H.
  apply classes_In in H. apply existsb_eqb_In in H. congruence.
Qed.

Lemma dict_set_Forall {V} (P : Z * V -> Prop) (d : dict V) (k : Z) (v : V) :
  (forall k', P (k', v)) -> Forall P d -> Forall P (dict_set d k v).
Proof.
  intros Hv. induction 1 as [|[k0 v0] d H0 Hd IH]; simpl.
  - constructor; [apply Hv|constructor].
  - destruct (Z.eqb k k0); constructor; auto.
Qed.

Lemma dict_set_proper {V} (d : dict (list V)) (k : Z) (l : list V) :
  l <> [] -> proper_table d -> proper_table (dict_set d k l).
Proof.
  intros Hl [Hn Hf]. split.
  - destruct (dict_get d k) as [l0|] eqn:G.
    + now rewrite (dict_keys_set d k l0 l G).
    + rewrite (dict_keys_set_new d k l G).
      apply NoDup_app; [exact Hn|repeat constructor; simpl; tauto|].
      intros x Hx [<-|[]]. apply dict_get_none_keys in G. contradiction.
  - apply dict_set_Forall; [intros k'; exact Hl|exact Hf].
Qed.

Section NoDetectionClasses.

Variable iou_np : Box -> Box -> Q.
Variable self : MultiscaleGenerator.

Lemma match_class_no_detection (class_id : Z) (gt_objects : dict (list Box)) :
  match_class iou_np self class_id gt_objects []
  = Ok ([], gt_boxes_of gt_objects class_id, []).
Proof.
  unfold match_class, match_class_parts, gt_boxes_of. simpl.
  destruct (dict_get gt_objects class_id) as [gts|]; simpl; [|reflexivity].
  unfold match_table_target. rewrite filter_none; [reflexivity|].
  apply Forall_forall. intros [g e] Hp. apply in_combine_r in Hp.
  apply in_map_iff in Hp as (? & <- & _). reflexivity.
Qed.

Lemma match_classes_no_detection (gt_objects : dict (list Box))
    (classes : list Z) :
  forall m g i,
    match_classes iou_np self classes gt_objects [] (m, g, i)
    = Ok (m, fold_left (keep_nonempty gt_objects) classes g, i).
Proof.
  induction classes as [|c classes IH]; intros m g i; [reflexivity|].
  cbn [match_classes fold_left]. rewrite match_class_no_detection.
  cbn [obind]. rewrite IH. reflexivity.
Qed.

Lemma keep_nonempty_get (gt_objects : dict (list Box)) (classes : list Z) :
  forall (g : dict (list Box)) (c : Z),
    dict_get (fold_left (keep_nonempty gt_objects) classes g) c
    = match existsb (Z.eqb c) classes, gt_boxes_of gt_objects c with
      | true, x :: l => Some (x :: l)
      | _, _ => dict_get g c
      end.
Proof.
  induction classes as [|k classes IH]; intros g c; simpl; [reflexivity|].
  rewrite IH. unfold keep_nonempty.
  destruct (Z.eqb_spec c k) as [->|Hn]; simpl.
  - destruct (gt_boxes_of gt_objects k) as [|x l] eqn:E.
    + now destruct (existsb (Z.eqb k) classes).
    + rewrite dict_get_set, Z.eqb_refl.
      now destruct (existsb (Z.eqb k) classes).
  - destruct (existsb (Z.eqb c) classes); [|].
    + destruct (gt_boxes_of gt_objects c); [|reflexivity].
      destruct (gt_boxes_of gt_objects k); [reflexivity|].
      rewrite dict_get_set. destruct (Z.eqb_spec c k); congruence.
    + destruct (gt_boxes_of gt_objects k); [reflexivity|].
      rewrite dict_get_set. destruct (Z.eqb_spec c k); congruence.
Qed.

Lemma keep_nonempty_proper (gt_objects : dict (list Box)) (classes : list Z) :
  forall g, proper_table g ->
            proper_table (fold_left (keep_nonempty gt_objects) classes g).
Proof.
  induction classes as [|k classes IH]; intros g Hg; simpl; [exact Hg|].
  apply IH. unfold keep_nonempty.
  destruct (gt_boxes_of gt_objects k) eqn:E; [exact Hg|].
  apply dict_set_proper; [discriminate|exact Hg].
Qed.

End NoDetectionClasses.

Lemma boxes_of_class_items {A} (f : A -> Z) (g : A -> Box) (c : Z)
    (items : list A) :
  boxes_of_class c (map f items) (map g items)
  = map g (filter (fun it => Z.eqb (f it) c) items).
Proof.
  unfold boxes_of_class. induction items as [|it items IH]; simpl;
    [reflexivity|].
  destruct (Z.eqb (f it) c); simpl; now rewrite IH.
Qed.

Section NoDetectionImage.

Variable iou_np : Box -> Box -> Q.
Variable xywh2xyminmax : Q * Q * Q * Q -> Box.
Variable cocoid2classid : Z -> Z.
Variable self : MultiscaleGenerator.

(** X3.  When no scale has a detection above [conf_thresh], the ground truth
    of the image comes back as [gt_only], class by class and in the order of
    the annotations, and the two other tables are empty. *)
Theorem no_detection_returns_ground_truth (image_name : Z)
    (bboxes_scales cls_scales scores_scales : ref) (h : heap)
    (annotations : dict (list Annotation)) :
  nth_error h (annotation_map self) = Some (PyAnnotations annotations) ->
  (forall scale, In scale (scales self) ->
     exists bboxes cls scores,
       scale_in_store h bboxes_scales cls_scales scores_scales scale
         bboxes cls scores
       /\ Forall (fun s => s <= conf_thresh self) scores) ->
  exists gt_only h',
    multiscale_match iou_np xywh2xyminmax cocoid2classid self image_name
      bboxes_scales cls_scales scores_scales h
    = Ok (([], gt_only, []), h')
    /\ forall c,
         dict_get gt_only c
         = match filter (fun item =>
                           Z.eqb (cocoid2classid (category_id item)) c)
                   match dict_get annotations image_name with
                   | Some o_items => o_items
                   | None => []
                   end with
           | [] => None
           | sel => Some (map (fun item => xywh2xyminmax (bbox item)) sel)
           end.
Proof.
  intros Ha Hs.
  set (o_items := match dict_get annotations image_name with
                  | Some o_items => o_items
                  | None => []
                  end).
  set (o_cls := map (fun item => cocoid2classid (category_id item)) o_items).
  set (o_bboxes := map (fun item => xywh2xyminmax (bbox item)) o_items).
  destruct (concat_cls_ok bboxes_scales cls_scales scores_scales h
              (scales self)) as (all_cls & Ec).
  { intros s Hin. destruct (Hs s Hin) as (b & c & sc & H & _). eauto. }
  assert (Hr : read_inputs xywh2xyminmax cocoid2classid self image_name
                 bboxes_scales cls_scales scores_scales h
               = Ok ((o_cls, o_bboxes, [], all_cls), h)).
  { unfold read_inputs, load_gt.
    rewrite (bind_ok _ _ _ _ _
               (bind_ok _ _ _ _ _ (load_annotations_at _ _ _ Ha))).
    unfold ret at 1.
    rewrite (bind_ok _ _ _ _ _
               (collect_no_detection self bboxes_scales cls_scales
                  scores_scales h (scales self) [] Hs)).
    rewrite (bind_ok _ _ _ _ _ Ec). reflexivity. }
  pose proof (multiscale_match_spec iou_np xywh2xyminmax cocoid2classid self
                image_name bboxes_scales cls_scales scores_scales h _ Hr)
    as Sp.
  assert (Hlen : length o_cls = length o_bboxes)
    by (unfold o_cls, o_bboxes; now rewrite !length_map).
  set (gt_objects :=
         fold_left (fun d c => dict_set d c (boxes_of_class c o_cls o_bboxes))
           (sorted Z.leb (np_unique o_cls)) []).
  set (classes := sorted Z.leb (np_unique (all_cls ++ o_cls))).
  set (G := fold_left (keep_nonempty gt_objects) classes []).
  assert (HG : proper_table G).
  { apply keep_nonempty_proper. split; constructor. }
  destruct (flatten_regroup (fun class_id b => mkItem b class_id 1)
              (fun b => b) G (fun _ _ => eq_refl) (fun _ _ => eq_refl) HG)
    as (g & Eg & Gg & _).
  assert (Er : reconcile iou_np self (o_cls, o_bboxes, [], all_cls)
               = Ok ([], regroup g, [])).
  { unfold reconcile, per_class_phases.
    rewrite (gt_by_class_ok o_cls o_bboxes Hlen). cbn [obind].
    fold gt_objects. fold classes.
    rewrite match_classes_no_detection. cbn [obind]. fold G.
    unfold flatten_tables, flatten_boxes. rewrite Eg. reflexivity. }
  rewrite Er in Sp. destruct Sp as (h' & Em & _).
  exists (regroup g), h'. split; [exact Em|].
  intros c. rewrite Gg. unfold G. rewrite keep_nonempty_get.
  unfold gt_objects. rewrite gt_boxes_of_gt_objects.
  unfold o_cls at 1, o_bboxes. rewrite boxes_of_class_items.
  destruct (filter _ o_items) as [|x l] eqn:F.
  - simpl. now destruct (existsb (Z.eqb c) classes).
  - assert (Hin : In c classes).
    { apply classes_In. apply in_or_app. right. unfold o_cls.
      assert (Hx : In x (filter (fun it =>
                                   Z.eqb (cocoid2classid (category_id it)) c)
                           o_items)) by (rewrite F; now left).
      apply filter_In in Hx as [Hx Ec']. apply Z.eqb_eq in Ec'. subst c.
      exact (in_map (fun item => cocoid2classid (category_id item)) _ _ Hx). }
    apply existsb_eqb_In in Hin. rewrite Hin. simpl. now rewrite map_id.
Qed.

End NoDetectionImage.

Lemma no_detection_returns_ground_truth_witness :
  exists gt_only h',
    multiscale_match iou to_min_max (fun c => c) one_scale_generator 7%Z
      4%nat 5%nat 6%nat store_low_score
    = Ok (([], gt_only, []), h')
    /\ forall c,
         dict_get gt_only c
         = match filter (fun item => Z.eqb (category_id item) c)
                   match dict_get
                           [(7%Z, [mkAnnotation 1 (0, 0, 10, 10);
                                   mkAnnotation 2 (1, 1, 8, 8);
                                   mkAnnotation 1 (20, 20, 5, 5)])] 7%Z with
                   | Some o_items => o_items
                   | None => []
                   end with
           | [] => None
           | sel => Some (map (fun item => to_min_max (bbox item)) sel)
           end.
Proof.
  apply (no_detection_returns_ground_truth iou to_min_max (fun c => c)
           one_scale_generator 7%Z 4%nat 5%nat 6%nat store_low_score
           [(7%Z, [mkAnnotation 1 (0, 0, 10, 10); mkAnnotation 2 (1, 1, 8, 8);
                   mkAnnotation 1 (20, 20, 5, 5)])]).
  - reflexivity.
  - intros scale [<-|[]].
    exists [mkBox 0 0 10 10], [3%Z], [3 # 10]. split.
    + exists [(320%Z, 1%nat)], [(320%Z, 2%nat)], [(320%Z, 3%nat)],
        1%nat, 2%nat, 3%nat.
      repeat split.
    + repeat constructor. unfold Qle. simpl. lia.
Defined.

(** ** The conflict resolver only takes rows away *)

Lemma remove_rows_sublist (items : list FlatItem) :
  forall rows rows',
    remove_rows items rows = Ok rows' -> sublist rows' rows.
Proof.
  induction items as [|x items IH]; intros rows rows' H; simpl in H.
  - injection H as <-. apply sublist_refl.
  - destruct (find_index _ rows) as [idx|]; [|discriminate].
    destruct (np_delete rows idx) as [t| |] eqn:D; simpl in H; try discriminate.
    destruct (np_delete_sublist _ _ _ D) as [Hs _].
    eapply sublist_trans; [apply IH; exact H|exact Hs].
Qed.

Lemma setitem_In {A} (l : list A) :
  forall (k : nat) (v : A) (l' : list A),
    setitem l k v = Ok l' ->
    length l' = length l /\ forall x, In x l' -> x = v \/ In x l.
Proof.
  induction l as [|y l IH]; intros k v l' H; simpl in H;
    [destruct k; discriminate|].
  destruct k as [|k].
  - injection H as <-. split; [reflexivity|]. simpl. intuition.
  - destruct (setitem l k v) as [t| |] eqn:E; simpl in H; try discriminate.
    injection H as <-. destruct (IH _ _ _ E) as [L Hin]. split; [simpl; lia|].
    intros x [<-|Hx]; [right; now left|].
    destruct (Hin x Hx); [now left|right; now right].
Qed.

Section ResolverShrinks.

Variable iou_np : Box -> Box -> Q.
Variable self : MultiscaleGenerator.

Lemma boxes_within_refl (rows : list FlatItem) : boxes_within rows rows.
Proof. split; [lia|]. intros r Hr. eauto. Qed.

Lemma boxes_within_trans (a b c : list FlatItem) :
  boxes_within a b -> boxes_within b c -> boxes_within a c.
Proof.
  intros [L1 H1] [L2 H2]. split; [lia|]. intros r Hr.
  destruct (H1 r Hr) as (r1 & Hr1 & E1).
  destruct (H2 r1 Hr1) as (r2 & Hr2 & E2). exists r2. split; congruence.
Qed.

Lemma sublist_boxes_within (a b : list FlatItem) :
  sublist a b -> boxes_within a b.
Proof.
  intros H. split; [now apply sublist_length|].
  intros r Hr. exists r. split; [eapply sublist_In; eauto|reflexivity].
Qed.

Lemma round_values_shrinks (k : nat) (cur : FlatItem)
    (matched gt_only infer_only m g i : list FlatItem) :
  In cur matched ->
  round_values iou_np self k cur matched gt_only infer_only = Ok (m, g, i) ->
  boxes_within m matched /\ sublist g gt_only /\ sublist i infer_only.
Proof.
  intros Hc H. unfold round_values in H.
  destruct (inner_values _ _ _ _ _ _) as [m1| |] eqn:E1; cbn [obind] in H;
    try discriminate.
  assert (H1 : m1 = matched \/ sublist m1 matched).
  { unfold inner_values in E1.
    destruct (select_over _ _ _) as [items| |]; cbn [obind] in E1;
      try discriminate.
    destruct items as [|x items]; [left; congruence|]. right.
    unfold sanitize_values in E1.
    destruct (dominant_class _) as [d| |]; cbn [obind] in E1; try discriminate.
    destruct (remove_rows _ matched) as [o'| |] eqn:R; cbn [obind] in E1;
      try discriminate.
    destruct (setitem matched k _) as [m'| |]; cbn [obind] in E1;
      try discriminate.
    injection E1 as <-. eapply remove_rows_sublist; eauto. }
  assert (W1 : boxes_within m1 matched).
  { destruct H1 as [->|H1]; [apply boxes_within_refl|].
    now apply sublist_boxes_within. }
  destruct (outer_values _ _ _ _ _ m1 gt_only) as [[m2 g']| |] eqn:E2;
    cbn [obind] in H; try discriminate.
  destruct (outer_values _ _ _ _ _ m2 infer_only) as [[m3 i']| |] eqn:E3;
    cbn [obind] in H; try discriminate.
  injection H as <- <- <-.
  unfold outer_values in E2, E3.
  destruct (select_over self gt_only _) as [items2| |]; cbn [obind] in E2;
    try discriminate.
  destruct (select_over self infer_only _) as [items3| |]; cbn [obind] in E3;
    try discriminate.
  assert (Step : forall class_id items others ma ma' others',
            boxes_within ma matched ->
            match items with
            | [] => Ok (ma, others)
            | _ :: _ =>
                '(row, others') <-
                  sanitize_values class_id (item_bbox cur) items others ;;
                matched' <- setitem ma k row ;;
                Ok (matched', others')
            end = Ok (ma', others') ->
            boxes_within ma' matched /\ sublist others' others).
  { intros class_id items others ma ma' others' Hw Hstep.
    destruct items as [|x items].
    - injection Hstep as <- <-. split; [exact Hw|apply sublist_refl].
    - unfold sanitize_values in Hstep.
      destruct (dominant_class _) as [d| |]; cbn [obind] in Hstep;
        try discriminate.
      destruct (remove_rows _ others) as [o'| |] eqn:R; cbn [obind] in Hstep;
        try discriminate.
      destruct (setitem ma k _) as [m'| |] eqn:S; cbn [obind] in Hstep;
        try discriminate.
      injection Hstep as <- <-. split; [|eapply remove_rows_sublist; eauto].
      destruct (setitem_In _ _ _ _ S) as [L Hin]. destruct Hw as [Lw Hw].
      split; [lia|].
      intros r Hr. destruct (Hin r Hr) as [->|Hr']; [eauto|auto]. }
  destruct (Step _ _ _ _ _ _ W1 E2) as [W2 S2].
  destruct (Step _ _ _ _ _ _ W2 E3) as [W3 S3]. auto.
Qed.

Lemma resolve_values_shrinks (fuel : nat) :
  forall k matched gt_only infer_only m g i,
    resolve_values iou_np self fuel k matched gt_only infer_only = Ok (m, g, i) ->
    boxes_within m matched /\ sublist g gt_only /\ sublist i infer_only.
Proof.
  induction fuel as [|fuel IH]; intros k m0 g0 i0 m g i H; simpl in H;
    [discriminate|].
  destruct (nth_error m0 k) as [cur|] eqn:E.
  - destruct (round_values _ _ _ _ _ _ _) as [[[m1 g1] i1]| |] eqn:R;
      cbn [obind] in H; try discriminate.
    destruct (round_values_shrinks _ _ _ _ _ _ _ _ (nth_error_In _ _ E) R)
      as (W1 & G1 & I1).
    destruct (IH _ _ _ _ _ _ _ H) as (W & G & I0).
    split; [eapply boxes_within_trans; eauto|].
    split; eapply sublist_trans; eauto.
  - injection H as <- <- <-.
    split; [apply boxes_within_refl|split; apply sublist_refl].
Qed.

End ResolverShrinks.

Section ResolverOnlyRemoves.

Variable iou_np : Box -> Box -> Q.
Variable self : MultiscaleGenerator.

Hypothesis iou_np_sym : forall a b, iou_np a b == iou_np b a.
Hypothesis iou_np_ext :
  forall a b b', box_eqb b b' = true -> iou_np a b == iou_np a b'.

(** X4.  The conflict resolver ends, and it adds nothing: the rows it leaves
    in [gt_only] and in [infer_only] are rows it was given, in their order
    and as they were, and every row it leaves in [matched] has the box of a
    row of [matched] it was given. *)
Theorem resolver_only_removes (matched gt_only infer_only : list FlatItem)
    (h : heap) :
  exists m g i h',
    conflict_resolver iou_np self matched gt_only infer_only h
    = Ok ((m, g, i), h')
    /\ sublist g gt_only
    /\ sublist i infer_only
    /\ boxes_within m matched.
Proof.
  destruct (@resolver_values_settled iou_np self iou_np_sym iou_np_ext
              matched gt_only infer_only) as (m & g & i & E & _).
  pose proof (conflict_resolver_spec iou_np self matched gt_only infer_only h)
    as Sp.
  rewrite E in Sp. destruct Sp as (h' & Er & _).
  exists m, g, i, h'. split; [exact Er|].
  destruct (resolve_values_shrinks iou_np self _ _ _ _ _ _ _ _ E)
    as (W & G & I0).
  auto.
Qed.

End ResolverOnlyRemoves.

Lemma resolver_only_removes_witness :
  exists m g i h',
    conflict_resolver iou example_generator
      [mkItem (mkBox 0 0 10 10) 1 3; mkItem (mkBox 1 1 9 9) 2 1]
      [mkItem (mkBox 0 0 9 9) 1 1] [mkItem (mkBox 20 20 30 30) 3 1] []
    = Ok ((m, g, i), h')
    /\ sublist g [mkItem (mkBox 0 0 9 9) 1 1]
    /\ sublist i [mkItem (mkBox 20 20 30 30) 3 1]
    /\ boxes_within m
         [mkItem (mkBox 0 0 10 10) 1 3; mkItem (mkBox 1 1 9 9) 2 1].
Proof.
  exact (resolver_only_removes iou example_generator iou_sym iou_ext
           [mkItem (mkBox 0 0 10 10) 1 3; mkItem (mkBox 1 1 9 9) 2 1]
           [mkItem (mkBox 0 0 9 9) 1 1] [mkItem (mkBox 20 20 30 30) 3 1] []).
Defined.

(** ** Phase 4.3: which boxes are promoted *)

Section Promotion.

Variable iou_np : Box -> Box -> Q.
Variable self : MultiscaleGenerator.

(** X5.  The test at line 319 holds exactly when the values of [iou_table]
    that reach [iou_thresh] are at least [rematch_thresh], or are all the
    values of a table shorter than [rematch_thresh]. *)
Theorem promotion_test_counts (iou_table : list Q) :
  top_all_over self iou_table = true
  <-> (Nat.min (rematch_thresh self) (length iou_table)
       <= length (filter (fun v => Qge_bool v (iou_thresh self)) iou_table))%nat.
Proof. apply top_all_over_iff. Qed.

Lemma remove_boxes_all (table : list Box) :
  remove_boxes table table = Ok [].
Proof.
  induction table as [|x table IH]; simpl; [reflexivity|].
  rewrite box_eqb_refl. simpl. exact IH.
Qed.

(** X6.  A residual list whose boxes all overlap its first box by at least
    [iou_thresh] is promoted as one entry, the first box, and nothing of it
    stays in [infer_only]: whatever [rematch_thresh] is, and however few the
    boxes are. *)
Theorem single_cluster_is_promoted (srcbbox : Box) (rest : list Box) :
  Forall (fun b => iou_thresh self <= iou_np srcbbox b) (srcbbox :: rest) ->
  rematch iou_np self (srcbbox :: rest) = Ok ([], [srcbbox]).
Proof.
  intros H. unfold rematch.
  set (table := srcbbox :: rest) in *.
  assert (Hall : filter (fun b => Qge_bool (iou_np srcbbox b) (iou_thresh self))
                   table = table).
  { apply filter_all. revert H. apply Forall_impl. intros b Hb.
    unfold Qge_bool. now apply Qle_bool_iff. }
  cbn [rematch_loop length]. unfold table at 1. cbn [nth_error].
  assert (Htop : top_all_over self (map (fun d => iou_np srcbbox d) table)
                 = true).
  { apply top_all_over_iff.
    assert (E : filter (fun v => Qge_bool v (iou_thresh self))
                  (map (fun d => iou_np srcbbox d) table)
                = map (fun d => iou_np srcbbox d) table).
    { apply filter_all. apply Forall_map. revert H. apply Forall_impl.
      intros b Hb. unfold Qge_bool. now apply Qle_bool_iff. }
    rewrite E. lia. }
  rewrite Htop, thresh_over_filter, Hall, remove_boxes_all. cbn [obind].
  destruct (length rest); reflexivity.
Qed.

End Promotion.

Lemma single_cluster_is_promoted_witness :
  rematch iou three_scale_generator [mkBox 5 5 15 15; mkBox 5 5 15 14]
  = Ok ([], [mkBox 5 5 15 15]).
Proof.
  apply (single_cluster_is_promoted iou three_scale_generator).
  repeat constructor; unfold Qle; simpl; lia.
Defined.

Section PromoteAll.

Variable iou_np : Box -> Box -> Q.
Variable self : MultiscaleGenerator.

Lemma rematch_loop_all (fuel : nat) :
  (rematch_thresh self <= 1)%nat ->
  forall table extras,
    Forall (fun b => iou_thresh self <= iou_np b b) table ->
    (length table < fuel)%nat ->
    exists extras',
      rematch_loop iou_np self fuel 0 table extras = Ok ([], extras')
      /\ forall b, In b extras' -> In b extras \/ In b table.
Proof.
  intros Hk. induction fuel as [|fuel IH]; intros table extras Hself Hf; [lia|].
  destruct table as [|src table].
  - simpl. exists extras. split; [reflexivity|auto].
  - cbn [rematch_loop nth_error].
    set (tb := src :: table) in *.
    assert (Hsrc : Qge_bool (iou_np src src) (iou_thresh self) = true).
    { unfold Qge_bool. apply Qle_bool_iff.
      inversion Hself; subst. assumption. }
    assert (Htop : top_all_over self (map (fun d => iou_np src d) tb) = true).
    { apply top_all_over_iff. unfold tb. simpl. rewrite Hsrc. simpl. lia. }
    rewrite Htop, thresh_over_filter.
    destruct (remove_boxes_total
                (filter (fun b => Qge_bool (iou_np src b) (iou_thresh self)) tb)
                tb) as (t & R).
    rewrite R. cbn [obind].
    destruct (remove_boxes_spec _ _ _ R) as [Hs Hc].
    assert (Hlt : (count_box src t < count_box src tb)%nat).
    { apply Hc.
      - exists src. split; [|apply box_eqb_refl]. unfold tb. simpl.
        rewrite Hsrc. now left.
      - unfold count_box, tb. simpl. rewrite box_eqb_refl. simpl. lia. }
    pose proof (sublist_shorter src t tb Hs Hlt) as Hlen.
    destruct (IH t (extras ++ [src]) (sublist_Forall _ _ _ Hs Hself))
      as (extras' & E & Hin); [lia|].
    exists extras'. split; [exact E|].
    intros b Hb. destruct (Hin b Hb) as [H|H].
    + apply in_app_or in H as [H|[<-|[]]]; [now left|right; now left].
    + right. eapply sublist_In; eauto.
Qed.

(** X7.  With [rematch_thresh] at 1 or 0 every box of the residual list is
    promoted or removed with a box that is: nothing stays in [infer_only],
    and the promoted boxes are boxes of the list. *)
Theorem rematch_thresh_one_empties_infer_only (infer_only_bbox_table : list Box) :
  (rematch_thresh self <= 1)%nat ->
  Forall (fun b => iou_thresh self <= iou_np b b) infer_only_bbox_table ->
  exists infer_only_extras,
    rematch iou_np self infer_only_bbox_table = Ok ([], infer_only_extras)
    /\ forall b, In b infer_only_extras -> In b infer_only_bbox_table.
Proof.
  intros Hk Hself. unfold rematch.
  destruct (rematch_loop_all (S (length infer_only_bbox_table)) Hk
              infer_only_bbox_table [] Hself (Nat.lt_succ_diag_r _))
    as (extras & E & Hin).
  exists extras. split; [exact E|].
  intros b Hb. destruct (Hin b Hb) as [[]|H]; exact H.
Qed.

End PromoteAll.

Lemma rematch_thresh_one_empties_infer_only_witness :
  exists infer_only_extras,
    rematch iou one_box_generator [mkBox 0 0 10 10; mkBox 20 20 30 30]
    = Ok ([], infer_only_extras)
    /\ forall b, In b infer_only_extras ->
                 In b [mkBox 0 0 10 10; mkBox 20 20 30 30].
Proof.
  apply (rematch_thresh_one_empties_infer_only iou one_box_generator).
  - simpl. lia.
  - repeat constructor; unfold Qle; simpl; lia.
Defined.

(** ** Phase 4.2: the occurrence counts *)

Section Occurrences.

Variable iou_np : Box -> Box -> Q.
Variable self : MultiscaleGenerator.

Lemma match_scales_length (gt : Box) (keys : list Z) :
  forall d entry found d' entry' found',
    match_scales iou_np self gt keys d entry found = Ok (d', entry', found') ->
    (length entry' <= length entry + length keys)%nat.
Proof.
  induction keys as [|scale keys IH]; intros d entry found d' entry' found' H;
    simpl in H.
  - injection H as _ <- _. lia.
  - unfold dict_getitem in H.
    destruct (dict_get d scale) as [boxes|]; simpl in H; [|discriminate].
    destruct boxes as [|b0 boxes]; [apply IH in H; simpl; lia|].
    destruct (np_argmax _ _) as [idx| |]; cbn [obind] in H; try discriminate.
    destruct (nth_error _ idx) as [v|]; [|discriminate].
    destruct (Qge_bool v (iou_thresh self)); [|apply IH in H; simpl; lia].
    destruct (np_delete (b0 :: boxes) idx) as [boxes'| |];
      cbn [obind] in H; try discriminate.
    apply IH in H. rewrite length_app in H. simpl in *. lia.
Qed.

Lemma match_gt_entries (todo : list Box) :
  forall d mt gonly d' mt' gonly',
    match_gt iou_np self todo d mt gonly = Ok (d', mt', gonly') ->
    Forall (fun e => (length e <= length d)%nat) mt ->
    Forall (fun e => (length e <= length d)%nat) mt'.
Proof.
  induction todo as [|gt todo IH]; intros d mt gonly d' mt' gonly' H Hmt;
    simpl in H.
  - now injection H as _ <- _.
  - destruct (match_scales _ _ _ _ _ _ _) as [[[d1 entry] found]| |] eqn:M;
      simpl in H; try discriminate.
    destruct (match_scales_spec _ _ _ _ _ _ _ _ _ _ M) as [[Hk _] _].
    apply match_scales_length in M. simpl in M.
    rewrite sorted_length in M. unfold dict_keys in M. rewrite length_map in M.
    destruct (if found then _ else _) as [gonly1| |]; simpl in H;
      try discriminate.
    assert (Hd : length d1 = length d).
    { unfold dict_keys in Hk.
      rewrite <- (length_map fst d1), <- (length_map fst d). now rewrite Hk. }
    apply IH in H.
    + revert H. apply Forall_impl. intros e. lia.
    + apply Forall_app. split.
      * revert Hmt. apply Forall_impl. intros e. lia.
      * constructor; [lia|constructor].
Qed.

Lemma rematch_loop_In (fuel : nat) :
  forall idx table extras table' extras',
    rematch_loop iou_np self fuel idx table extras = Ok (table', extras') ->
    sublist table' table
    /\ forall b, In b extras' -> In b extras \/ In b table.
Proof.
  induction fuel as [|fuel IH]; intros idx table extras table' extras' H;
    simpl in H; [discriminate|].
  destruct (nth_error table idx) as [src|] eqn:Hsrc.
  - destruct (top_all_over self _).
    + destruct (remove_boxes _ table) as [t1| |] eqn:R; simpl in H;
        try discriminate.
      destruct (remove_boxes_spec _ _ _ R) as [Hs _].
      destruct (IH _ _ _ _ _ H) as [Hs' Hin].
      split; [eapply sublist_trans; eauto|].
      intros b Hb. destruct (Hin b Hb) as [Hb'|Hb'].
      * apply in_app_or in Hb' as [Hb'|[<-|[]]]; [now left|right].
        eapply nth_error_In; eauto.
      * right. eapply sublist_In; eauto.
    + now apply IH in H.
  - injection H as <- <-. split; [apply sublist_refl|auto].
Qed.

(** X8.  An entry of the matched table of a class counts at least one scale
    and at most as many scales as have detections of the class. *)
Theorem occurrence_between_one_and_scales (class_id : Z)
    (gt_objects : dict (list Box)) (infer_objects : infer_table)
    (target : list (Box * nat))
    (gt_only_bbox_table infer_only_bbox_table : list Box) :
  match_class iou_np self class_id gt_objects infer_objects
  = Ok (target, gt_only_bbox_table, infer_only_bbox_table) ->
  Forall (fun entry =>
            (1 <= snd entry
             <= length match dict_get infer_objects class_id with
                       | Some infer_bboxes_scales => infer_bboxes_scales
                       | None => []
                       end)%nat)
    target.
Proof.
  unfold match_class. intros H.
  destruct (match_class_parts _ _ _ _ _) as [[[[[gts mt] gonly] ionly] extras]| |]
    eqn:P; cbn [obind] in H; try discriminate.
  injection H as <- _ _.
  unfold match_class_parts, rematch in P.
  set (n := length match dict_get infer_objects class_id with
                   | Some d => d
                   | None => []
                   end).
  assert (G : Forall (fun e => (length e <= n)%nat) mt
              /\ (extras <> [] -> (1 <= n)%nat)).
  { unfold n. destruct (dict_get infer_objects class_id) as [d|].
    - destruct (dict_get gt_objects class_id) as [gts0|].
      + destruct (match_gt _ _ _ _ _ _) as [[[d1 mt0] gonly0]| |] eqn:M;
          cbn [obind] in P; try discriminate.
        destruct (extend_scales _ d1 []) as [t| |] eqn:E; cbn [obind] in P;
          try discriminate.
        destruct (rematch_loop _ _ _ _ _ _) as [[left ex]| |] eqn:R;
          cbn [obind] in P; try discriminate.
        cbv beta iota in P. injection P as <- <- <- <- <-.
        split; [eapply match_gt_entries; [exact M|constructor]|].
        intros Hex. destruct d as [|kv d]; [|simpl; lia].
        exfalso. destruct (match_gt_spec _ _ _ _ _ _ _ _ _ M) as ([Hk _] & _).
        destruct d1; [|discriminate]. simpl in E. injection E as <-.
        destruct (rematch_loop_In _ _ _ _ _ _ R) as [_ Hin].
        destruct ex as [|b ex]; [congruence|].
        destruct (Hin b (or_introl eq_refl)) as [[]|[]].
      + destruct (extend_scales _ d []) as [t| |] eqn:E; cbn [obind] in P;
          try discriminate.
        destruct (rematch_loop _ _ _ _ _ _) as [[left ex]| |] eqn:R;
          cbn [obind] in P; try discriminate.
        cbv beta iota in P. injection P as <- <- <- <- <-.
        split; [constructor|].
        intros Hex. destruct d as [|kv d]; [|simpl; lia].
        exfalso. simpl in E. injection E as <-.
        destruct (rematch_loop_In _ _ _ _ _ _ R) as [_ Hin].
        destruct ex as [|b ex]; [congruence|].
        destruct (Hin b (or_introl eq_refl)) as [[]|[]].
    - destruct (dict_get gt_objects class_id) as [gts0|]; simpl in P;
        injection P as <- <- <- <- <-.
      + split; [|congruence]. apply Forall_forall. intros e He.
        apply in_map_iff in He as (? & <- & _). simpl. lia.
      + split; [constructor|congruence]. }
  destruct G as [Gm Ge]. unfold match_table_target.
  apply Forall_app. split.
  - apply Forall_forall. intros p Hp. apply in_map_iff in Hp as ([g e] & <- & Hp).
    apply filter_In in Hp as [Hp Hl]. simpl in *.
    apply Nat.ltb_lt in Hl. apply in_combine_r in Hp.
    rewrite Forall_forall in Gm. specialize (Gm e Hp). lia.
  - apply Forall_forall. intros p Hp. apply in_map_iff in Hp as (b & <- & Hb).
    simpl. assert (extras <> []) by (intros ->; destruct Hb).
    specialize (Ge H). lia.
Qed.

End Occurrences.

Lemma occurrence_between_one_and_scales_witness :
  exists target gt_only_bbox_table infer_only_bbox_table,
    match_class iou example_generator 1 example_gt_objects
      example_infer_objects
    = Ok (target, gt_only_bbox_table, infer_only_bbox_table)
    /\ Forall (fun entry =>
                 (1 <= snd entry
                  <= length match dict_get example_infer_objects 1 with
                            | Some infer_bboxes_scales => infer_bboxes_scales
                            | None => []
                            end)%nat)
         target.
Proof.
  eexists. eexists. eexists. split; [vm_compute; reflexivity|].
  eapply (occurrence_between_one_and_scales iou example_generator 1
            example_gt_objects example_infer_objects).
  vm_compute. reflexivity.
Defined.

(** ** [generate_dataset], lines 154-169: the list of results *)

Lemma bind_inv {A B} (m : Py A) (f : A -> Py B) (h h' : heap) (b : B) :
  bind m f h = Ok (b, h') ->
  exists a h1, m h = Ok (a, h1) /\ f a h1 = Ok (b, h').
Proof.
  unfold bind. destruct (m h) as [[a h1]| |]; try discriminate. eauto.
Qed.

Section ResultList.

Variable self : MultiscaleGenerator.
Variable matcher : Z -> ref -> ref -> ref -> Py tables.

Lemma match_repeatedly_ids (n : nat) (image_id : Z) (b c s : ref) :
  forall results h out h',
    match_repeatedly matcher n image_id b c s results h = Ok (out, h') ->
    map fst out = map fst results ++ repeat image_id n.
Proof.
  induction n as [|n IH]; intros results h out h' H; simpl in H.
  - injection H as <- _. now rewrite app_nil_r.
  - apply bind_inv in H as ([[m g] i] & h1 & _ & H).
    apply IH in H. rewrite H, map_app, <- app_assoc. reflexivity.
Qed.

Lemma match_images_ids (boxes_scales clses_scales scores_scales : dict (dict ref))
    (todo : list Z) :
  forall results h out h',
    match_images self matcher boxes_scales clses_scales scores_scales todo
      results h = Ok (out, h') ->
    map fst out
    = map fst results
      ++ flat_map (fun image_id =>
                     repeat image_id (scale_count self boxes_scales image_id))
           todo.
Proof.
  induction todo as [|image_id todo IH]; intros results h out h' H; simpl in H.
  - injection H as <- _. simpl. now rewrite app_nil_r.
  - rewrite bind_lift in H. unfold scale_count at 1. simpl.
    destruct (scales_of_image boxes_scales image_id (scales self) [])
      as [b| |]; try discriminate.
    rewrite bind_lift in H.
    destruct (scales_of_image clses_scales image_id (scales self) [])
      as [c| |]; try discriminate.
    rewrite bind_lift in H.
    destruct (scales_of_image scores_scales image_id (scales self) [])
      as [s| |]; try discriminate.
    apply bind_inv in H as (rb & h1 & _ & H).
    apply bind_inv in H as (rc & h2 & _ & H).
    apply bind_inv in H as (rs & h3 & _ & H).
    apply bind_inv in H as (res & h4 & Hm & H).
    apply match_repeatedly_ids in Hm. apply IH in H.
    rewrite H, Hm, <- app_assoc. reflexivity.
Qed.

(** The results come image by image, ids ascending, and each image has
    as many entries as scales hold it: the loop at line 161 runs once per
    scale, and each run appends one entry. *)
Lemma results_by_image_and_scale
    (boxes_scales clses_scales scores_scales : dict (dict ref))
    (image_names : list Z) (h h' : heap)
    (results : list (Z * dict (list Box))) :
  generate_dataset_with self matcher boxes_scales clses_scales scores_scales
    image_names h = Ok (results, h') ->
  map fst results
  = flat_map (fun image_id =>
                repeat image_id (scale_count self boxes_scales image_id))
      (sorted Z.leb image_names).
Proof.
  intros H. unfold generate_dataset_with in H.
  apply match_images_ids in H. exact H.
Qed.

End ResultList.

Section RepeatedMatch.

Variable iou_np : Box -> Box -> Q.
Variable xywh2xyminmax : Q * Q * Q * Q -> Box.
Variable cocoid2classid : Z -> Z.
Variable self : MultiscaleGenerator.

Local Abbreviation matcher :=
  (multiscale_match iou_np xywh2xyminmax cocoid2classid self).

(** What a call that returns has read and computed. *)
Lemma multiscale_match_inv (image_name : Z) (b c s : ref) (h h1 : heap)
    (t : tables) :
  matcher image_name b c s h = Ok (t, h1) ->
  exists inputs,
    read_inputs xywh2xyminmax cocoid2classid self image_name b c s h
    = Ok (inputs, h)
    /\ reconcile iou_np self inputs = Ok t
    /\ (length h <= length h1)%nat
    /\ preserves (length h) h h1.
Proof.
  intros Hm.
  destruct (read_inputs xywh2xyminmax cocoid2classid self image_name b c s h)
    as [[inputs h0]| |] eqn:Hr.
  - pose proof (read_inputs_same_store _ _ _ _ _ _ _ _ _ _ Hr) as ->.
    pose proof (multiscale_match_spec iou_np _ _ _ _ _ _ _ _ _ Hr) as Sp.
    exists inputs. split; [reflexivity|].
    destruct (reconcile iou_np self inputs) as [t0| |];
      try (rewrite Sp in Hm; discriminate).
    destruct Sp as (h2 & E & L & P). rewrite E in Hm.
    injection Hm as <- <-. auto.
  - unfold multiscale_match in Hm. rewrite (bind_raise _ _ _ _ Hr) in Hm.
    discriminate.
  - unfold multiscale_match in Hm. rewrite (bind_diverge _ _ _ Hr) in Hm.
    discriminate.
Qed.

Lemma match_again (image_name : Z) (b c s : ref) (h h1 hk : heap) (t : tables) :
  (forall r, inputs_of self b c s h r -> (r < length h)%nat) ->
  matcher image_name b c s h = Ok (t, h1) ->
  (length h <= length hk)%nat ->
  preserves (length h) h hk ->
  exists hk',
    matcher image_name b c s hk = Ok (t, hk')
    /\ (length h <= length hk')%nat
    /\ preserves (length h) h hk'.
Proof.
  intros Hclosed Hm L P.
  destruct (multiscale_match_inv _ _ _ _ _ _ _ Hm) as (inputs & Hr & Ht & _).
  pose proof (same_read_inputs xywh2xyminmax cocoid2classid self b c s h hk
                (fun r Hin => P r (Hclosed r Hin)) image_name) as S.
  unfold same_read in S. rewrite Hr in S. destruct S as [_ Hrk].
  pose proof (multiscale_match_spec iou_np _ _ _ _ _ _ _ _ _ Hrk) as Sp.
  rewrite Ht in Sp. destruct Sp as (hk' & E & Lk & Pk).
  exists hk'. split; [exact E|]. split; [lia|].
  intros r Hr'. rewrite (Pk r) by lia. now apply P.
Qed.

(** X9.  The matcher is called once per scale on the same three
    dictionaries, and every call returns the same tables: an image that [n]
    scales hold adds [n] equal entries to the results. *)
Theorem one_equal_entry_per_scale (image_id : Z) (b c s : ref) (h h1 : heap)
    (t : tables) (n : nat) (results : list (Z * dict (list Box))) :
  (forall r, inputs_of self b c s h r -> (r < length h)%nat) ->
  matcher image_id b c s h = Ok (t, h1) ->
  exists h',
    match_repeatedly matcher n image_id b c s results h
    = Ok (results ++ repeat (image_id, fst (fst t)) n, h').
Proof.
  intros Hclosed Hm.
  assert (G : forall n results hk,
            (length h <= length hk)%nat ->
            preserves (length h) h hk ->
            exists h',
              match_repeatedly matcher n image_id b c s results hk
              = Ok (results ++ repeat (image_id, fst (fst t)) n, h')).
  { clear n results. induction n as [|n IH]; intros results hk L P; simpl.
    - rewrite app_nil_r. eexists. reflexivity.
    - destruct (match_again _ _ _ _ _ _ _ _ Hclosed Hm L P)
        as (hk' & E & L' & P').
      rewrite (bind_ok _ _ _ _ _ E). destruct t as [[m g] i]. simpl.
      destruct (IH (results ++ [(image_id, m)]) hk' L' P') as (h' & ->).
      rewrite <- app_assoc. eexists. reflexivity. }
  apply G; [lia|]. intros r _. reflexivity.
Qed.

End RepeatedMatch.

Lemma one_equal_entry_per_scale_witness :
  exists h',
    match_repeatedly
      (multiscale_match iou to_min_max (fun c => c) three_scale_generator)
      3 7%Z 10%nat 11%nat 12%nat [] store_D
    = Ok ([] ++ repeat (7%Z, [(2%Z, [mkBox 0 0 10 10])]) 3, h').
Proof.
  refine (one_equal_entry_per_scale iou to_min_max (fun c => c)
            three_scale_generator 7%Z 10%nat 11%nat 12%nat store_D _
            ([(2%Z, [mkBox 0 0 10 10])], [], []) 3 [] _ _).
  - intros r Hr.
    destruct Hr as [->|[->|[->|[->|(d & scale & Hd & Hg)]]]];
      try (simpl; lia).
    destruct Hd as [Hd|[Hd|Hd]]; vm_compute in Hd; injection Hd as <-;
      simpl in Hg;
      repeat (match type of Hg with
              | (if ?c then _ else _) = _ => destruct c
              end;
              [injection Hg as <-; simpl; lia|]);
      discriminate.
  - vm_compute. reflexivity.
Defined.

(** ** Lines 171-196: the annotations that are written *)

Lemma py_int_inject (z : Z) : py_int (inject_Z z) = z.
Proof. unfold py_int. simpl. apply Z.quot_1_r. Qed.

(** [int] keeps the order of two floats. *)
Lemma py_int_mono (x y : Q) : x <= y -> (py_int x <= py_int y)%Z.
Proof.
  unfold py_int, Qle. destruct x as [a b], y as [c d]. simpl. intros H.
  rewrite <- (Z.quot_mul_cancel_r a (Zpos b) (Zpos d)) by lia.
  rewrite <- (Z.quot_mul_cancel_r c (Zpos d) (Zpos b)) by lia.
  rewrite (Z.mul_comm (Zpos d) (Zpos b)).
  apply Z.quot_le_mono; lia.
Qed.

Section Written.

Variable classid2cocoid : Z -> Z.

Lemma annotation_of_id (image_id class_id : Z) (b : Box) (n : nat) :
  Coco.id (annotation_of classid2cocoid image_id class_id b n)
  = (Z.of_nat n + 1)%Z.
Proof. reflexivity. Qed.

Lemma organize_boxes_numbered (image_id class_id : Z) (boxes : list Box) :
  forall acc,
    numbered acc ->
    numbered (organize_boxes classid2cocoid image_id class_id boxes acc)
    /\ length (organize_boxes classid2cocoid image_id class_id boxes acc)
       = (length acc + length boxes)%nat.
Proof.
  unfold organize_boxes.
  induction boxes as [|b boxes IH]; intros acc Hn; cbn [fold_left length].
  - split; [exact Hn|lia].
  - destruct (IH (acc ++ [annotation_of classid2cocoid image_id class_id b
                            (length acc)])) as [Hn' L].
    + unfold numbered in *. rewrite map_app, length_app. simpl.
      rewrite Nat.add_1_r, seq_S, map_app, Hn. reflexivity.
    + split; [exact Hn'|]. rewrite L, length_app. simpl. lia.
Qed.

Lemma organize_classes_numbered (image_id : Z) (d : dict (list Box))
    (keys : list Z) :
  (forall k, In k keys -> In k (dict_keys d)) ->
  forall acc,
    numbered acc ->
    exists out,
      organize_classes classid2cocoid image_id d keys acc = Ok out
      /\ numbered out
      /\ length out
         = (length acc
            + length (flat_map (fun k => match dict_get d k with
                                         | Some l => l
                                         | None => []
                                         end) keys))%nat.
Proof.
  induction keys as [|k keys IH]; intros Hk acc Hn; simpl.
  - exists acc. split; [reflexivity|]. split; [exact Hn|lia].
  - unfold dict_getitem.
    destruct (dict_get_key d k (Hk k (or_introl eq_refl))) as (l & ->).
    cbn [obind].
    destruct (organize_boxes_numbered image_id k l acc Hn) as [Hn1 L1].
    destruct (IH (fun k' Hk' => Hk k' (or_intror Hk')) _ Hn1)
      as (out & E & Hn2 & L2).
    exists out. split; [exact E|]. split; [exact Hn2|].
    rewrite L2, L1, length_app. lia.
Qed.

Lemma organize_results_numbered (results : list (Z * dict (list Box))) :
  forall acc,
    numbered acc ->
    exists out,
      organize_results classid2cocoid results acc = Ok out
      /\ numbered out
      /\ length out
         = (length acc
            + length (flat_map (fun r => table_boxes (snd r)) results))%nat.
Proof.
  induction results as [|[image_id d] results IH]; intros acc Hn; simpl.
  - exists acc. split; [reflexivity|]. split; [exact Hn|lia].
  - destruct (organize_classes_numbered image_id d (dict_keys d)
                (fun k Hk => Hk) acc Hn) as (a1 & -> & Hn1 & L1).
    cbn [obind]. destruct (IH a1 Hn1) as (out & E & Hn2 & L2).
    exists out. split; [exact E|]. split; [exact Hn2|].
    rewrite L2, L1, length_app. unfold table_boxes. lia.
Qed.

(** X10.  One annotation is written for every box of every entry of the
    results, and the annotations are numbered 1, 2, ... in the order in
    which they are written. *)
Theorem annotations_numbered_from_one (results : list (Z * dict (list Box))) :
  exists result_annotations,
    organize_results classid2cocoid results [] = Ok result_annotations
    /\ length result_annotations
       = length (flat_map (fun r => table_boxes (snd r)) results)
    /\ map Coco.id result_annotations
       = map Z.of_nat (seq 1 (length result_annotations)).
Proof.
  destruct (organize_results_numbered results [] eq_refl) as (out & E & Hn & L).
  exists out. split; [exact E|]. split; [exact L|].
  unfold numbered in Hn. rewrite Hn, <- seq_shift, map_map.
  apply map_ext. intros n. lia.
Qed.

End Written.

Section WrittenEntries.

Variable classid2cocoid : Z -> Z.

Lemma organize_boxes_Forall (P : Coco.annotation -> Prop)
    (image_id class_id : Z) (boxes : list Box) :
  (forall b n, In b boxes ->
     P (annotation_of classid2cocoid image_id class_id b n)) ->
  forall acc,
    Forall P acc ->
    Forall P (organize_boxes classid2cocoid image_id class_id boxes acc).
Proof.
  unfold organize_boxes.
  induction boxes as [|b boxes IH]; intros Hb acc Ha; cbn [fold_left];
    [exact Ha|].
  apply IH.
  - intros b' n Hin. apply Hb. now right.
  - apply Forall_app. split; [exact Ha|]. constructor; [|constructor].
    apply Hb. now left.
Qed.

Lemma organize_classes_Forall (P : Coco.annotation -> Prop)
    (image_id : Z) (d : dict (list Box)) (keys : list Z) :
  (forall k l b n, dict_get d k = Some l -> In b l ->
     P (annotation_of classid2cocoid image_id k b n)) ->
  forall acc out,
    Forall P acc ->
    organize_classes classid2cocoid image_id d keys acc = Ok out ->
    Forall P out.
Proof.
  intros Hd. induction keys as [|k keys IH]; intros acc out Ha H; simpl in H.
  - now injection H as <-.
  - unfold dict_getitem in H. destruct (dict_get d k) as [l|] eqn:G;
      cbn [obind] in H; [|discriminate].
    eapply IH; [|exact H]. apply organize_boxes_Forall; [|exact Ha].
    intros b n Hb. eapply Hd; eauto.
Qed.

Lemma organize_results_Forall (P : Coco.annotation -> Prop)
    (results : list (Z * dict (list Box))) :
  (forall image_id d k l b n,
     In (image_id, d) results -> dict_get d k = Some l -> In b l ->
     P (annotation_of classid2cocoid image_id k b n)) ->
  forall acc out,
    Forall P acc ->
    organize_results classid2cocoid results acc = Ok out ->
    Forall P out.
Proof.
  induction results as [|[image_id d] results IH]; intros Hr acc out Ha H;
    simpl in H.
  - now injection H as <-.
  - destruct (organize_classes _ _ _ _ _) as [a1| |] eqn:E; cbn [obind] in H;
      try discriminate.
    eapply IH; [| |exact H].
    + intros i d' k l b n Hin. apply Hr. now right.
    + eapply organize_classes_Forall; [|exact Ha|exact E].
      intros k l b n. apply Hr. now left.
Qed.

(** X11.  Every annotation that is written describes a box of the results:
    it has the image id of an entry, the COCO category of one of the classes
    of that entry, and as [bbox] the corner and the size of one of the boxes
    of that class, in integers, with their product as [area]. *)
Theorem annotations_describe_result_boxes
    (results : list (Z * dict (list Box)))
    (result_annotations : list Coco.annotation) :
  organize_results classid2cocoid results [] = Ok result_annotations ->
  Forall (fun a =>
            exists d class_id l b,
              In (Coco.image_id a, d) results
              /\ dict_get d class_id = Some l /\ In b l
              /\ Coco.category_id a = classid2cocoid class_id
              /\ Coco.bbox a = xyminmax2xywh b
              /\ Coco.area a
                 = (snd (fst (Coco.bbox a)) * snd (Coco.bbox a))%Z
              /\ Coco.iscrowd a = 0%Z /\ Coco.ignore a = 0%Z
              /\ Coco.segmentation a = []
              /\ Coco.det_confidence a = None)
    result_annotations.
Proof.
  apply organize_results_Forall; [|constructor].
  intros image_id d k l b n Hin Hg Hb. exists d, k, l, b.
  unfold annotation_of. destruct (xyminmax2xywh b) as [[[x y] w] h] eqn:E.
  simpl. repeat split; auto.
Qed.

(** X12.  A box whose corners are in order is written with a width, a height
    and an area that are not negative. *)
Theorem written_sizes_not_negative (results : list (Z * dict (list Box)))
    (result_annotations : list Coco.annotation) :
  (forall image_id d k l b,
     In (image_id, d) results -> dict_get d k = Some l -> In b l ->
     xmin b <= xmax b /\ ymin b <= ymax b) ->
  organize_results classid2cocoid results [] = Ok result_annotations ->
  Forall (fun a =>
            let '(_, _, w, h) := Coco.bbox a in
            (0 <= w /\ 0 <= h /\ 0 <= Coco.area a)%Z)
    result_annotations.
Proof.
  intros Hw. apply organize_results_Forall; [|constructor].
  intros image_id d k l b n Hin Hg Hb.
  destruct (Hw _ _ _ _ _ Hin Hg Hb) as [Hx Hy].
  apply py_int_mono in Hx, Hy.
  unfold annotation_of, xyminmax2xywh. simpl. nia.
Qed.

End WrittenEntries.

(** ** Lines 172 and 192: the images of the dataset *)

Lemma find_app_split {A} (p : A -> bool) (l1 l2 : list A) :
  find p (l1 ++ l2)
  = match find p l1 with
    | Some x => Some x
    | None => find p l2
    end.
Proof.
  induction l1 as [|x l1 IH]; simpl; [reflexivity|]. now destruct (p x).
Qed.

Section Images.

Variables Info Cat : Type.
Variable classid2cocoid : Z -> Z.

Lemma images_map_from (images : list (ImageItem Info)) :
  forall (d : dict (ImageItem Info)) (k : Z),
    dict_get (fold_left (fun d item => dict_set d (item_id item) item)
                images d) k
    = match find (fun item => Z.eqb (item_id item) k) (rev images) with
      | Some item => Some item
      | None => dict_get d k
      end.
Proof.
  induction images as [|item images IH]; intros d k; simpl; [reflexivity|].
  rewrite IH, find_app_split.
  destruct (find _ (rev images)); [reflexivity|]. simpl.
  rewrite dict_get_set, (Z.eqb_sym k). now destruct (Z.eqb (item_id item) k).
Qed.

(** [images_map[k]] is the last entry of the file with the id [k]. *)
Lemma images_map_get (images : list (ImageItem Info)) (k : Z) :
  dict_get (images_map images) k
  = find (fun item => Z.eqb (item_id item) k) (rev images).
Proof.
  unfold images_map. rewrite images_map_from.
  now destruct (find _ (rev images)).
Qed.

Lemma find_id_none (images : list (ImageItem Info)) (k : Z) :
  find (fun item => Z.eqb (item_id item) k) (rev images) = None
  <-> ~ In k (map item_id images).
Proof.
  split.
  - intros H Hin. apply in_map_iff in Hin as (item & E & Hin).
    apply in_rev in Hin. pose proof (find_none _ _ H _ Hin) as F.
    simpl in F. rewrite E, Z.eqb_refl in F. discriminate.
  - intros H. destruct (find _ (rev images)) as [item|] eqn:F; [|reflexivity].
    apply find_some in F as [Hin E]. apply Z.eqb_eq in E. exfalso.
    apply H. apply in_map_iff. exists item. split; [exact E|].
    now apply in_rev.
Qed.

Lemma result_images_ok (images : list (ImageItem Info))
    (image_ids : list Z) :
  (forall k, In k image_ids -> In k (map item_id images)) ->
  exists out,
    result_images (images_map images) image_ids = Ok out
    /\ map item_id out = image_ids
    /\ Forall (fun item => In item images) out.
Proof.
  induction image_ids as [|image_id image_ids IH]; intros H; simpl.
  - exists []. repeat split. constructor.
  - unfold dict_getitem. rewrite images_map_get.
    destruct (find _ (rev images)) as [item|] eqn:F.
    + cbn [obind]. destruct IH as (out & -> & Hid & Hin).
      { intros k Hk. apply H. now right. }
      cbn [obind]. exists (item :: out). split; [reflexivity|].
      apply find_some in F as [Hi E]. apply Z.eqb_eq in E.
      split; [simpl; congruence|].
      constructor; [now apply in_rev|exact Hin].
    + apply find_id_none in F. exfalso. apply F. apply H. now left.
Qed.

Lemma result_images_missing (images : list (ImageItem Info))
    (image_ids : list Z) :
  (exists k, In k image_ids /\ ~ In k (map item_id images)) ->
  result_images (images_map images) image_ids = Raise KeyError.
Proof.
  induction image_ids as [|image_id image_ids IH]; intros (k & Hk & Hn).
  - destruct Hk.
  - simpl. unfold dict_getitem. rewrite images_map_get.
    destruct (find _ (rev images)) as [item|] eqn:F.
    + cbn [obind]. destruct Hk as [<-|Hk].
      * exfalso. apply Hn.
        apply find_some in F as [Hi E]. apply Z.eqb_eq in E.
        apply in_map_iff. exists item. split; [exact E|now apply in_rev].
      * rewrite IH by eauto. reflexivity.
    + reflexivity.
Qed.

Lemma result_images_ids (images : list (ImageItem Info))
    (image_ids : list Z) :
  forall out,
    result_images (images_map images) image_ids = Ok out ->
    map item_id out = image_ids.
Proof.
  induction image_ids as [|image_id image_ids IH]; intros out H; simpl in H.
  - now injection H as <-.
  - unfold dict_getitem in H. rewrite images_map_get in H.
    destruct (find _ (rev images)) as [item|] eqn:F; cbn [obind] in H;
      [|discriminate].
    destruct (result_images _ image_ids) as [more| |]; cbn [obind] in H;
      try discriminate.
    injection H as <-. apply find_some in F as [_ E]. apply Z.eqb_eq in E.
    simpl. now rewrite E, (IH more eq_refl).
Qed.

(** X13.  When every image of the results is an image of the annotation
    file, the dataset is returned: its images are those of the results,
    entry by entry, its annotations those written from the results, and its
    categories those of the annotation file. *)
Theorem organize_returns (annotations : AnnotationFile Info Cat)
    (results : list (Z * dict (list Box))) :
  (forall r, In r results ->
     In (fst r) (map item_id (file_images annotations))) ->
  exists dataset,
    organize classid2cocoid annotations results = Ok dataset
    /\ map item_id (Coco.images dataset) = map fst results
    /\ Forall (fun item => In item (file_images annotations))
         (Coco.images dataset)
    /\ organize_results classid2cocoid results []
       = Ok (Coco.annotations dataset)
    /\ Coco.categories dataset = file_categories annotations.
Proof.
  intros H. unfold organize.
  destruct (organize_results_numbered classid2cocoid results [] eq_refl)
    as (anns & E & _).
  rewrite E. cbn [obind].
  destruct (result_images_ok (file_images annotations) (map fst results))
    as (out & -> & Hid & Hin).
  { intros k Hk. apply in_map_iff in Hk as (r & <- & Hr). now apply H. }
  cbn [obind]. eexists. split; [reflexivity|]. simpl. auto.
Qed.

(** X14.  An image of the results that the annotation file does not list
    makes [generate_dataset] end with a [KeyError] at line 192, after all
    the annotations have been written. *)
Theorem organize_unknown_image (annotations : AnnotationFile Info Cat)
    (results : list (Z * dict (list Box))) (r : Z * dict (list Box)) :
  In r results ->
  ~ In (fst r) (map item_id (file_images annotations)) ->
  organize classid2cocoid annotations results = Raise KeyError.
Proof.
  intros Hr Hn. unfold organize.
  destruct (organize_results_numbered classid2cocoid results [] eq_refl)
    as (anns & E & _).
  rewrite E. cbn [obind]. rewrite result_images_missing; [reflexivity|].
  exists (fst r). split; [now apply in_map|exact Hn].
Qed.

End Images.

Section Output.

Variable iou_np : Box -> Box -> Q.
Variable xywh2xyminmax : Q * Q * Q * Q -> Box.
Variables cocoid2classid classid2cocoid : Z -> Z.
Variables Info Cat : Type.
Variable self : MultiscaleGenerator.

(** X15.  When [generate_dataset] returns, the dataset lists the images by
    ascending id, each image once for every scale that holds it, and its
    annotations are numbered from 1. *)
Theorem dataset_lists_image_once_per_scale
    (annotations : AnnotationFile Info Cat)
    (boxes_scales clses_scales scores_scales : dict (dict ref))
    (image_names : list Z) (h h' : heap) (dataset : Coco.dataset Info Cat) :
  generate_dataset_output iou_np xywh2xyminmax cocoid2classid classid2cocoid
    self annotations boxes_scales clses_scales scores_scales image_names h
  = Ok (dataset, h') ->
  map item_id (Coco.images dataset)
  = flat_map (fun image_id =>
                repeat image_id (scale_count self boxes_scales image_id))
      (sorted Z.leb image_names)
  /\ map Coco.id (Coco.annotations dataset)
     = map Z.of_nat (seq 1 (length (Coco.annotations dataset))).
Proof.
  intros H. unfold generate_dataset_output in H.
  apply bind_inv in H as (results & h1 & Hg & H).
  unfold generate_dataset, generate_dataset_with in Hg.
  apply match_images_ids in Hg. simpl in Hg.
  unfold lift, organize in H.
  destruct (organize_results_numbered classid2cocoid results [] eq_refl)
    as (anns & E & Hn & _).
  rewrite E in H. cbn [obind] in H.
  destruct (result_images _ (map fst results)) as [imgs| |] eqn:R;
    cbn [obind] in H; try discriminate.
  injection H as <- _. simpl. split.
  - rewrite (result_images_ids _ _ _ _ R). exact Hg.
  - unfold numbered in Hn. rewrite Hn, <- seq_shift, map_map.
    apply map_ext. intros n. lia.
Qed.

End Output.

Lemma dataset_lists_image_once_per_scale_witness :
  exists dataset h',
    generate_dataset_output iou to_min_max (fun c => c) (fun c => c)
      example_generator example_file boxes_of_store_C clses_of_store_C
      scores_of_store_C [7%Z] store_C
    = Ok (dataset, h')
    /\ map item_id (Coco.images dataset) = [7%Z; 7%Z]
    /\ map Coco.id (Coco.annotations dataset) = [1%Z; 2%Z]
    /\ (map item_id (Coco.images dataset)
        = flat_map (fun image_id =>
                      repeat image_id
                        (scale_count example_generator boxes_of_store_C
                           image_id))
            (sorted Z.leb [7%Z])
        /\ map Coco.id (Coco.annotations dataset)
           = map Z.of_nat (seq 1 (length (Coco.annotations dataset)))).
Proof.
  eexists. eexists. split; [vm_compute; reflexivity|].
  split; [reflexivity|]. split; [reflexivity|].
  eapply (dataset_lists_image_once_per_scale iou to_min_max (fun c => c)
            (fun c => c) nat nat example_generator example_file
            boxes_of_store_C clses_of_store_C scores_of_store_C [7%Z] store_C).
  vm_compute. reflexivity.
Defined.

Lemma annotations_describe_result_boxes_witness :
  exists result_annotations,
    organize_results (fun c => (c + 1)%Z) example_results []
    = Ok result_annotations
    /\ Forall (fun a =>
                 exists d class_id l b,
                   In (Coco.image_id a, d) example_results
                   /\ dict_get d class_id = Some l /\ In b l
                   /\ Coco.category_id a = (class_id + 1)%Z
                   /\ Coco.bbox a = xyminmax2xywh b
                   /\ Coco.area a
                      = (snd (fst (Coco.bbox a)) * snd (Coco.bbox a))%Z
                   /\ Coco.iscrowd a = 0%Z /\ Coco.ignore a = 0%Z
                   /\ Coco.segmentation a = []
                   /\ Coco.det_confidence a = None)
         result_annotations.
Proof.
  eexists. split; [vm_compute; reflexivity|].
  apply (annotations_describe_result_boxes (fun c => (c + 1)%Z)
           example_results).
  vm_compute. reflexivity.
Defined.

Lemma written_sizes_not_negative_witness :
  exists result_annotations,
    organize_results (fun c => (c + 1)%Z) example_results []
    = Ok result_annotations
    /\ Forall (fun a =>
                 let '(_, _, w, h) := Coco.bbox a in
                 (0 <= w /\ 0 <= h /\ 0 <= Coco.area a)%Z)
         result_annotations.
Proof.
  eexists. split; [vm_compute; reflexivity|].
  apply (written_sizes_not_negative (fun c => (c + 1)%Z) example_results).
  - intros image_id d k l b Hin Hg Hb.
    destruct Hin as [E|[E|[]]]; injection E as <- <-; simpl in Hg;
      repeat (match type of Hg with
              | (if ?c then _ else _) = _ => destruct c
              end;
              [injection Hg as <-;
               repeat (destruct Hb as [<-|Hb];
                       [split; unfold Qle; simpl; lia|]);
               destruct Hb|]);
      discriminate.
  - vm_compute. reflexivity.
Defined.

Lemma organize_returns_witness :
  exists dataset,
    organize (fun c => (c + 1)%Z) example_file example_results = Ok dataset
    /\ map item_id (Coco.images dataset) = map fst example_results
    /\ Forall (fun item => In item (file_images example_file))
         (Coco.images dataset)
    /\ organize_results (fun c => (c + 1)%Z) example_results []
       = Ok (Coco.annotations dataset)
    /\ Coco.categories dataset = file_categories example_file.
Proof.
  apply (organize_returns nat nat (fun c => (c + 1)%Z) example_file
           example_results).
  intros r [<-|[<-|[]]]; simpl; tauto.
Defined.

Lemma organize_unknown_image_witness :
  organize (fun c => (c + 1)%Z) example_file
    (example_results ++ [(9%Z, [])])
  = Raise KeyError.
Proof.
  apply (organize_unknown_image nat nat (fun c => (c + 1)%Z) example_file
           (example_results ++ [(9%Z, [])]) (9%Z, [])).
  - simpl. tauto.
  - simpl. intros [H|[H|[]]]; discriminate.
Defined.

(** ** Where the boxes of the result come from *)

Lemma table_of_set {V} (P : Z -> V -> Prop) (d : dict (list V)) (k : Z)
    (l : list V) :
  table_of P d -> (forall v, In v l -> P k v) -> table_of P (dict_set d k l).
Proof.
  intros Hd Hl c l' v G Hv. rewrite dict_get_set in G.
  destruct (Z.eqb_spec c k) as [->|Hn].
  - injection G as <-. now apply Hl.
  - eapply Hd; eauto.
Qed.

Lemma flatten_In {V} (row : Z -> V -> FlatItem) (d : dict (list V))
    (keys : list Z) :
  forall rows,
    flatten row keys d = Ok rows ->
    forall r, In r rows ->
              exists k l v, dict_get d k = Some l /\ In v l /\ r = row k v.
Proof.
  induction keys as [|k keys IH]; intros rows H r Hr; simpl in H.
  - injection H as <-. destruct Hr.
  - unfold dict_getitem in H. destruct (dict_get d k) as [l|] eqn:G;
      cbn [obind] in H; [|discriminate].
    destruct (flatten row keys d) as [more| |]; cbn [obind] in H;
      try discriminate.
    injection H as <-. apply in_app_or in Hr as [Hr|Hr].
    + apply in_map_iff in Hr as (v & <- & Hv). exists k, l, v. auto.
    + eapply IH; eauto.
Qed.

Lemma regroup_In (rows : list FlatItem) (c : Z) (l : list Box) (b : Box) :
  dict_get (regroup rows) c = Some l -> In b l ->
  exists r, In r rows /\ item_class r = c /\ item_bbox r = b.
Proof.
  rewrite regroup_select. intros G Hb.
  destruct (filter _ rows) as [|x sel] eqn:F; [discriminate|].
  injection G as <-.
  change (In b (map item_bbox (x :: sel))) in Hb.
  apply in_map_iff in Hb as (r & E & Hr).
  rewrite <- F in Hr. apply filter_In in Hr as [Hr Ec].
  apply Z.eqb_eq in Ec. eauto.
Qed.

Lemma pool_of_In (d : dict (list Box)) (b : Box) :
  In b (pool_of d) -> exists scale l, dict_get d scale = Some l /\ In b l.
Proof.
  unfold pool_of. intros H. apply in_flat_map in H as (k & _ & H).
  destruct (dict_get d k) as [l|] eqn:G; [eauto|destruct H].
Qed.

Section Provenance.

Variable iou_np : Box -> Box -> Q.
Variable self : MultiscaleGenerator.

Lemma match_gt_gt_only (todo : list Box) :
  forall d mt gonly d' mt' gonly',
    match_gt iou_np self todo d mt gonly = Ok (d', mt', gonly') ->
    sublist gonly' gonly.
Proof.
  induction todo as [|gt todo IH]; intros d mt gonly d' mt' gonly' H;
    simpl in H.
  - injection H as _ _ <-. apply sublist_refl.
  - destruct (match_scales _ _ _ _ _ _ _) as [[[d1 entry] found]| |];
      simpl in H; try discriminate.
    destruct (if found then _ else _) as [gonly1| |] eqn:G; simpl in H;
      try discriminate.
    apply IH in H. eapply sublist_trans; [exact H|].
    destruct found.
    + destruct (find_index _ gonly) as [idx|]; [|discriminate].
      now destruct (np_delete_sublist _ _ _ G).
    + injection G as <-. apply sublist_refl.
Qed.

(** What phases 4.2 and 4.3 leave for a class is made of the ground
    truth and the detections of the class. *)
Lemma match_class_from_inputs (class_id : Z) (gt_objects : dict (list Box))
    (infer_objects : infer_table) (target : list (Box * nat))
    (gt_only_bbox_table infer_only_bbox_table : list Box) :
  match_class iou_np self class_id gt_objects infer_objects
  = Ok (target, gt_only_bbox_table, infer_only_bbox_table) ->
  (forall p, In p target ->
     In (fst p) (gt_boxes_of gt_objects class_id)
     \/ In (fst p) (detections_of infer_objects class_id))
  /\ sublist gt_only_bbox_table (gt_boxes_of gt_objects class_id)
  /\ sublist infer_only_bbox_table (detections_of infer_objects class_id).
Proof.
  unfold match_class. intros H.
  destruct (match_class_parts _ _ _ _ _) as [[[[[gts mt] gonly] ionly] extras]| |]
    eqn:P; cbn [obind] in H; try discriminate.
  injection H as <- <- <-.
  assert (G : Forall (fun b => In b (gt_boxes_of gt_objects class_id)) gts
              /\ sublist gonly (gt_boxes_of gt_objects class_id)
              /\ sublist ionly (detections_of infer_objects class_id)
              /\ forall b, In b extras ->
                           In b (detections_of infer_objects class_id)).
  { unfold match_class_parts, rematch, gt_boxes_of, detections_of in *.
    destruct (dict_get infer_objects class_id) as [d|].
    - destruct (dict_get gt_objects class_id) as [gts0|].
      + destruct (match_gt _ _ _ _ _ _) as [[[d1 mt0] gonly0]| |] eqn:M;
          cbn [obind] in P; try discriminate.
        destruct (extend_scales _ d1 []) as [t| |] eqn:E; cbn [obind] in P;
          try discriminate.
        destruct (rematch_loop _ _ _ _ _ _) as [[left ex]| |] eqn:R;
          cbn [obind] in P; try discriminate.
        cbv beta iota in P. injection P as <- <- <- <- <-.
        destruct (match_gt_spec _ _ _ _ _ _ _ _ _ M) as (Hs & _).
        apply extend_scales_pool in E. simpl in E.
        assert (Hsub : sublist t (pool_of d))
          by (subst t; now apply pool_of_sub).
        destruct (rematch_loop_In _ _ _ _ _ _ _ _ R) as [Hl Hin].
        split; [apply Forall_forall; auto|].
        split; [eapply match_gt_gt_only; eauto|].
        split; [eapply sublist_trans; eauto|].
        intros b Hb. destruct (Hin b Hb) as [[]|Hb'].
        eapply sublist_In; eauto.
      + destruct (extend_scales _ d []) as [t| |] eqn:E; cbn [obind] in P;
          try discriminate.
        destruct (rematch_loop _ _ _ _ _ _) as [[left ex]| |] eqn:R;
          cbn [obind] in P; try discriminate.
        cbv beta iota in P. injection P as <- <- <- <- <-.
        apply extend_scales_pool in E. simpl in E. subst t.
        destruct (rematch_loop_In _ _ _ _ _ _ _ _ R) as [Hl Hin].
        split; [constructor|]. split; [apply sublist_nil|].
        split; [exact Hl|].
        intros b Hb. destruct (Hin b Hb) as [[]|Hb']. exact Hb'.
    - destruct (dict_get gt_objects class_id) as [gts0|]; simpl in P;
        injection P as <- <- <- <- <-.
      + split; [apply Forall_forall; auto|]. split; [apply sublist_refl|].
        split; [apply sublist_nil|]. intros b [].
      + split; [constructor|]. split; [apply sublist_nil|].
        split; [apply sublist_nil|]. intros b []. }
  destruct G as (Hg & Hgo & Hio & Hex). split; [|auto].
  intros p Hp. unfold match_table_target in Hp.
  apply in_app_or in Hp as [Hp|Hp].
  - left. apply in_map_iff in Hp as ([g e] & <- & Hp).
    apply filter_In in Hp as [Hp _]. apply in_combine_l in Hp. simpl.
    rewrite Forall_forall in Hg. now apply Hg.
  - right. apply in_map_iff in Hp as (b & <- & Hb). simpl. now apply Hex.
Qed.

Lemma match_classes_from_inputs (gt_objects : dict (list Box))
    (infer_objects : infer_table) (classes : list Z) :
  forall m g i m' g' i',
    match_classes iou_np self classes gt_objects infer_objects (m, g, i)
    = Ok (m', g', i') ->
    table_of (fun c p => In (fst p) (gt_boxes_of gt_objects c)
                         \/ In (fst p) (detections_of infer_objects c)) m ->
    table_of (fun c b => In b (gt_boxes_of gt_objects c)) g ->
    table_of (fun c b => In b (detections_of infer_objects c)) i ->
    table_of (fun c p => In (fst p) (gt_boxes_of gt_objects c)
                         \/ In (fst p) (detections_of infer_objects c)) m'
    /\ table_of (fun c b => In b (gt_boxes_of gt_objects c)) g'
    /\ table_of (fun c b => In b (detections_of infer_objects c)) i'.
Proof.
  induction classes as [|c classes IH]; intros m g i m' g' i' H Hm Hg Hi;
    simpl in H.
  - injection H as <- <- <-. auto.
  - destruct (match_class _ _ _ _ _) as [[[target gonly] ionly]| |] eqn:E;
      cbn [obind] in H; try discriminate.
    destruct (match_class_from_inputs _ _ _ _ _ _ E) as (Ht & Hgo & Hio).
    apply IH in H; [exact H| | |].
    + destruct target; [exact Hm|]. now apply table_of_set.
    + destruct gonly; [exact Hg|]. apply table_of_set; [exact Hg|].
      intros v Hv. eapply sublist_In; eauto.
    + destruct ionly; [exact Hi|]. apply table_of_set; [exact Hi|].
      intros v Hv. eapply sublist_In; eauto.
Qed.

End Provenance.

Lemma boxes_of_class_In (c : Z) (o_cls : list Z) (o_bboxes : list Box) (b : Box) :
  In b (boxes_of_class c o_cls o_bboxes) -> In b o_bboxes.
Proof.
  unfold boxes_of_class. intros H. apply in_map_iff in H as ([c' b'] & <- & H).
  apply filter_In in H as [H _]. now apply in_combine_r in H.
Qed.

Section ResultBoxes.

Variable iou_np : Box -> Box -> Q.
Variable xywh2xyminmax : Q * Q * Q * Q -> Box.
Variable cocoid2classid : Z -> Z.
Variable self : MultiscaleGenerator.

Lemma read_inputs_lengths (image_name : Z) (b c s : ref) (h h' : heap)
    (o_cls : list Z) (o_bboxes : list Box) (infer_objects : infer_table)
    (all_cls : list Z) :
  read_inputs xywh2xyminmax cocoid2classid self image_name b c s h
  = Ok ((o_cls, o_bboxes, infer_objects, all_cls), h') ->
  length o_cls = length o_bboxes.
Proof.
  unfold read_inputs. intros H.
  apply bind_inv in H as ([cls0 boxes0] & h1 & Hg & H).
  unfold load_gt in Hg. apply bind_inv in Hg as (m & h2 & _ & Hg).
  unfold ret in Hg. injection Hg as <- <- _.
  apply bind_inv in H as (io & h3 & _ & H).
  apply bind_inv in H as (ac & h4 & _ & H).
  unfold ret in H. injection H as <- <- _ _ _.
  now rewrite !length_map.
Qed.

Lemma reconcile_from_inputs (o_cls : list Z) (o_bboxes : list Box)
    (infer_objects : infer_table) (all_cls : list Z)
    (m g i : dict (list Box)) :
  length o_cls = length o_bboxes ->
  reconcile iou_np self (o_cls, o_bboxes, infer_objects, all_cls)
  = Ok (m, g, i) ->
  table_of (fun _ b => In b o_bboxes
                       \/ exists c, In b (detections_of infer_objects c)) m
  /\ table_of (fun c b => In b (boxes_of_class c o_cls o_bboxes)) g
  /\ table_of (fun c b => In b (detections_of infer_objects c)) i.
Proof.
  intros Hlen H. unfold reconcile, per_class_phases in H.
  rewrite (gt_by_class_ok o_cls o_bboxes Hlen) in H. cbn [obind] in H.
  set (gt_objects :=
         fold_left (fun d c => dict_set d c (boxes_of_class c o_cls o_bboxes))
           (sorted Z.leb (np_unique o_cls)) []) in *.
  assert (Hgt : forall c, gt_boxes_of gt_objects c
                          = boxes_of_class c o_cls o_bboxes)
    by (intros c; apply gt_boxes_of_gt_objects).
  destruct (match_classes _ _ _ _ _ _) as [[[M G] I]| |] eqn:E;
    cbn [obind] in H; try discriminate.
  destruct (match_classes_from_inputs _ _ _ _ _ _ _ _ _ _ _ E)
    as (HM & HG & HI); try (intros c l v Hc; discriminate).
  unfold flatten_tables, flatten_matched, flatten_boxes in H.
  destruct (flatten _ _ M) as [m0| |] eqn:Fm; cbn [obind] in H;
    try discriminate.
  destruct (flatten _ _ G) as [g0| |] eqn:Fg; cbn [obind] in H;
    try discriminate.
  destruct (flatten _ _ I) as [i0| |] eqn:Fi; cbn [obind] in H;
    try discriminate.
  destruct (resolver_values _ _ _ _ _) as [[[m1 g1] i1]| |] eqn:R;
    cbn [obind] in H; try discriminate.
  injection H as <- <- <-.
  destruct (resolve_values_shrinks _ _ _ _ _ _ _ _ _ _ R) as ([_ W] & Sg & Si).
  split; [|split].
  - intros c l b Hc Hb.
    destruct (regroup_In _ _ _ _ Hc Hb) as (r & Hr & _ & <-).
    destruct (W r Hr) as (r0 & Hr0 & ->).
    destruct (flatten_In _ _ _ _ Fm r0 Hr0) as (k & l0 & p & Hk & Hp & ->).
    simpl. destruct (HM k l0 p Hk Hp) as [Hin|Hin].
    + left. rewrite Hgt in Hin. eapply boxes_of_class_In; eauto.
    + right. eauto.
  - intros c l b Hc Hb.
    destruct (regroup_In _ _ _ _ Hc Hb) as (r & Hr & <- & <-).
    pose proof (sublist_In _ _ _ Sg Hr) as Hr0.
    destruct (flatten_In _ _ _ _ Fg r Hr0) as (k & l0 & v & Hk & Hv & ->).
    simpl. rewrite <- Hgt. eapply HG; eauto.
  - intros c l b Hc Hb.
    destruct (regroup_In _ _ _ _ Hc Hb) as (r & Hr & <- & <-).
    pose proof (sublist_In _ _ _ Si Hr) as Hr0.
    destruct (flatten_In _ _ _ _ Fi r Hr0) as (k & l0 & v & Hk & Hv & ->).
    simpl. eapply HI; eauto.
Qed.

(** X16.  The matcher invents no box. Every box it returns under a class in
    [gt_only] is a ground-truth box of that class, every box it returns
    under a class in [infer_only] is one of the detections it has collected
    for that class, and every box of [matched] is a ground-truth box or a
    collected detection. *)
Theorem result_boxes_come_from_inputs (image_name : Z)
    (bboxes_scales cls_scales scores_scales : ref) (h h0 h' : heap)
    (o_cls : list Z) (o_bboxes : list Box) (infer_objects : infer_table)
    (all_cls : list Z) (matched gt_only infer_only : dict (list Box)) :
  read_inputs xywh2xyminmax cocoid2classid self image_name bboxes_scales
    cls_scales scores_scales h
  = Ok ((o_cls, o_bboxes, infer_objects, all_cls), h0) ->
  multiscale_match iou_np xywh2xyminmax cocoid2classid self image_name
    bboxes_scales cls_scales scores_scales h
  = Ok ((matched, gt_only, infer_only), h') ->
  table_of (fun _ b => In b o_bboxes
                       \/ exists c, In b (detections_of infer_objects c))
    matched
  /\ table_of (fun c b => In b (boxes_of_class c o_cls o_bboxes)) gt_only
  /\ table_of (fun c b => In b (detections_of infer_objects c)) infer_only.
Proof.
  intros Hr Hm.
  pose proof (read_inputs_lengths _ _ _ _ _ _ _ _ _ _ Hr) as Hlen.
  pose proof (read_inputs_same_store _ _ _ _ _ _ _ _ _ _ Hr) as ->.
  pose proof (multiscale_match_spec iou_np _ _ _ _ _ _ _ _ _ Hr) as Sp.
  destruct (reconcile iou_np self _) as [t| |] eqn:E;
    try (rewrite Sp in Hm; discriminate).
  destruct Sp as (h1 & E1 & _). rewrite E1 in Hm. injection Hm as -> _.
  exact (reconcile_from_inputs o_cls o_bboxes infer_objects all_cls _ _ _
           Hlen E).
Qed.

End ResultBoxes.

Lemma result_boxes_come_from_inputs_witness :
  exists matched gt_only infer_only h',
    multiscale_match iou to_min_max (fun c => c) three_scale_generator 7%Z
      10%nat 11%nat 12%nat store_D
    = Ok ((matched, gt_only, infer_only), h')
    /\ table_of (fun _ b =>
                   In b [mkBox 1 1 9 9]
                   \/ exists c,
                        In b (detections_of
                                [(1%Z, [(320%Z, [mkBox 0 0 10 10]);
                                        (480%Z, [mkBox 0 0 10 10]);
                                        (640%Z, [mkBox 0 0 10 10])])] c))
         matched
    /\ table_of (fun c b => In b (boxes_of_class c [2%Z] [mkBox 1 1 9 9]))
         gt_only
    /\ table_of (fun c b =>
                   In b (detections_of
                           [(1%Z, [(320%Z, [mkBox 0 0 10 10]);
                                   (480%Z, [mkBox 0 0 10 10]);
                                   (640%Z, [mkBox 0 0 10 10])])] c))
         infer_only.
Proof.
  eexists. eexists. eexists. eexists. split; [vm_compute; reflexivity|].
  eapply (result_boxes_come_from_inputs iou to_min_max (fun c => c)
            three_scale_generator 7%Z 10%nat 11%nat 12%nat store_D).
  - vm_compute. reflexivity.
  - vm_compute. reflexivity.
Defined.

(** ** Lines 213-230: the detections that are collected *)

Lemma above_conf_kept (self : MultiscaleGenerator)
    (bboxes : list Box) (cls : list Z) (scores : list Q) :
  length bboxes = length scores ->
  length cls = length scores ->
  above_conf self bboxes cls scores
  = Ok (map (fun d => fst (fst d)) (kept_rows self bboxes cls scores),
        map (fun d => snd (fst d)) (kept_rows self bboxes cls scores)).
Proof.
  intros Hb Hc. unfold above_conf, np_where, kept_rows.
  pose proof (take_rows_where bboxes
                (map (fun s => Qgt_bool s (conf_thresh self)) scores) [])
    as Tb.
  pose proof (take_rows_where cls
                (map (fun s => Qgt_bool s (conf_thresh self)) scores) [])
    as Tc.
  simpl in Tb, Tc.
  rewrite Tb, Tc by (now rewrite length_map). simpl.
  destruct (select_side_by_side (fun s => Qgt_bool s (conf_thresh self))
              bboxes cls scores Hb Hc) as [-> ->].
  reflexivity.
Qed.

Lemma infer_lookup_set_some (infer_objects : infer_table)
    (per_scale : dict (list Box)) (class_id scale : Z) (rows : list Box)
    (c s : Z) :
  dict_get infer_objects class_id = Some per_scale ->
  infer_lookup
    (dict_set infer_objects class_id (dict_set per_scale scale rows)) c s
  = if Z.eqb c class_id && Z.eqb s scale then Some rows
    else infer_lookup infer_objects c s.
Proof.
  intros G. unfold infer_lookup. rewrite dict_get_set.
  destruct (Z.eqb_spec c class_id) as [->|Hn]; simpl; [|reflexivity].
  rewrite dict_get_set, G. now destruct (Z.eqb s scale).
Qed.

Lemma infer_lookup_set_none (infer_objects : infer_table)
    (class_id scale : Z) (rows : list Box) (c s : Z) :
  dict_get infer_objects class_id = None ->
  infer_lookup
    (dict_set (dict_set infer_objects class_id []) class_id
       (dict_set [] scale rows)) c s
  = if Z.eqb c class_id && Z.eqb s scale then Some rows
    else infer_lookup infer_objects c s.
Proof.
  intros G. unfold infer_lookup. rewrite !dict_get_set.
  destruct (Z.eqb_spec c class_id) as [->|Hn]; simpl; [|reflexivity].
  rewrite G. simpl. now destruct (Z.eqb s scale).
Qed.

Lemma assign_classes_spec (scale : Z) (bboxes : list Box) (cls : list Z) :
  length cls = length bboxes ->
  forall classes infer_objects,
    exists infer_objects',
      assign_classes scale bboxes cls classes infer_objects = Ok infer_objects'
      /\ forall c s,
           infer_lookup infer_objects' c s
           = if existsb (Z.eqb c) classes && Z.eqb s scale
             then Some (boxes_of_class c cls bboxes)
             else infer_lookup infer_objects c s.
Proof.
  intros Hlen. induction classes as [|k classes IH]; intros io.
  - exists io. split; [reflexivity|]. intros c s. reflexivity.
  - cbn [assign_classes]. unfold np_where.
    pose proof (take_rows_where bboxes (map (fun c0 => Z.eqb c0 k) cls) [])
      as T.
    simpl in T. rewrite T by (rewrite length_map; auto). cbn [obind].
    rewrite (boxes_of_class_where k cls bboxes Hlen).
    set (rows := boxes_of_class k cls bboxes).
    assert (Hb : forall c s (x : option (list Box)),
               (if existsb (Z.eqb c) classes && Z.eqb s scale
                then Some (boxes_of_class c cls bboxes)
                else if Z.eqb c k && Z.eqb s scale then Some rows else x)
               = if existsb (Z.eqb c) (k :: classes) && Z.eqb s scale
                 then Some (boxes_of_class c cls bboxes)
                 else x).
    { intros c s x. cbn [existsb]. unfold rows.
      destruct (Z.eqb_spec c k) as [->|Hn]; simpl; [|reflexivity].
      destruct (existsb (Z.eqb k) classes), (Z.eqb s scale); reflexivity. }
    destruct (dict_get io k) as [d|] eqn:G.
    + unfold dict_getitem. rewrite G. cbn [obind].
      destruct (IH (dict_set io k (dict_set d scale rows))) as (io' & E & Hio).
      exists io'. split; [exact E|]. intros c s.
      rewrite Hio, (infer_lookup_set_some io d k scale rows c s G).
      apply Hb.
    + unfold dict_getitem. rewrite dict_get_set, Z.eqb_refl. cbn [obind].
      destruct (IH (dict_set (dict_set io k []) k (dict_set [] scale rows)))
        as (io' & E & Hio).
      exists io'. split; [exact E|]. intros c s.
      rewrite Hio, (infer_lookup_set_none io k scale rows c s G).
      apply Hb.
Qed.

Section Collected.

Variable self : MultiscaleGenerator.
Variables bboxes_scales cls_scales scores_scales : ref.
Variable h : heap.

Local Abbreviation well_formed :=
  (scale_well_formed h bboxes_scales cls_scales scores_scales).

Lemma scale_in_store_unique (scale : Z) (b b' : list Box) (c c' : list Z)
    (s s' : list Q) :
  scale_in_store h bboxes_scales cls_scales scores_scales scale b c s ->
  scale_in_store h bboxes_scales cls_scales scores_scales scale b' c' s' ->
  b = b' /\ c = c' /\ s = s'.
Proof.
  intros (bd & cd & sd & rb & rc & rs & H1 & H2 & H3 & H4 & H5 & H6 & H7 & H8 & H9)
         (bd' & cd' & sd' & rb' & rc' & rs'
          & H1' & H2' & H3' & H4' & H5' & H6' & H7' & H8' & H9').
  rewrite H1 in H1'. injection H1' as <-.
  rewrite H2 in H2'. injection H2' as <-.
  rewrite H3 in H3'. injection H3' as <-.
  rewrite H4 in H4'. injection H4' as <-.
  rewrite H5 in H5'. injection H5' as <-.
  rewrite H6 in H6'. injection H6' as <-.
  rewrite H7 in H7'. rewrite H8 in H8'. rewrite H9 in H9'.
  injection H7' as <-. injection H8' as <-. injection H9' as <-. auto.
Qed.

Lemma collect_spec (todo : list Z) :
  NoDup todo ->
  (forall scale, In scale todo -> well_formed scale) ->
  forall infer_objects,
    (forall c s, In s todo -> infer_lookup infer_objects c s = None) ->
    exists infer_objects',
      collect_infer_objects self bboxes_scales cls_scales scores_scales todo
        infer_objects h
      = Ok (infer_objects', h)
      /\ (forall c s, ~ In s todo ->
            infer_lookup infer_objects' c s = infer_lookup infer_objects c s)
      /\ forall c s bboxes cls scores,
           In s todo ->
           scale_in_store h bboxes_scales cls_scales scores_scales s
             bboxes cls scores ->
           infer_lookup infer_objects' c s
           = match class_rows c (kept_rows self bboxes cls scores) with
             | [] => None
             | rows => Some rows
             end.
Proof.
  induction 1 as [|scale todo Hnot Hnd IH]; intros Hwf io Hfresh.
  - exists io. split; [reflexivity|]. split; [auto|]. intros c s b cl sc [].
  - destruct (Hwf scale (or_introl eq_refl))
      as (bboxes & cls & scores & Hst & Lb & Lc).
    pose proof Hst as (bd & cd & sd & rb & rc & rs
                       & Hbd & Hcd & Hsd & Grb & Grc & Grs & Hb & Hc & Hsc).
    cbn [collect_infer_objects].
    rewrite (bind_ok _ _ _ _ _ (load_dict_at _ _ _ Hbd)).
    rewrite bind_lift. unfold dict_getitem at 1. rewrite Grb.
    rewrite (bind_ok _ _ _ _ _ (load_boxes_at _ _ _ Hb)).
    rewrite (bind_ok _ _ _ _ _ (load_dict_at _ _ _ Hcd)).
    rewrite bind_lift. unfold dict_getitem at 1. rewrite Grc.
    rewrite (bind_ok _ _ _ _ _ (load_ints_at _ _ _ Hc)).
    rewrite (bind_ok _ _ _ _ _ (load_dict_at _ _ _ Hsd)).
    rewrite bind_lift. unfold dict_getitem at 1. rewrite Grs.
    rewrite (bind_ok _ _ _ _ _ (load_floats_at _ _ _ Hsc)).
    set (kept := kept_rows self bboxes cls scores).
    set (bboxes' := map (fun d : Box * Z * Q => fst (fst d)) kept).
    set (cls' := map (fun d : Box * Z * Q => snd (fst d)) kept).
    assert (Hrows : forall c, boxes_of_class c cls' bboxes' = class_rows c kept).
    { intros c. unfold cls', bboxes', class_rows.
      apply (boxes_of_class_items (fun d : Box * Z * Q => snd (fst d))
               (fun d : Box * Z * Q => fst (fst d))). }
    assert (Step : exists io1,
               (match bboxes with
                | [] =>
                    collect_infer_objects self bboxes_scales cls_scales
                      scores_scales todo io
                | _ :: _ =>
                    bind (lift (above_conf self bboxes cls scores))
                      (fun '(bboxes0, cls0) =>
                         bind (lift (assign_classes scale bboxes0 cls0
                                       (sorted Z.leb (np_unique cls0)) io))
                           (fun infer_objects0 =>
                              collect_infer_objects self bboxes_scales
                                cls_scales scores_scales todo infer_objects0))
                end) h
               = collect_infer_objects self bboxes_scales cls_scales
                   scores_scales todo io1 h
               /\ forall c s,
                    infer_lookup io1 c s
                    = if Z.eqb s scale
                      then match class_rows c kept with
                           | [] => None
                           | rows => Some rows
                           end
                      else infer_lookup io c s).
    { destruct bboxes as [|b0 bboxes0].
      - exists io. split; [reflexivity|]. intros c s.
        destruct (Z.eqb_spec s scale) as [->|Hn]; [|reflexivity].
        rewrite Hfresh by now left.
        destruct scores; [|discriminate]. destruct cls; [|discriminate].
        reflexivity.
      - rewrite bind_lift, (above_conf_kept self _ _ _ Lb Lc).
        fold kept. fold bboxes'. fold cls'.
        destruct (assign_classes_spec scale bboxes' cls'
                    (eq_trans (length_map _ _) (eq_sym (length_map _ _)))
                    (sorted Z.leb (np_unique cls')) io) as (io1 & E1 & H1).
        rewrite bind_lift, E1. exists io1. split; [reflexivity|].
        intros c s. rewrite H1, Hrows.
        destruct (Z.eqb_spec s scale) as [->|Hn];
          [|now rewrite andb_false_r].
        rewrite andb_true_r.
        destruct (existsb (Z.eqb c) (sorted Z.leb (np_unique cls'))) eqn:Ex.
        + apply (proj1 (existsb_eqb_In _ _)) in Ex.
          apply (proj1 (classes_In _ _)) in Ex.
          pose proof (boxes_of_class_cons c cls' bboxes'
                        (eq_trans (length_map _ _) (eq_sym (length_map _ _)))
                        Ex) as Hne.
          rewrite Hrows in Hne. destruct (class_rows c kept); congruence.
        + rewrite Hfresh by now left.
          assert (Hno : ~ In c cls').
          { intros Hin. apply (proj2 (classes_In _ _)) in Hin.
            apply (proj2 (existsb_eqb_In _ _)) in Hin. congruence. }
          rewrite <- Hrows, (boxes_of_class_nil c cls' bboxes' Hno).
          reflexivity. }
    destruct Step as (io1 & -> & H1).
    destruct (IH (fun s Hs => Hwf s (or_intror Hs)) io1) as (io' & E & Hout & Hin).
    { intros c s Hs. rewrite H1.
      destruct (Z.eqb_spec s scale) as [->|Hn]; [contradiction|].
      apply Hfresh. now right. }
    exists io'. split; [exact E|]. split.
    + intros c s Hs. rewrite Hout by (intros Hin'; apply Hs; now right).
      rewrite H1. destruct (Z.eqb_spec s scale) as [->|Hn]; [|reflexivity].
      exfalso. apply Hs. now left.
    + intros c s b cl sc Hs Hst'.
      destruct Hs as [<-|Hs].
      * rewrite Hout by exact Hnot. rewrite H1, Z.eqb_refl.
        destruct (scale_in_store_unique _ _ _ _ _ _ _ Hst Hst')
          as (<- & <- & <-).
        reflexivity.
      * now apply Hin.
Qed.

(** X17.  The detections that the matcher works on. Under a class and a
    scale, [infer_objects] holds the boxes of the scale that have this class
    and a score above [conf_thresh], in the order of the array; the key is
    missing when there is no such box. *)
Theorem collected_detections :
  NoDup (scales self) ->
  (forall scale, In scale (scales self) -> well_formed scale) ->
  exists infer_objects,
    collect_infer_objects self bboxes_scales cls_scales scores_scales
      (scales self) [] h
    = Ok (infer_objects, h)
    /\ (forall c s, ~ In s (scales self) -> infer_lookup infer_objects c s = None)
    /\ forall c s bboxes cls scores,
         In s (scales self) ->
         scale_in_store h bboxes_scales cls_scales scores_scales s
           bboxes cls scores ->
         infer_lookup infer_objects c s
         = match class_rows c (kept_rows self bboxes cls scores) with
           | [] => None
           | rows => Some rows
           end.
Proof.
  intros Hnd Hwf.
  destruct (collect_spec (scales self) Hnd Hwf []) as (io & E & Hout & Hin).
  - intros c s _. reflexivity.
  - exists io. split; [exact E|]. split; [|exact Hin].
    intros c s Hs. now rewrite Hout.
Qed.

End Collected.

Lemma collected_detections_witness :
  exists infer_objects,
    collect_infer_objects three_scale_generator 10%nat 11%nat 12%nat
      (scales three_scale_generator) [] store_D
    = Ok (infer_objects, store_D)
    /\ (forall c s, ~ In s (scales three_scale_generator) ->
          infer_lookup infer_objects c s = None)
    /\ forall c s bboxes cls scores,
         In s (scales three_scale_generator) ->
         scale_in_store store_D 10%nat 11%nat 12%nat s bboxes cls scores ->
         infer_lookup infer_objects c s
         = match class_rows c
                   (kept_rows three_scale_generator bboxes cls scores) with
           | [] => None
           | rows => Some rows
           end.
Proof.
  apply (collected_detections three_scale_generator 10%nat 11%nat 12%nat
           store_D).
  - repeat constructor; simpl; intuition discriminate.
  - intros scale Hs.
    exists [mkBox 0 0 10 10], [1%Z], [9 # 10].
    split; [|split; reflexivity].
    destruct Hs as [<-|[<-|[<-|[]]]].
    + exists [(320%Z, 1%nat); (480%Z, 4%nat); (640%Z, 7%nat)],
        [(320%Z, 2%nat); (480%Z, 5%nat); (640%Z, 8%nat)],
        [(320%Z, 3%nat); (480%Z, 6%nat); (640%Z, 9%nat)],
        1%nat, 2%nat, 3%nat.
      repeat split.
    + exists [(320%Z, 1%nat); (480%Z, 4%nat); (640%Z, 7%nat)],
        [(320%Z, 2%nat); (480%Z, 5%nat); (640%Z, 8%nat)],
        [(320%Z, 3%nat); (480%Z, 6%nat); (640%Z, 9%nat)],
        4%nat, 5%nat, 6%nat.
      repeat split.
    + exists [(320%Z, 1%nat); (480%Z, 4%nat); (640%Z, 7%nat)],
        [(320%Z, 2%nat); (480%Z, 5%nat); (640%Z, 8%nat)],
        [(320%Z, 3%nat); (480%Z, 6%nat); (640%Z, 9%nat)],
        7%nat, 8%nat, 9%nat.
      repeat split.
Defined.

(** ** A scale that the image lacks *)

Section MissingScale.

Variable iou_np : Box -> Box -> Q.
Variable xywh2xyminmax : Q * Q * Q * Q -> Box.
Variable cocoid2classid : Z -> Z.
Variable self : MultiscaleGenerator.
Variables bboxes_scales cls_scales scores_scales : ref.
Variable h : heap.

Lemma collect_step (scale : Z) (rest : list Z) (infer_objects : infer_table) :
  scale_well_formed h bboxes_scales cls_scales scores_scales scale ->
  exists infer_objects',
    collect_infer_objects self bboxes_scales cls_scales scores_scales
      (scale :: rest) infer_objects h
    = collect_infer_objects self bboxes_scales cls_scales scores_scales
        rest infer_objects' h.
Proof.
  intros (bboxes & cls & scores
          & (bd & cd & sd & rb & rc & rs
             & Hbd & Hcd & Hsd & Grb & Grc & Grs & Hb & Hc & Hsc) & Lb & Lc).
  cbn [collect_infer_objects].
  rewrite (bind_ok _ _ _ _ _ (load_dict_at _ _ _ Hbd)).
  rewrite bind_lift. unfold dict_getitem at 1. rewrite Grb.
  rewrite (bind_ok _ _ _ _ _ (load_boxes_at _ _ _ Hb)).
  rewrite (bind_ok _ _ _ _ _ (load_dict_at _ _ _ Hcd)).
  rewrite bind_lift. unfold dict_getitem at 1. rewrite Grc.
  rewrite (bind_ok _ _ _ _ _ (load_ints_at _ _ _ Hc)).
  rewrite (bind_ok _ _ _ _ _ (load_dict_at _ _ _ Hsd)).
  rewrite bind_lift. unfold dict_getitem at 1. rewrite Grs.
  rewrite (bind_ok _ _ _ _ _ (load_floats_at _ _ _ Hsc)).
  destruct bboxes as [|b0 bboxes0]; [eexists; reflexivity|].
  rewrite bind_lift, (above_conf_kept self _ _ _ Lb Lc).
  destruct (assign_classes_spec scale
              (map (fun d : Box * Z * Q => fst (fst d))
                 (kept_rows self (b0 :: bboxes0) cls scores))
              (map (fun d : Box * Z * Q => snd (fst d))
                 (kept_rows self (b0 :: bboxes0) cls scores))
              (eq_trans (length_map _ _) (eq_sym (length_map _ _)))
              (sorted Z.leb
                 (np_unique
                    (map (fun d : Box * Z * Q => snd (fst d))
                       (kept_rows self (b0 :: bboxes0) cls scores))))
              infer_objects) as (io1 & E1 & _).
  rewrite bind_lift, E1. exists io1. reflexivity.
Qed.

Lemma collect_missing (scale : Z) (post : list Z) (bd : dict ref)
    (pre : list Z) :
  nth_error h bboxes_scales = Some (PyDict bd) ->
  dict_get bd scale = None ->
  (forall x, In x pre ->
     scale_well_formed h bboxes_scales cls_scales scores_scales x) ->
  forall infer_objects,
    collect_infer_objects self bboxes_scales cls_scales scores_scales
      (pre ++ scale :: post) infer_objects h
    = Raise KeyError.
Proof.
  intros Hbd Hno. induction pre as [|x pre IH]; intros Hwf io.
  - cbn [app collect_infer_objects].
    rewrite (bind_ok _ _ _ _ _ (load_dict_at _ _ _ Hbd)).
    rewrite bind_lift. unfold dict_getitem. now rewrite Hno.
  - simpl app.
    destruct (collect_step x (pre ++ scale :: post) io
                (Hwf x (or_introl eq_refl))) as (io1 & ->).
    apply IH. intros y Hy. apply Hwf. now right.
Qed.

(** X18.  When the dictionary of the boxes has no entry for one of
    [self.scales], and the scales before it are in order, the matcher ends
    with a [KeyError] at line 215. *)
Theorem missing_scale_raises_key_error (image_name : Z)
    (annotations : dict (list Annotation)) (bd : dict ref)
    (pre post : list Z) (scale : Z) :
  nth_error h (annotation_map self) = Some (PyAnnotations annotations) ->
  nth_error h bboxes_scales = Some (PyDict bd) ->
  dict_get bd scale = None ->
  scales self = pre ++ scale :: post ->
  (forall x, In x pre ->
     scale_well_formed h bboxes_scales cls_scales scores_scales x) ->
  multiscale_match iou_np xywh2xyminmax cocoid2classid self image_name
    bboxes_scales cls_scales scores_scales h
  = Raise KeyError.
Proof.
  intros Ha Hbd Hno Hsc Hwf. unfold multiscale_match, read_inputs, load_gt.
  apply bind_raise.
  rewrite (bind_ok _ _ _ _ _
             (bind_ok _ _ _ _ _ (load_annotations_at _ _ _ Ha))).
  unfold ret at 1. apply bind_raise. rewrite Hsc.
  now apply (collect_missing scale post bd pre).
Qed.

End MissingScale.

Lemma missing_scale_raises_key_error_witness :
  multiscale_match iou to_min_max (fun c => c) example_generator 7%Z
    4%nat 5%nat 6%nat
    [ PyAnnotations [];
      NdBoxes [mkBox 0 0 10 10]; NdInts [1%Z]; NdFloats [9 # 10];
      PyDict [(320%Z, 1%nat)];
      PyDict [(320%Z, 2%nat)];
      PyDict [(320%Z, 3%nat)] ]
  = Raise KeyError.
Proof.
  apply (missing_scale_raises_key_error iou to_min_max (fun c => c)
           example_generator 4%nat 5%nat 6%nat _ 7%Z []
           [(320%Z, 1%nat)] [320%Z] [] 640%Z); try reflexivity.
  intros x [<-|[]].
  exists [mkBox 0 0 10 10], [1%Z], [9 # 10].
  split; [|split; reflexivity].
  exists [(320%Z, 1%nat)], [(320%Z, 2%nat)], [(320%Z, 3%nat)],
    1%nat, 2%nat, 3%nat.
  repeat split.
Defined.

(** ** [naiive.py]: the detections that are written *)

Lemma combine_app {A B} (a a' : list A) (b b' : list B) :
  length a = length b ->
  combine (a ++ a') (b ++ b') = combine a b ++ combine a' b'.
Proof.
  revert b. induction a as [|x a IH]; intros [|y b] H; simpl in *;
    try discriminate; [reflexivity|].
  injection H as H. now rewrite IH.
Qed.

Lemma length_combine_same {A B} (a : list A) (b : list B) :
  length a = length b -> length (combine a b) = length b.
Proof. intros H. rewrite length_combine. lia. Qed.

Lemma entries_of_snoc (rb : list (list Box)) (rc : list (list Z))
    (rs : list (list Q)) (rn : list Z) (b : list Box) (c : list Z)
    (s : list Q) (n : Z) :
  aligned (rb, rc, rs, rn) ->
  aligned (rb ++ [b], rc ++ [c], rs ++ [s], rn ++ [n])
  /\ entries_of (rb ++ [b], rc ++ [c], rs ++ [s], rn ++ [n])
     = entries_of (rb, rc, rs, rn) ++ [(b, c, s, n)].
Proof.
  unfold aligned, entries_of. intros (H1 & H2 & H3).
  split; [rewrite !length_app; simpl; lia|].
  rewrite !combine_app; simpl; try reflexivity.
  - rewrite !length_combine. lia.
  - rewrite length_combine. lia.
  - lia.
Qed.

Lemma skipn_S_tl {A} (l : list A) :
  forall k, skipn (S k) l = tl (skipn k l).
Proof.
  induction l as [|x l IH]; intros [|k]; try reflexivity.
  change (skipn (S k) l = tl (skipn k l)). apply IH.
Qed.

Lemma skipn_nth_hd {A} (l : list A) (x : A) :
  forall k, nth_error l k = Some x -> skipn k l = x :: tl (skipn k l).
Proof.
  induction l as [|y l IH]; intros [|k] H; simpl in *; try discriminate.
  - now injection H as ->.
  - now apply IH.
Qed.

Section NaiiveCollected.

Variable test_size : positive * positive.

Lemma collect_outputs_spec (batch : Batch)
    (outputs : list (option (list OutputRow))) :
  forall (batch_idx : nat) (ids : list Z) (acc acc' : detection_lists),
    skipn batch_idx (img_id batch) = ids ->
    aligned acc ->
    collect_outputs test_size batch batch_idx outputs acc = Ok acc' ->
    aligned acc'
    /\ exists new,
         entries_of acc' = entries_of acc ++ new
         /\ snd acc' = snd acc ++ map snd new
         /\ map snd new
            = map fst (filter (fun p => match snd p with
                                        | Some _ => true
                                        | None => false
                                        end) (combine ids outputs))
         /\ map (fun e => length (combine (combine (fst (fst (fst e)))
                                             (snd (fst (fst e))))
                                    (snd (fst e)))) new
            = map (@length OutputRow) (present_outputs outputs).
Proof.
  induction outputs as [|output outputs IH];
    intros batch_idx ids acc acc' Hids Ha H; simpl in H.
  - injection H as <-. split; [exact Ha|]. exists []. cbn [map].
    rewrite !app_nil_r. split; [reflexivity|]. split; [reflexivity|].
    split; [|reflexivity]. clear. destruct ids; reflexivity.
  - assert (Hnext : skipn (S batch_idx) (img_id batch) = tl ids)
      by (subst ids; apply skipn_S_tl).
    destruct output as [output|].
    + destruct (nth_error (img_info_0 batch) batch_idx) as [height|];
        cbn [obind] in H; [|discriminate].
      destruct (nth_error (img_info_1 batch) batch_idx) as [width|];
        cbn [obind] in H; [|discriminate].
      unfold unpack_output in H.
      destruct (nth_error (img_id batch) batch_idx) as [name|] eqn:En;
        cbn [obind] in H; [|discriminate].
      destruct acc as [[[rb rc] rs] rn].
      set (b := map _ output) in H. set (c := map _ output) in H.
      set (s := map _ output) in H.
      destruct (entries_of_snoc rb rc rs rn b c s name Ha) as [Ha1 E1].
      destruct (IH _ _ _ _ Hnext Ha1 H) as (Ha' & new & En' & Hn & Hid & Hrows).
      split; [exact Ha'|]. exists ((b, c, s, name) :: new).
      assert (Hhd : ids = name :: tl ids)
        by (subst ids; now apply skipn_nth_hd).
      repeat split.
      * rewrite En', E1, <- app_assoc. reflexivity.
      * rewrite Hn. simpl. now rewrite <- app_assoc.
      * rewrite Hhd. simpl. now rewrite Hid.
      * simpl. rewrite Hrows. f_equal. unfold b, c, s.
        rewrite !length_combine, !length_map. lia.
    + destruct (IH _ _ _ _ Hnext Ha H) as (Ha' & new & En' & Hn & Hid & Hrows).
      split; [exact Ha'|]. exists new. repeat split; auto.
      rewrite Hid. destruct ids as [|x ids]; simpl; [|reflexivity].
      now destruct outputs.
Qed.

Lemma collect_batches_spec (batches : list Batch) :
  forall acc acc',
    aligned acc ->
    collect_batches test_size batches acc = Ok acc' ->
    aligned acc'
    /\ exists new,
         entries_of acc' = entries_of acc ++ new
         /\ snd acc' = snd acc ++ map snd new
         /\ map snd new = flat_map detected_ids batches
         /\ list_sum
              (map (fun e => length (combine (combine (fst (fst (fst e)))
                                                (snd (fst (fst e))))
                                       (snd (fst e)))) new)
            = length (flat_map output_rows batches).
Proof.
  induction batches as [|batch batches IH]; intros acc acc' Ha H; simpl in H.
  - injection H as <-. split; [exact Ha|]. exists []. cbn [map].
    rewrite !app_nil_r. repeat split.
  - destruct (collect_outputs _ _ _ _ _) as [acc1| |] eqn:E; cbn [obind] in H;
      try discriminate.
    destruct (collect_outputs_spec batch (batched_outputs batch) 0
                (img_id batch) acc acc1 eq_refl Ha E)
      as (Ha1 & new1 & E1 & N1 & I1 & R1).
    destruct (IH _ _ Ha1 H) as (Ha' & new2 & E2 & N2 & I2 & R2).
    split; [exact Ha'|]. exists (new1 ++ new2). repeat split.
    + now rewrite E2, E1, app_assoc.
    + now rewrite N2, N1, map_app, app_assoc.
    + rewrite map_app, I1, I2. reflexivity.
    + rewrite map_app, list_sum_app, R1, R2. simpl.
      rewrite length_app. f_equal. unfold output_rows, present_outputs.
      clear. induction (batched_outputs batch) as [|[o|] l IHl]; simpl;
        [reflexivity| |exact IHl].
      rewrite length_app. now rewrite IHl.
Qed.

End NaiiveCollected.

Section NaiiveWritten.

Variable classid2cocoid : Z -> Z.
Variables Info Cat : Type.

Lemma organize_rows_numbered (image_id : Z) (rows : list (Box * Z * Q)) :
  forall acc,
    numbered acc ->
    numbered (fold_left
                (fun acc row =>
                   acc ++ [detection_of classid2cocoid image_id row (length acc)])
                rows acc)
    /\ length (fold_left
                 (fun acc row =>
                    acc ++ [detection_of classid2cocoid image_id row
                              (length acc)])
                 rows acc)
       = (length acc + length rows)%nat.
Proof.
  induction rows as [|row rows IH]; intros acc Hn; cbn [fold_left length].
  - split; [exact Hn|lia].
  - destruct (IH (acc ++ [detection_of classid2cocoid image_id row
                            (length acc)])) as [Hn' L].
    + unfold numbered in *. rewrite map_app, length_app. simpl.
      rewrite Nat.add_1_r, seq_S, map_app, Hn. simpl. f_equal.
      destruct row as [[b c] s]. unfold detection_of.
      now destruct (xyminmax2xywh b) as [[[x y] w] h].
    + split; [exact Hn'|]. rewrite L, length_app. simpl. lia.
Qed.

Lemma organize_entries_numbered
    (entries : list (list Box * list Z * list Q * Z)) :
  forall acc,
    numbered acc ->
    numbered
      (fold_left
         (fun result_annotations '(bboxes, cls, scores, image_id) =>
            fold_left
              (fun acc row =>
                 acc ++ [detection_of classid2cocoid image_id row (length acc)])
              (combine (combine bboxes cls) scores) result_annotations)
         entries acc)
    /\ length
         (fold_left
            (fun result_annotations '(bboxes, cls, scores, image_id) =>
               fold_left
                 (fun acc row =>
                    acc ++ [detection_of classid2cocoid image_id row
                              (length acc)])
                 (combine (combine bboxes cls) scores) result_annotations)
            entries acc)
       = (length acc
          + list_sum
              (map (fun e => length (combine (combine (fst (fst (fst e)))
                                                (snd (fst (fst e))))
                                       (snd (fst e)))) entries))%nat.
Proof.
  induction entries as [|[[[b c] s] n] entries IH]; intros acc Hn;
    cbn [fold_left map list_sum].
  - split; [exact Hn|simpl; lia].
  - destruct (organize_rows_numbered n (combine (combine b c) s) acc Hn)
      as [Hn1 L1].
    destruct (IH _ Hn1) as [Hn2 L2]. split; [exact Hn2|].
    rewrite L2, L1. simpl. lia.
Qed.

(** X19.  The dataset of [NaiiveGenerator] has one annotation for every row
    of every output, numbered from 1, and lists the images that have an
    output, in the order of the batches: an image whose output is [None] is
    not listed. *)
Theorem naiive_dataset_holds_every_detection
    (test_size : positive * positive) (annotations : AnnotationFile Info Cat)
    (batches : list Batch) (dataset : Coco.dataset Info Cat) :
  naiive_generate_dataset classid2cocoid test_size annotations batches
  = Ok dataset ->
  length (Coco.annotations dataset) = length (flat_map output_rows batches)
  /\ map Coco.id (Coco.annotations dataset)
     = map Z.of_nat (seq 1 (length (Coco.annotations dataset)))
  /\ map item_id (Coco.images dataset) = flat_map detected_ids batches.
Proof.
  unfold naiive_generate_dataset. intros H.
  destruct (collect_batches test_size batches ([], [], [], []))
    as [lists| |] eqn:E; cbn [obind] in H; try discriminate.
  assert (Ha0 : aligned ([], [], [], [])) by (repeat split).
  destruct (collect_batches_spec test_size batches _ _ Ha0 E)
    as (Ha & new & En & Hn & Hid & Hrows).
  simpl in En, Hn.
  destruct (result_images _ (snd lists)) as [imgs| |] eqn:R;
    cbn [obind] in H; try discriminate.
  injection H as <-. simpl.
  destruct lists as [[[rb rc] rs] rn].
  pose proof (organize_entries_numbered new [] eq_refl) as [Hnum L].
  unfold organize_detections. unfold entries_of in En. rewrite En.
  split; [rewrite L, Hrows; reflexivity|]. split.
  - unfold numbered in Hnum. rewrite Hnum, <- seq_shift, map_map.
    apply map_ext. intros n. lia.
  - rewrite (result_images_ids _ _ _ _ R). simpl in Hn. now rewrite Hn.
Qed.

End NaiiveWritten.

Lemma naiive_dataset_holds_every_detection_witness :
  exists dataset,
    naiive_generate_dataset (fun c => (c + 1)%Z) (640%positive, 640%positive)
      example_file [example_batch]
    = Ok dataset
    /\ map item_id (Coco.images dataset) = [7%Z]
    /\ (length (Coco.annotations dataset)
        = length (flat_map output_rows [example_batch])
        /\ map Coco.id (Coco.annotations dataset)
           = map Z.of_nat (seq 1 (length (Coco.annotations dataset)))
        /\ map item_id (Coco.images dataset)
           = flat_map detected_ids [example_batch]).
Proof.
  eexists. split; [vm_compute; reflexivity|]. split; [reflexivity|].
  eapply (naiive_dataset_holds_every_detection (fun c => (c + 1)%Z) nat nat
            (640%positive, 640%positive) example_file [example_batch]).
  vm_compute. reflexivity.
Defined.

(** ** [postprocess_before_nms] and the batch loop of
       [SimpleMultiscaleGenerator] *)

Lemma count_filled_app {A} (l1 l2 : list (list A)) :
  count_filled (l1 ++ l2) = (count_filled l1 + count_filled l2)%nat.
Proof.
  unfold count_filled. now rewrite filter_app, length_app.
Qed.

Lemma count_filled_le {A} (l : list (list A)) :
  (count_filled l <= length l)%nat.
Proof. apply filter_length_le. Qed.

Lemma kept_scores (conf_thre ratio : Q) (rows : list OutputRow) :
  Forall (fun s => conf_thre <= s)
    (map (fun d => out_obj_conf d * out_class_conf d)
       (map (resize_row ratio) (filter (conf_mask conf_thre) rows))).
Proof.
  rewrite map_map. apply Forall_forall. intros s Hs.
  apply in_map_iff in Hs. destruct Hs as [d [<- Hd]].
  apply filter_In in Hd. destruct Hd as [_ Hd].
  unfold conf_mask, Qge_bool in Hd. apply Qle_bool_iff in Hd.
  exact Hd.
Qed.

Lemma postprocess_images_spec (scale : positive)
    (img_info : list positive * list positive) (num_classes : positive)
    (conf_thre : Q) (class_agnostic : bool) (prediction : list (list PredRow)) :
  forall i all_detections bboxes scores idxs res,
    postprocess_images scale img_info num_classes conf_thre class_agnostic i
      prediction (all_detections, bboxes, scores, idxs) = Ok res ->
    exists ad bb sc ix,
      res = (all_detections ++ ad, bboxes ++ bb, scores ++ sc, ix) /\
      length bb = length prediction /\
      length ad = count_filled bb /\
      map (@length Q) sc = map (@length Box) bb /\
      Forall (Forall (fun s => conf_thre <= s)) sc.
Proof.
  induction prediction as [|image_pred rest IH];
    intros i all_detections bboxes scores idxs res H.
  - simpl in H. inversion H; subst.
    exists [], [], [], idxs. rewrite !app_nil_r. repeat split. constructor.
  - cbn [postprocess_images] in H.
    destruct (filter (conf_mask conf_thre)
                (map (detection_row num_classes) image_pred))
      as [|d ds] eqn:D.
    + apply IH in H.
      destruct H as [ad [bb [sc [ix [-> [Hb [Ha [Hl Hs]]]]]]]].
      exists ad, ([] :: bb), ([] :: sc), ix.
      rewrite <- !app_assoc. simpl. repeat split.
      * now rewrite Hb.
      * exact Ha.
      * now rewrite Hl.
      * constructor; [constructor | exact Hs].
    + destruct (nth_error (fst img_info) i) as [height|]; [|discriminate].
      destruct (nth_error (snd img_info) i) as [width|]; [|discriminate].
      cbn [obind] in H.
      set (ratio := resize_ratio (scale, scale) height width) in H.
      assert (K : postprocess_images scale img_info num_classes conf_thre
                    class_agnostic (S i) rest
                    (all_detections ++ [map (resize_row ratio) (d :: ds)],
                     bboxes ++ [map row_box (map (resize_row ratio) (d :: ds))],
                     scores ++ [map (fun d => out_obj_conf d * out_class_conf d)
                                  (map (resize_row ratio) (d :: ds))],
                     if class_agnostic then idxs
                     else idxs ++ [map out_class_pred
                                     (map (resize_row ratio) (d :: ds))])
                  = Ok res).
      { destruct image_pred as [|r1 [|r2 rs]]; [exact H | discriminate | exact H]. }
      clear H. apply IH in K.
      destruct K as [ad [bb [sc [ix [-> [Hb [Ha [Hl Hs]]]]]]]].
      exists (map (resize_row ratio) (d :: ds) :: ad),
        (map row_box (map (resize_row ratio) (d :: ds)) :: bb),
        (map (fun d => out_obj_conf d * out_class_conf d)
           (map (resize_row ratio) (d :: ds)) :: sc), ix.
      rewrite <- !app_assoc. repeat split.
      * simpl. now rewrite Hb.
      * change (count_filled (map row_box (map (resize_row ratio) (d :: ds)) :: bb))
          with (S (count_filled bb)).
        simpl. now rewrite Ha.
      * cbn [map]. rewrite Hl. f_equal. cbn [length]. now rewrite !length_map.
      * constructor; [|exact Hs]. rewrite <- D. apply kept_scores.
Qed.

Lemma filter_no_match {A} (p : A -> bool) (l : list A) :
  existsb p l = false -> filter p l = [].
Proof.
  induction l as [|x t IH]; simpl; [reflexivity|].
  destruct (p x); simpl; [discriminate | exact IH].
Qed.

(** The last entry with a box, in a list that has one. *)
Lemma last_filled {A} (l : list (list A)) :
  (exists x, In x l /\ x <> []) ->
  exists pre x post,
    l = pre ++ x :: post /\ x <> [] /\ count_filled post = 0%nat.
Proof.
  induction l as [|y t IH]; intros [x [Hin Hx]]; [destruct Hin|].
  destruct (existsb (fun x => match x with [] => false | _ :: _ => true end) t)
    eqn:E.
  - apply existsb_exists in E. destruct E as [z [Hz Hz']].
    destruct IH as [pre [x' [post [-> [Hx' Hp]]]]].
    { exists z. split; [exact Hz|]. now destruct z. }
    exists (y :: pre), x', post. now repeat split.
  - assert (Ht : count_filled t = 0%nat).
    { unfold count_filled. now rewrite (filter_no_match _ t E). }
    destruct Hin as [->|Hin].
    + exists [], x, t. now repeat split.
    + exfalso. apply In_nth_error in Hin. destruct Hin as [n Hn].
      assert (F : In x (filter (fun x => match x with [] => false | _ :: _ => true end) t)).
      { apply filter_In. split; [now apply nth_error_In in Hn|].
        now destruct x. }
      unfold count_filled in Ht. apply length_zero_iff_nil in Ht.
      rewrite Ht in F. destruct F.
Qed.

(** An entry without a box before one with boxes leaves fewer filled
    entries than the position of the last filled one. *)
Lemma filled_beyond {A} (l : list (list A)) (i j : nat) (b : A) (bs : list A) :
  nth_error l i = Some [] -> nth_error l j = Some (b :: bs) -> (i < j)%nat ->
  exists k x, nth_error l k = Some x /\ x <> [] /\ (count_filled l <= k)%nat.
Proof.
  intros Hi Hj Hij.
  destruct (nth_error_split l i Hi) as [l1 [l2 [-> Hl1]]].
  assert (Hj2 : nth_error l2 (j - i - 1) = Some (b :: bs)).
  { rewrite nth_error_app2 in Hj by lia.
    rewrite Hl1 in Hj.
    destruct (j - i)%nat eqn:E; [lia|]. simpl in Hj.
    replace (S n - 1)%nat with n by lia. exact Hj. }
  destruct (last_filled l2) as [pre [x [post [-> [Hx Hp]]]]].
  { exists (b :: bs). split; [now apply nth_error_In in Hj2 | discriminate]. }
  exists (length l1 + S (length pre))%nat, x. split; [|split].
  - rewrite nth_error_app2 by lia.
    replace (length l1 + S (length pre) - length l1)%nat with (S (length pre))
      by lia.
    simpl. rewrite nth_error_app2 by lia.
    now rewrite Nat.sub_diag.
  - exact Hx.
  - rewrite count_filled_app.
    change ([] :: pre ++ x :: post) with ([[]] ++ pre ++ [x] ++ post).
    rewrite !count_filled_app, Hp.
    pose proof (count_filled_le l1). pose proof (count_filled_le pre).
    pose proof (count_filled_le [x]).
    change (count_filled [[]]) with 0%nat. simpl in *. lia.
Qed.

(** The loop stops with [IndexError] at the latest at an entry with
    boxes whose position [all_detections] does not have. *)
Lemma gather_images_raises (all_detections : list (list OutputRow))
    (bboxes : list (list Box)) (scores : list (list Q)) (k : nat)
    (x : list Box) :
  nth_error bboxes k = Some x -> x <> [] ->
  (length all_detections <= k)%nat ->
  forall n batch_idx img_id tables,
    (batch_idx + n = k)%nat -> (n < length img_id)%nat ->
    gather_images all_detections bboxes scores batch_idx img_id tables
    = Raise IndexError.
Proof.
  intros Hk Hx Hlen.
  induction n as [|n IH]; intros batch_idx img_id tables E Hn;
    (destruct img_id as [|image_id rest]; [simpl in Hn; lia|]);
    cbn [gather_images].
  - replace batch_idx with k by lia. rewrite Hk. cbn [obind].
    destruct x as [|b bs]; [congruence|].
    rewrite (proj2 (nth_error_None all_detections k) Hlen). reflexivity.
  - destruct (nth_error bboxes batch_idx) as [b|]; [|reflexivity].
    cbn [obind].
    assert (Hr : forall tables',
               gather_images all_detections bboxes scores (S batch_idx) rest
                 tables' = Raise IndexError).
    { intros tables'. apply IH; [lia | simpl in Hn; lia]. }
    destruct b as [|b0 bs]; [apply Hr|].
    destruct (nth_error all_detections batch_idx) as [d|]; [|reflexivity].
    cbn [obind].
    destruct (nth_error scores batch_idx) as [s|]; [|reflexivity].
    cbn [obind].
    destruct tables as [[t1 t2] t3]. apply Hr.
Qed.

(** X20.  [postprocess_before_nms], lines 468-506: when it returns, [bboxes]
    and [scores] have one entry for each image of the batch, with as many
    scores as boxes; [all_detections] has an entry only for each image that
    has a box; and every score is at least [conf_thre]. *)
Theorem detections_only_for_images_with_boxes
    (prediction : list (list PredRow)) (scale : positive)
    (img_info : list positive * list positive) (num_classes : positive)
    (conf_thre : Q) (class_agnostic : bool)
    (all_detections : list (list OutputRow)) (bboxes : list (list Box))
    (scores idxs : list (list Q)) :
  postprocess_before_nms prediction scale img_info num_classes conf_thre
    class_agnostic = Ok (all_detections, bboxes, scores, idxs) ->
  length bboxes = length prediction /\
  map (@length Q) scores = map (@length Box) bboxes /\
  length all_detections = count_filled bboxes /\
  Forall (Forall (fun s => conf_thre <= s)) scores.
Proof.
  unfold postprocess_before_nms. intros H.
  apply postprocess_images_spec in H.
  destruct H as [ad [bb [sc [ix [E [Hb [Ha [Hl Hs]]]]]]]].
  simpl in E. inversion E; subst.
  rewrite length_map in Hb. now repeat split.
Qed.

Lemma detections_only_for_images_with_boxes_witness :
  exists all_detections bboxes scores idxs,
    postprocess_before_nms example_prediction 640 example_img_info 1 (1 # 2)
      true = Ok (all_detections, bboxes, scores, idxs) /\
    length bboxes = 2%nat /\
    map (@length Q) scores = map (@length Box) bboxes /\
    length all_detections = count_filled bboxes /\
    Forall (Forall (fun s => (1 # 2) <= s)) scores.
Proof.
  eexists _, _, _, _. split; [vm_compute; reflexivity|].
  eapply (detections_only_for_images_with_boxes example_prediction 640
            example_img_info 1 (1 # 2) true).
  vm_compute; reflexivity.
Defined.

(** X21.  [SimpleMultiscaleGenerator.generate_dataset], lines 617-631: the
    loop reads [all_detections] at the position of the image in the batch,
    but [all_detections] has no entry for an image without a box. So a batch
    in which an image without a box comes before an image with boxes stops
    with [IndexError]. *)
Theorem image_without_box_breaks_batch
    (prediction : list (list PredRow)) (scale : positive)
    (img_info : list positive * list positive) (num_classes : positive)
    (test_conf : Q) (img_id : list Z) (tables : scale_tables)
    (all_detections : list (list OutputRow)) (bboxes : list (list Box))
    (scores idxs : list (list Q)) (i j : nat) (b : Box) (bs : list Box) :
  postprocess_before_nms prediction scale img_info num_classes test_conf true
    = Ok (all_detections, bboxes, scores, idxs) ->
  length img_id = length prediction ->
  nth_error bboxes i = Some [] ->
  nth_error bboxes j = Some (b :: bs) ->
  (i < j)%nat ->
  gather_batch prediction scale img_info num_classes test_conf img_id tables
  = Raise IndexError.
Proof.
  intros H Hid Hi Hj Hij. unfold gather_batch. rewrite H. cbn [obind].
  unfold postprocess_before_nms in H.
  apply postprocess_images_spec in H.
  destruct H as [ad [bb [sc [ix [E [Hb [Ha [Hl Hs]]]]]]]].
  simpl in E. inversion E; subst. rewrite length_map in Hb.
  destruct (filled_beyond bb i j b bs Hi Hj Hij) as [k [x [Hk [Hx Hc]]]].
  apply (gather_images_raises ad bb sc k x Hk Hx) with (n := k).
  - lia.
  - reflexivity.
  - assert (k < length bb)%nat by (apply nth_error_Some; congruence). lia.
Qed.

Lemma image_without_box_breaks_batch_witness :
  gather_batch example_prediction 640 example_img_info 1 (1 # 2)
    [7%Z; 8%Z] ([], [], []) = Raise IndexError.
Proof.
  eapply (image_without_box_breaks_batch example_prediction 640
            example_img_info 1 (1 # 2) [7%Z; 8%Z] ([], [], [])
            _ _ _ _ 0 1).
  - vm_compute; reflexivity.
  - reflexivity.
  - reflexivity.
  - reflexivity.
  - lia.
Defined.

(** ** Detections that a ground-truth box has consumed *)




Section Consumption.

Variable iou_np : Box -> Box -> Q.
Variable self : MultiscaleGenerator.







End Consumption.


(** ** Detections at or below [conf_thresh] take no part *)

(** *** Class lists *)

Lemma insert_unique_sorted (x : Z) (l : list Z) :
  StronglySorted Z.lt l -> StronglySorted Z.lt (insert_unique x l).
Proof.
  induction 1 as [|y l Hs IH Hy]; simpl; [repeat constructor|].
  destruct (Z.ltb_spec x y) as [Hlt|Hge].
  - constructor; [now constructor|].
    constructor; [exact Hlt|]. revert Hy. apply Forall_impl. intros z Hz. lia.
  - destruct (Z.eqb_spec x y) as [->|Hn]; [now constructor|].
    constructor; [exact IH|]. apply Forall_forall. intros z Hz.
    apply insert_unique_In in Hz. destruct Hz as [->|Hz]; [lia|].
    rewrite Forall_forall in Hy. now apply Hy.
Qed.

Lemma np_unique_sorted (l : list Z) : StronglySorted Z.lt (np_unique l).
Proof.
  induction l as [|x l IH]; simpl; [constructor|].
  now apply insert_unique_sorted.
Qed.

Lemma sorted_of_sorted (l : list Z) :
  StronglySorted Z.lt l -> sorted Z.leb l = l.
Proof.
  induction 1 as [|x l Hs IH Hx]; simpl; [reflexivity|].
  fold (sorted Z.leb l). rewrite IH.
  destruct l as [|y l]; [reflexivity|]. simpl.
  apply Forall_inv in Hx.
  destruct (Z.leb_spec x y); [reflexivity|lia].
Qed.

Lemma classes_sorted (l : list Z) :
  StronglySorted Z.lt (sorted Z.leb (np_unique l)).
Proof.
  rewrite sorted_of_sorted by apply np_unique_sorted. apply np_unique_sorted.
Qed.

Lemma filter_strongly_sorted (p : Z -> bool) (l : list Z) :
  StronglySorted Z.lt l -> StronglySorted Z.lt (filter p l).
Proof.
  induction 1 as [|x l Hs IH Hx]; simpl; [constructor|].
  destruct (p x); [|exact IH]. constructor; [exact IH|].
  apply Forall_forall. intros z Hz. apply filter_In in Hz as [Hz _].
  rewrite Forall_forall in Hx. now apply Hx.
Qed.

(** Two ascending lists without repetition that have the same elements
    are the same list. *)
Lemma strongly_sorted_ext (l1 : list Z) :
  forall l2,
    StronglySorted Z.lt l1 -> StronglySorted Z.lt l2 ->
    (forall x, In x l1 <-> In x l2) -> l1 = l2.
Proof.
  induction l1 as [|x l1 IH]; intros l2 H1 H2 Hx.
  - destruct l2 as [|y l2]; [reflexivity|].
    exfalso. apply (proj2 (Hx y)). now left.
  - destruct l2 as [|y l2]; [exfalso; apply (proj1 (Hx x)); now left|].
    apply StronglySorted_inv in H1 as [H1 F1].
    apply StronglySorted_inv in H2 as [H2 F2].
    rewrite Forall_forall in F1, F2.
    assert (x = y).
    { destruct (proj1 (Hx x) (or_introl eq_refl)) as [E|Hin]; [auto|].
      destruct (proj2 (Hx y) (or_introl eq_refl)) as [E|Hin']; [auto|].
      specialize (F1 y Hin'). specialize (F2 x Hin). lia. }
    subst y. f_equal. apply IH; [exact H1|exact H2|].
    intros z. split; intros Hz.
    + destruct (proj1 (Hx z) (or_intror Hz)) as [E|Hin]; [|exact Hin].
      subst z. specialize (F1 x Hz). lia.
    + destruct (proj2 (Hx z) (or_intror Hz)) as [E|Hin]; [|exact Hin].
      subst z. specialize (F2 x Hz). lia.
Qed.

(** *** A class that has neither ground truth nor detections *)

Section SkippedClasses.

Variable iou_np : Box -> Box -> Q.
Variable self : MultiscaleGenerator.

Lemma match_class_nothing (class_id : Z) (gt_objects : dict (list Box))
    (infer_objects : infer_table) :
  class_has_boxes gt_objects infer_objects class_id = false ->
  match_class iou_np self class_id gt_objects infer_objects = Ok ([], [], []).
Proof.
  unfold class_has_boxes, match_class, match_class_parts. intros H.
  destruct (dict_get infer_objects class_id); [discriminate|].
  destruct (dict_get gt_objects class_id); [discriminate|].
  reflexivity.
Qed.

(** Lines 346-351 add nothing for such a class: the visit of a class
    list is the visit of its classes that have boxes. *)
Lemma match_classes_skip (gt_objects : dict (list Box))
    (infer_objects : infer_table) (classes : list Z) :
  forall acc,
    match_classes iou_np self classes gt_objects infer_objects acc
    = match_classes iou_np self
        (filter (class_has_boxes gt_objects infer_objects) classes)
        gt_objects infer_objects acc.
Proof.
  induction classes as [|c classes IH]; intros acc; [reflexivity|].
  cbn [filter].
  destruct (class_has_boxes gt_objects infer_objects c) eqn:E.
  - cbn [match_classes].
    destruct (match_class iou_np self c gt_objects infer_objects)
      as [[[t g] i]| |]; cbn [obind]; try reflexivity.
    destruct acc as [[ma ga] ia]. apply IH.
  - cbn [match_classes]. rewrite (match_class_nothing _ _ _ E). cbn [obind].
    destruct acc as [[ma ga] ia]. apply IH.
Qed.

Lemma match_classes_same (gt_objects : dict (list Box))
    (infer_objects : infer_table) (l1 l2 : list Z) (acc : all_tables) :
  (forall c, class_has_boxes gt_objects infer_objects c = true ->
             In c l1 /\ In c l2) ->
  match_classes iou_np self (sorted Z.leb (np_unique l1)) gt_objects
    infer_objects acc
  = match_classes iou_np self (sorted Z.leb (np_unique l2)) gt_objects
      infer_objects acc.
Proof.
  intros H.
  rewrite (match_classes_skip _ _ (sorted Z.leb (np_unique l1))).
  rewrite (match_classes_skip _ _ (sorted Z.leb (np_unique l2))).
  f_equal.
  apply strongly_sorted_ext;
    try (apply filter_strongly_sorted, classes_sorted).
  intros x. rewrite !filter_In, !classes_In.
  split; intros [_ Hx]; (split; [apply (H x Hx)|exact Hx]).
Qed.

End SkippedClasses.

(** *** What [infer_objects] is made of *)

Lemma assign_classes_keys (scale : Z) (bboxes : list Box) (cls : list Z)
    (classes : list Z) :
  forall infer_objects infer_objects',
    assign_classes scale bboxes cls classes infer_objects = Ok infer_objects' ->
    forall c, dict_get infer_objects' c <> None ->
              dict_get infer_objects c <> None \/ In c classes.
Proof.
  induction classes as [|k classes IH]; intros io io' H c Hc.
  - simpl in H. injection H as <-. now left.
  - cbn [assign_classes] in H.
    destruct (take_rows bboxes _) as [rows| |]; cbn [obind] in H;
      try discriminate.
    destruct (dict_getitem _ k) as [per_scale| |]; cbn [obind] in H;
      try discriminate.
    destruct (IH _ _ H c Hc) as [Hin|Hin]; [|right; now right].
    rewrite dict_get_set in Hin.
    destruct (Z.eqb_spec c k) as [->|Hn]; [right; now left|].
    left. destruct (dict_get io k); [exact Hin|].
    rewrite dict_get_set in Hin.
    destruct (Z.eqb_spec c k); [contradiction|exact Hin].
Qed.

Lemma kept_class_In (self : MultiscaleGenerator) (bboxes : list Box)
    (cls : list Z) (scores : list Q) (c : Z) :
  In c (map (fun d : Box * Z * Q => snd (fst d))
          (kept_rows self bboxes cls scores)) ->
  In c cls.
Proof.
  intros H. apply in_map_iff in H as ([[b k] s] & <- & H).
  apply filter_In in H as [H _]. apply in_combine_l in H.
  now apply in_combine_r in H.
Qed.

Section SameKept.

Variable self : MultiscaleGenerator.
Variables bboxes_scales cls_scales scores_scales : ref.

(** One scale of lines 214-230, on the rows that lines 222-225 keep. *)
Lemma collect_step_kept (h : heap) (scale : Z) (rest : list Z)
    (infer_objects : infer_table) (bboxes : list Box) (cls : list Z)
    (scores : list Q) :
  scale_in_store h bboxes_scales cls_scales scores_scales scale
    bboxes cls scores ->
  length bboxes = length scores -> length cls = length scores ->
  exists infer_objects',
    assign_classes scale
      (map (fun d : Box * Z * Q => fst (fst d))
         (kept_rows self bboxes cls scores))
      (map (fun d : Box * Z * Q => snd (fst d))
         (kept_rows self bboxes cls scores))
      (sorted Z.leb
         (np_unique (map (fun d : Box * Z * Q => snd (fst d))
                       (kept_rows self bboxes cls scores))))
      infer_objects
    = Ok infer_objects'
    /\ collect_infer_objects self bboxes_scales cls_scales scores_scales
         (scale :: rest) infer_objects h
       = collect_infer_objects self bboxes_scales cls_scales scores_scales
           rest infer_objects' h.
Proof.
  intros (bd & cd & sd & rb & rc & rs
          & Hbd & Hcd & Hsd & Grb & Grc & Grs & Hb & Hc & Hsc) Lb Lc.
  cbn [collect_infer_objects].
  rewrite (bind_ok _ _ _ _ _ (load_dict_at _ _ _ Hbd)).
  rewrite bind_lift. unfold dict_getitem at 1. rewrite Grb.
  rewrite (bind_ok _ _ _ _ _ (load_boxes_at _ _ _ Hb)).
  rewrite (bind_ok _ _ _ _ _ (load_dict_at _ _ _ Hcd)).
  rewrite bind_lift. unfold dict_getitem at 1. rewrite Grc.
  rewrite (bind_ok _ _ _ _ _ (load_ints_at _ _ _ Hc)).
  rewrite (bind_ok _ _ _ _ _ (load_dict_at _ _ _ Hsd)).
  rewrite bind_lift. unfold dict_getitem at 1. rewrite Grs.
  rewrite (bind_ok _ _ _ _ _ (load_floats_at _ _ _ Hsc)).
  destruct bboxes as [|b0 bboxes0].
  - exists infer_objects. split; reflexivity.
  - rewrite bind_lift, (above_conf_kept self _ _ _ Lb Lc).
    destruct (assign_classes_spec scale
                (map (fun d : Box * Z * Q => fst (fst d))
                   (kept_rows self (b0 :: bboxes0) cls scores))
                (map (fun d : Box * Z * Q => snd (fst d))
                   (kept_rows self (b0 :: bboxes0) cls scores))
                (eq_trans (length_map _ _) (eq_sym (length_map _ _)))
                (sorted Z.leb
                   (np_unique
                      (map (fun d : Box * Z * Q => snd (fst d))
                         (kept_rows self (b0 :: bboxes0) cls scores))))
                infer_objects) as (io1 & E1 & _).
    rewrite bind_lift, E1. exists io1. split; reflexivity.
Qed.

Variables h1 h2 : heap.

(** Both stores give the same [infer_objects], and a class that it
    holds is a class of a row in both. *)
Lemma collect_same_kept (todo : list Z) :
  (forall scale, In scale todo ->
     same_kept_rows self bboxes_scales cls_scales scores_scales h1 h2 scale) ->
  forall infer_objects,
    exists infer_objects',
      collect_infer_objects self bboxes_scales cls_scales scores_scales todo
        infer_objects h1 = Ok (infer_objects', h1)
      /\ collect_infer_objects self bboxes_scales cls_scales scores_scales todo
           infer_objects h2 = Ok (infer_objects', h2)
      /\ forall c,
           dict_get infer_objects' c <> None ->
           dict_get infer_objects c <> None
           \/ exists scale b1 c1 s1 b2 c2 s2,
                In scale todo
                /\ scale_in_store h1 bboxes_scales cls_scales scores_scales
                     scale b1 c1 s1
                /\ scale_in_store h2 bboxes_scales cls_scales scores_scales
                     scale b2 c2 s2
                /\ In c c1 /\ In c c2.
Proof.
  induction todo as [|scale todo IH]; intros Hs io.
  - exists io. repeat split. intros c Hc. now left.
  - destruct (Hs scale (or_introl eq_refl))
      as (b1 & c1 & s1 & b2 & c2 & s2 & St1 & Lb1 & Lc1 & St2 & Lb2 & Lc2 & K).
    destruct (collect_step_kept h1 scale todo io b1 c1 s1 St1 Lb1 Lc1)
      as (io1 & A1 & ->).
    destruct (collect_step_kept h2 scale todo io b2 c2 s2 St2 Lb2 Lc2)
      as (io2 & A2 & ->).
    assert (Kb : map (fun d : Box * Z * Q => fst (fst d))
                   (kept_rows self b1 c1 s1)
                 = map (fun d : Box * Z * Q => fst (fst d))
                     (kept_rows self b2 c2 s2)).
    { rewrite <- (map_map fst fst (kept_rows self b1 c1 s1)).
      rewrite <- (map_map fst fst (kept_rows self b2 c2 s2)).
      now rewrite K. }
    assert (Kc : map (fun d : Box * Z * Q => snd (fst d))
                   (kept_rows self b1 c1 s1)
                 = map (fun d : Box * Z * Q => snd (fst d))
                     (kept_rows self b2 c2 s2)).
    { rewrite <- (map_map fst snd (kept_rows self b1 c1 s1)).
      rewrite <- (map_map fst snd (kept_rows self b2 c2 s2)).
      now rewrite K. }
    rewrite Kb, Kc, A2 in A1. injection A1 as <-.
    destruct (IH (fun s Hin => Hs s (or_intror Hin)) io2)
      as (io' & E1 & E2 & Hk).
    exists io'. split; [exact E1|]. split; [exact E2|].
    intros c Hc. destruct (Hk c Hc) as [Hin|Hin].
    + destruct (assign_classes_keys _ _ _ _ _ _ A2 c Hin) as [Hio|Hcl];
        [now left|].
      right. exists scale, b1, c1, s1, b2, c2, s2.
      split; [now left|]. split; [exact St1|]. split; [exact St2|].
      apply (proj1 (classes_In _ _)) in Hcl. split.
      * rewrite <- Kc in Hcl. exact (kept_class_In self b1 c1 s1 c Hcl).
      * exact (kept_class_In self b2 c2 s2 c Hcl).
    + right.
      destruct Hin as (s & x1 & y1 & z1 & x2 & y2 & z2 & Hin & R).
      exists s, x1, y1, z1, x2, y2, z2. split; [now right|exact R].
Qed.

End SameKept.

(** Lines 236-238: the classes of every row of every scale. *)
Lemma concat_cls_In (bboxes_scales cls_scales scores_scales : ref)
    (h : heap) (todo : list Z) :
  (forall scale, In scale todo ->
     exists bboxes cls scores,
       scale_in_store h bboxes_scales cls_scales scores_scales scale
         bboxes cls scores) ->
  exists all_cls,
    concat_cls cls_scales todo h = Ok (all_cls, h)
    /\ forall scale bboxes cls scores c,
         In scale todo ->
         scale_in_store h bboxes_scales cls_scales scores_scales scale
           bboxes cls scores ->
         In c cls -> In c all_cls.
Proof.
  induction todo as [|scale todo IH]; intros Hs; simpl.
  - exists []. split; [reflexivity|]. intros s b c sc x [].
  - destruct (Hs scale (or_introl eq_refl)) as (bboxes & cls & scores & St).
    pose proof St as (bd & cd & sd & rb & rc & rs
                      & Hbd & Hcd & Hsd & Grb & Grc & Grs & Hb & Hc & Hsc).
    destruct (IH (fun s Hin => Hs s (or_intror Hin))) as (more & E & Hin).
    rewrite (bind_ok _ _ _ _ _ (load_dict_at _ _ _ Hcd)).
    rewrite bind_lift. unfold dict_getitem. rewrite Grc.
    rewrite (bind_ok _ _ _ _ _ (load_ints_at _ _ _ Hc)).
    rewrite (bind_ok _ _ _ _ _ E).
    exists (cls ++ more). split; [reflexivity|].
    intros s b c sc x [<-|Hs'] St' Hx.
    + destruct (scale_in_store_unique _ _ _ _ _ _ _ _ _ _ _ St St')
        as (_ & <- & _).
      apply in_or_app. now left.
    + apply in_or_app. right. eapply Hin; eauto.
Qed.

Section KeptOnly.

Variable iou_np : Box -> Box -> Q.
Variable xywh2xyminmax : Q * Q * Q * Q -> Box.
Variable cocoid2classid : Z -> Z.
Variable self : MultiscaleGenerator.
Variables bboxes_scales cls_scales scores_scales : ref.

Local Abbreviation matcher :=
  (multiscale_match iou_np xywh2xyminmax cocoid2classid self).

(** The value of a call is [reconcile] on what it has read. *)
Lemma multiscale_match_value (image_name : Z) (h : heap)
    (inputs : list Z * list Box * infer_table * list Z) :
  read_inputs xywh2xyminmax cocoid2classid self image_name bboxes_scales
    cls_scales scores_scales h = Ok (inputs, h) ->
  value_of (matcher image_name bboxes_scales cls_scales scores_scales h)
  = reconcile iou_np self inputs.
Proof.
  intros Hr.
  pose proof (multiscale_match_spec iou_np xywh2xyminmax cocoid2classid self
                image_name bboxes_scales cls_scales scores_scales h _ Hr)
    as Sp.
  destruct (reconcile iou_np self inputs) as [t| |].
  - destruct Sp as (h' & -> & _). reflexivity.
  - now rewrite Sp.
  - now rewrite Sp.
Qed.

(** The class list of lines 236-238 matters by its classes that have
    ground truth or detections above [conf_thresh] only. *)
Lemma reconcile_same_classes (o_cls : list Z) (o_bboxes : list Box)
    (infer_objects : infer_table) (all_cls1 all_cls2 : list Z) :
  length o_cls = length o_bboxes ->
  (forall c, dict_get infer_objects c <> None ->
             In c all_cls1 /\ In c all_cls2) ->
  reconcile iou_np self (o_cls, o_bboxes, infer_objects, all_cls1)
  = reconcile iou_np self (o_cls, o_bboxes, infer_objects, all_cls2).
Proof.
  intros Hlen Hk. unfold reconcile, per_class_phases.
  rewrite (gt_by_class_ok o_cls o_bboxes Hlen). cbn [obind].
  rewrite (match_classes_same iou_np self _ infer_objects
             (all_cls1 ++ o_cls) (all_cls2 ++ o_cls)); [reflexivity|].
  intros c Hc. unfold class_has_boxes in Hc.
  destruct (dict_get infer_objects c) as [d|] eqn:G.
  - destruct (Hk c) as [H1 H2]; [rewrite G; discriminate|].
    split; apply in_or_app; now left.
  - rewrite gt_objects_get in Hc. simpl in Hc.
    destruct (existsb (Z.eqb c) (sorted Z.leb (np_unique o_cls))) eqn:Ex;
      [|discriminate].
    apply (proj1 (existsb_eqb_In _ _)) in Ex.
    apply (proj1 (classes_In _ _)) in Ex.
    split; apply in_or_app; now right.
Qed.

(** C9, as amended.  The matcher filters by confidence itself.  Under a
    class and a scale, [infer_objects], from which the ground-truth
    matching and the later phases take every detection, holds the rows
    of the scale that have this class and a score above [conf_thresh], in
    the order of the array, and no other row.  A row whose score is at
    or below [conf_thresh] takes no part in the result: whenever the
    arrays of two stores have the same rows above [conf_thresh] at every
    scale, the two calls build the same [infer_objects] and end alike,
    with the same tables or with the same exception. *)
Theorem only_scores_above_conf_thresh_are_kept (image_name : Z)
    (h1 h2 : heap) (annotations : dict (list Annotation)) :
  NoDup (scales self) ->
  nth_error h1 (annotation_map self) = Some (PyAnnotations annotations) ->
  nth_error h2 (annotation_map self) = Some (PyAnnotations annotations) ->
  (forall scale, In scale (scales self) ->
     same_kept_rows self bboxes_scales cls_scales scores_scales h1 h2 scale) ->
  (exists infer_objects,
     collect_infer_objects self bboxes_scales cls_scales scores_scales
       (scales self) [] h1 = Ok (infer_objects, h1)
     /\ collect_infer_objects self bboxes_scales cls_scales scores_scales
          (scales self) [] h2 = Ok (infer_objects, h2)
     /\ (forall c s bboxes cls scores,
          In s (scales self) ->
          scale_in_store h1 bboxes_scales cls_scales scores_scales s
            bboxes cls scores ->
          infer_lookup infer_objects c s
          = match class_rows c (kept_rows self bboxes cls scores) with
            | [] => None
            | rows => Some rows
            end)
     /\ forall c s, ~ In s (scales self) ->
                    infer_lookup infer_objects c s = None)
  /\ value_of (matcher image_name bboxes_scales cls_scales scores_scales h1)
     = value_of (matcher image_name bboxes_scales cls_scales scores_scales h2).
Proof.
  intros Hnd Ha1 Ha2 Hs.
  destruct (collect_same_kept self bboxes_scales cls_scales scores_scales
              h1 h2 (scales self) Hs []) as (io & E1 & E2 & Hk).
  assert (Hwf1 : forall scale, In scale (scales self) ->
                   scale_well_formed h1 bboxes_scales cls_scales
                     scores_scales scale).
  { intros s Hin.
    destruct (Hs s Hin) as (b1 & c1 & s1 & _ & _ & _ & St & Lb & Lc & _).
    exists b1, c1, s1. auto. }
  split.
  - exists io. split; [exact E1|]. split; [exact E2|].
    destruct (collect_spec self bboxes_scales cls_scales scores_scales h1
                (scales self) Hnd Hwf1 [] (fun _ _ _ => eq_refl))
      as (io' & E' & Hout & Hin').
    rewrite E1 in E'. injection E' as <-. split.
    + intros c s bboxes cls scores Hin St. now apply Hin'.
    + intros c s Hs'. now rewrite Hout.
  - set (o_items := match dict_get annotations image_name with
                    | Some o_items => o_items
                    | None => []
                    end).
    set (o_cls := map (fun item => cocoid2classid (category_id item)) o_items).
    set (o_bboxes := map (fun item => xywh2xyminmax (bbox item)) o_items).
    destruct (concat_cls_In bboxes_scales cls_scales scores_scales h1
                (scales self)) as (all_cls1 & Ec1 & Hc1).
    { intros s Hin.
      destruct (Hs s Hin) as (b1 & c1 & s1 & _ & _ & _ & St & _). eauto. }
    destruct (concat_cls_In bboxes_scales cls_scales scores_scales h2
                (scales self)) as (all_cls2 & Ec2 & Hc2).
    { intros s Hin.
      destruct (Hs s Hin) as (_ & _ & _ & b2 & c2 & s2 & _ & _ & _ & St & _).
      eauto. }
    assert (Hr1 : read_inputs xywh2xyminmax cocoid2classid self image_name
                    bboxes_scales cls_scales scores_scales h1
                  = Ok ((o_cls, o_bboxes, io, all_cls1), h1)).
    { unfold read_inputs, load_gt.
      rewrite (bind_ok _ _ _ _ _
                 (bind_ok _ _ _ _ _ (load_annotations_at _ _ _ Ha1))).
      unfold ret at 1.
      rewrite (bind_ok _ _ _ _ _ E1), (bind_ok _ _ _ _ _ Ec1). reflexivity. }
    assert (Hr2 : read_inputs xywh2xyminmax cocoid2classid self image_name
                    bboxes_scales cls_scales scores_scales h2
                  = Ok ((o_cls, o_bboxes, io, all_cls2), h2)).
    { unfold read_inputs, load_gt.
      rewrite (bind_ok _ _ _ _ _
                 (bind_ok _ _ _ _ _ (load_annotations_at _ _ _ Ha2))).
      unfold ret at 1.
      rewrite (bind_ok _ _ _ _ _ E2), (bind_ok _ _ _ _ _ Ec2). reflexivity. }
    rewrite (multiscale_match_value image_name h1 _ Hr1).
    rewrite (multiscale_match_value image_name h2 _ Hr2).
    apply reconcile_same_classes.
    + unfold o_cls, o_bboxes. now rewrite !length_map.
    + intros c Hc. destruct (Hk c Hc) as [Hn|Hin]; [now elim Hn|].
      destruct Hin as (s & b1 & c1 & s1 & b2 & c2 & s2
                       & Hin & St1 & St2 & I1 & I2).
      split; [eapply Hc1; eauto|eapply Hc2; eauto].
Qed.

End KeptOnly.

Lemma only_scores_above_conf_thresh_are_kept_witness :
  (exists infer_objects,
     collect_infer_objects one_scale_generator 4%nat 5%nat 6%nat
       (scales one_scale_generator) [] store_with_low_score
     = Ok (infer_objects, store_with_low_score)
     /\ collect_infer_objects one_scale_generator 4%nat 5%nat 6%nat
          (scales one_scale_generator) [] store_without_low_score
        = Ok (infer_objects, store_without_low_score)
     /\ (forall c s bboxes cls scores,
          In s (scales one_scale_generator) ->
          scale_in_store store_with_low_score 4%nat 5%nat 6%nat s
            bboxes cls scores ->
          infer_lookup infer_objects c s
          = match class_rows c
                    (kept_rows one_scale_generator bboxes cls scores) with
            | [] => None
            | rows => Some rows
            end)
     /\ forall c s, ~ In s (scales one_scale_generator) ->
                    infer_lookup infer_objects c s = None)
  /\ value_of (multiscale_match iou to_min_max (fun c => c) one_scale_generator
                 7%Z 4%nat 5%nat 6%nat store_with_low_score)
     = value_of (multiscale_match iou to_min_max (fun c => c)
                   one_scale_generator 7%Z 4%nat 5%nat 6%nat
                   store_without_low_score).
Proof.
  apply (only_scores_above_conf_thresh_are_kept iou to_min_max (fun c => c)
           one_scale_generator 4%nat 5%nat 6%nat 7%Z store_with_low_score
           store_without_low_score
           [(7%Z, [mkAnnotation 1 (0, 0, 10, 10)])]).
  - repeat constructor; simpl; tauto.
  - reflexivity.
  - reflexivity.
  - intros scale [<-|[]].
    exists [mkBox 0 0 10 10; mkBox 40 40 50 50], [1%Z; 5%Z], [9 # 10; 3 # 10],
      [mkBox 0 0 10 10], [1%Z], [9 # 10].
    split.
    { exists [(320%Z, 1%nat)], [(320%Z, 2%nat)], [(320%Z, 3%nat)],
        1%nat, 2%nat, 3%nat.
      repeat split. }
    split; [reflexivity|]. split; [reflexivity|]. split.
    { exists [(320%Z, 1%nat)], [(320%Z, 2%nat)], [(320%Z, 3%nat)],
        1%nat, 2%nat, 3%nat.
      repeat split. }
    split; [reflexivity|]. split; reflexivity.
Defined.

(** ** The array inconsistency checks do not fail *)

Lemma passes_obind {A B} (m : outcome A) (f : A -> outcome B) :
  passes_checks m -> (forall a, passes_checks (f a)) ->
  passes_checks (obind m f).
Proof.
  unfold passes_checks. intros Hm Hf. destruct m as [a|e|]; simpl;
    [apply Hf|congruence|discriminate].
Qed.

Lemma passes_bind {A B} (m : Py A) (f : A -> Py B) :
  (forall h, passes_checks (m h)) ->
  (forall a h, passes_checks (f a h)) ->
  forall h, passes_checks (bind m f h).
Proof.
  unfold passes_checks, bind. intros Hm Hf h. specialize (Hm h).
  destruct (m h) as [[a h']|e|]; [apply Hf|congruence|discriminate].
Qed.

Lemma passes_lift {A} (m : outcome A) :
  passes_checks m -> forall h, passes_checks (lift m h).
Proof.
  unfold passes_checks, lift. intros Hm h.
  destruct m; [discriminate|congruence|discriminate].
Qed.

Lemma passes_ret {A} (a : A) (h : heap) : passes_checks (ret a h).
Proof. discriminate. Qed.

Lemma passes_load_dict (r : ref) (h : heap) : passes_checks (load_dict r h).
Proof.
  unfold passes_checks, load_dict, bind, deref.
  destruct (nth_error h r) as [[]|]; discriminate.
Qed.

Lemma passes_load_boxes (r : ref) (h : heap) : passes_checks (load_boxes r h).
Proof.
  unfold passes_checks, load_boxes, bind, deref.
  destruct (nth_error h r) as [[]|]; discriminate.
Qed.

Lemma passes_load_ints (r : ref) (h : heap) : passes_checks (load_ints r h).
Proof.
  unfold passes_checks, load_ints, bind, deref.
  destruct (nth_error h r) as [[]|]; discriminate.
Qed.

Lemma passes_load_floats (r : ref) (h : heap) :
  passes_checks (load_floats r h).
Proof.
  unfold passes_checks, load_floats, bind, deref.
  destruct (nth_error h r) as [[]|]; discriminate.
Qed.

Lemma passes_load_annotations (r : ref) (h : heap) :
  passes_checks (load_annotations r h).
Proof.
  unfold passes_checks, load_annotations, bind, deref.
  destruct (nth_error h r) as [[]|]; discriminate.
Qed.

Lemma passes_dict_getitem {V} (d : dict V) (k : Z) :
  passes_checks (dict_getitem d k).
Proof.
  unfold passes_checks, dict_getitem. destruct (dict_get d k); discriminate.
Qed.

Lemma passes_take_rows {A} (arr : list A) (idxs : list nat) :
  passes_checks (take_rows arr idxs).
Proof.
  induction idxs as [|i idxs IH]; simpl; [discriminate|].
  destruct (nth_error arr i); [|discriminate].
  apply passes_obind; [exact IH|discriminate].
Qed.

Lemma passes_assign_classes (scale : Z) (bboxes : list Box) (cls : list Z)
    (classes : list Z) :
  forall infer_objects,
    passes_checks (assign_classes scale bboxes cls classes infer_objects).
Proof.
  induction classes as [|k classes IH]; intros io; [discriminate|].
  cbn [assign_classes].
  apply passes_obind; [apply passes_take_rows|]. intros rows.
  apply passes_obind; [apply passes_dict_getitem|]. intros per_scale.
  apply IH.
Qed.

Lemma passes_above_conf (self : MultiscaleGenerator) (bboxes : list Box)
    (cls : list Z) (scores : list Q) :
  passes_checks (above_conf self bboxes cls scores).
Proof.
  unfold above_conf.
  apply passes_obind; [apply passes_take_rows|]. intros b.
  apply passes_obind; [apply passes_take_rows|]. discriminate.
Qed.

Lemma passes_collect (self : MultiscaleGenerator)
    (bboxes_scales cls_scales scores_scales : ref) (todo : list Z) :
  forall infer_objects h,
    passes_checks
      (collect_infer_objects self bboxes_scales cls_scales scores_scales
         todo infer_objects h).
Proof.
  induction todo as [|scale todo IH]; intros io h; [discriminate|].
  cbn [collect_infer_objects].
  apply passes_bind; [apply passes_load_dict|]. intros bd h1.
  apply passes_bind; [apply passes_lift, passes_dict_getitem|]. intros rb h2.
  apply passes_bind; [apply passes_load_boxes|]. intros bboxes h3.
  apply passes_bind; [apply passes_load_dict|]. intros cd h4.
  apply passes_bind; [apply passes_lift, passes_dict_getitem|]. intros rc h5.
  apply passes_bind; [apply passes_load_ints|]. intros cls h6.
  apply passes_bind; [apply passes_load_dict|]. intros sd h7.
  apply passes_bind; [apply passes_lift, passes_dict_getitem|]. intros rs h8.
  apply passes_bind; [apply passes_load_floats|]. intros scores h9.
  destruct bboxes as [|b0 bboxes]; [apply IH|].
  apply passes_bind; [apply passes_lift, passes_above_conf|].
  intros [kb kc] h10.
  apply passes_bind; [apply passes_lift, passes_assign_classes|].
  intros io1 h11. apply IH.
Qed.

Lemma passes_concat_cls (cls_scales : ref) (todo : list Z) :
  forall h, passes_checks (concat_cls cls_scales todo h).
Proof.
  induction todo as [|scale todo IH]; intros h; [discriminate|].
  cbn [concat_cls].
  apply passes_bind; [apply passes_load_dict|]. intros cd h1.
  apply passes_bind; [apply passes_lift, passes_dict_getitem|]. intros rc h2.
  apply passes_bind; [apply passes_load_ints|]. intros cls h3.
  apply passes_bind; [apply IH|]. intros more h4. discriminate.
Qed.

Lemma passes_read_inputs (xywh2xyminmax : Q * Q * Q * Q -> Box)
    (cocoid2classid : Z -> Z) (self : MultiscaleGenerator) (image_name : Z)
    (bboxes_scales cls_scales scores_scales : ref) (h : heap) :
  passes_checks
    (read_inputs xywh2xyminmax cocoid2classid self image_name bboxes_scales
       cls_scales scores_scales h).
Proof.
  unfold read_inputs, load_gt.
  apply passes_bind.
  { apply passes_bind; [apply passes_load_annotations|]. discriminate. }
  intros [o_cls o_bboxes] h1.
  apply passes_bind; [apply passes_collect|]. intros io h2.
  apply passes_bind; [apply passes_concat_cls|]. discriminate.
Qed.

Lemma passes_gt_by_class (o_cls : list Z) (o_bboxes : list Box)
    (classes : list Z) :
  forall gt_objects,
    passes_checks (gt_by_class o_cls o_bboxes classes gt_objects).
Proof.
  induction classes as [|c classes IH]; intros gt; [discriminate|].
  cbn [gt_by_class]. apply passes_obind; [apply passes_take_rows|].
  intros rows. apply IH.
Qed.

Lemma passes_flatten {V} (row : Z -> V -> FlatItem) (keys : list Z)
    (d : dict (list V)) :
  passes_checks (flatten row keys d).
Proof.
  induction keys as [|k keys IH]; [discriminate|].
  cbn [flatten]. apply passes_obind; [apply passes_dict_getitem|].
  intros l. apply passes_obind; [exact IH|]. discriminate.
Qed.

Section Checks.

Variable iou_np : Box -> Box -> Q.
Variable xywh2xyminmax : Q * Q * Q * Q -> Box.
Variable cocoid2classid : Z -> Z.
Variable self : MultiscaleGenerator.

(** Lines 323-329: a flagged box that is not found is passed over. *)
Lemma passes_rematch_loop (fuel : nat) :
  forall idx table extras,
    passes_checks (rematch_loop iou_np self fuel idx table extras).
Proof.
  induction fuel as [|fuel IH]; intros idx table extras; [discriminate|].
  simpl. destruct (nth_error table idx) as [src|]; [|discriminate].
  destruct (top_all_over self _); [|apply IH].
  destruct (remove_boxes_total
              (thresh_over self table
                 (map (fun dstbbox => iou_np src dstbbox) table)) table)
    as (t & ->).
  cbn [obind]. apply IH.
Qed.

(** Lines 290-298: the ground-truth box that a scale has matched is
    still in [gt_only_bbox_table] when the scan looks for it. *)
Lemma passes_match_class_parts (class_id : Z) (gt_objects : dict (list Box))
    (infer_objects : infer_table) :
  passes_checks
    (match_class_parts iou_np self class_id gt_objects infer_objects).
Proof.
  unfold match_class_parts. apply passes_obind.
  - destruct (dict_get infer_objects class_id) as [d|].
    + destruct (dict_get gt_objects class_id) as [gts|].
      * destruct (match_gt_total iou_np self gts d [] gts
                    (fun b => Nat.le_refl _)) as ([[d1 mt] gonly] & ->).
        cbn [obind].
        rewrite extend_scales_total by (intros k; apply sorted_In_inv).
        discriminate.
      * rewrite extend_scales_total by (intros k; apply sorted_In_inv).
        discriminate.
    + destruct (dict_get gt_objects class_id); discriminate.
  - intros [[[gts mt] gonly] t]. apply passes_obind.
    + apply passes_rematch_loop.
    + intros [left extras]. discriminate.
Qed.

Lemma passes_match_classes (gt_objects : dict (list Box))
    (infer_objects : infer_table) (classes : list Z) :
  forall acc,
    passes_checks
      (match_classes iou_np self classes gt_objects infer_objects acc).
Proof.
  induction classes as [|c classes IH]; intros acc; [discriminate|].
  cbn [match_classes]. apply passes_obind.
  - unfold match_class. apply passes_obind;
      [apply passes_match_class_parts|].
    intros [[[[gts mt] gonly] ionly] extras]. discriminate.
  - intros [[t g] i]. destruct acc as [[ma ga] ia]. apply IH.
Qed.

Hypothesis iou_np_sym : forall a b, iou_np a b == iou_np b a.
Hypothesis iou_np_ext :
  forall a b b', box_eqb b b' = true -> iou_np a b == iou_np a b'.

Lemma passes_reconcile
    (inputs : list Z * list Box * infer_table * list Z) :
  passes_checks (reconcile iou_np self inputs).
Proof.
  destruct inputs as [[[o_cls o_bboxes] io] all_cls].
  unfold reconcile, per_class_phases.
  apply passes_obind.
  { apply passes_obind; [apply passes_gt_by_class|].
    intros gt. apply passes_match_classes. }
  intros [[ma ga] ia]. apply passes_obind.
  { unfold flatten_tables, flatten_matched, flatten_boxes.
    apply passes_obind; [apply passes_flatten|]. intros m.
    apply passes_obind; [apply passes_flatten|]. intros g.
    apply passes_obind; [apply passes_flatten|]. discriminate. }
  intros [[m g] i].
  destruct (@resolver_values_settled iou_np self iou_np_sym iou_np_ext m g i)
    as (m' & g' & i' & -> & _).
  discriminate.
Qed.

(** With exact coordinates no input makes [multiscale_match] end with
    the [AssertionError] of line 296 or of [sanitize_bboxes]: the row
    that a scan looks for is there.  What the matcher raises, it raises
    while it reads its inputs or builds its tables. *)
Lemma array_inconsistency_checks_pass (image_name : Z)
    (bboxes_scales cls_scales scores_scales : ref) (h : heap) :
  passes_checks
    (multiscale_match iou_np xywh2xyminmax cocoid2classid self image_name
       bboxes_scales cls_scales scores_scales h).
Proof.
  pose proof (passes_read_inputs xywh2xyminmax cocoid2classid self image_name
                bboxes_scales cls_scales scores_scales h) as Pr.
  destruct (read_inputs xywh2xyminmax cocoid2classid self image_name
              bboxes_scales cls_scales scores_scales h)
    as [[inputs h0]|e|] eqn:Hr.
  - pose proof (read_inputs_same_store _ _ _ _ _ _ _ _ _ _ Hr) as ->.
    pose proof (multiscale_match_spec iou_np _ _ _ _ _ _ _ _ _ Hr) as Sp.
    pose proof (passes_reconcile inputs) as Pc.
    destruct (reconcile iou_np self inputs) as [t|e|].
    + destruct Sp as (h' & -> & _). discriminate.
    + rewrite Sp. unfold passes_checks in *. congruence.
    + rewrite Sp. discriminate.
  - unfold multiscale_match. rewrite (bind_raise _ _ _ _ Hr).
    unfold passes_checks in *. congruence.
  - unfold multiscale_match. rewrite (bind_diverge _ _ _ Hr). discriminate.
Qed.

End Checks.

(** ** [generate_dataset]: an error of the matcher ends the batch *)

Section Batch.

Variable iou_np : Box -> Box -> Q.
Variable xywh2xyminmax : Q * Q * Q * Q -> Box.
Variable cocoid2classid : Z -> Z.
Variable self : MultiscaleGenerator.

Local Abbreviation matcher :=
  (multiscale_match iou_np xywh2xyminmax cocoid2classid self).


(** The matcher is [multiscale_match] as lines 154-169 call it; it
    raises on an image that line 157 finds at some scale. *)
Variables boxes_scales clses_scales scores_scales : dict (dict ref).
Variable image_id : Z.
Variable e : exn.
Variables b c s : dict ref.
Variable h : heap.

Hypothesis has_boxes :
  scales_of_image boxes_scales image_id (scales self) [] = Ok b.
Hypothesis has_scale : b <> [].
Hypothesis has_clses :
  scales_of_image clses_scales image_id (scales self) [] = Ok c.
Hypothesis has_scores :
  scales_of_image scores_scales image_id (scales self) [] = Ok s.

(** Whatever the earlier images have added to the store, the call for
    the image raises [e]. *)
Hypothesis raises :
  forall (boxes_allscale clses_allscale scores_allscale : ref) (h' : heap),
    preserves (length h) h h' ->
    nth_error h' boxes_allscale = Some (PyDict b) ->
    nth_error h' clses_allscale = Some (PyDict c) ->
    nth_error h' scores_allscale = Some (PyDict s) ->
    matcher image_id boxes_allscale clses_allscale scores_allscale h'
    = Raise e.



End Batch.



